(** * OpenREALM tile cache: a shallow embedding of
    [modules/realm_ortho/src/tile_cache.cpp] and the properties of its
    add / get / flush protocol.

    Conventions of the embedding.
    - C++ [int] values are integers of [Z]; [+] and [-] on them wrap
      around at 32 bits ([wrap]), as in CompCert's C semantics.
    - [std::map<int, V>] is a [gmap Z V]; an iterator is the result of a
      lookup, [None] standing for [end()].  Dereferencing [end()], a null
      pointer, or [v[0]] of an empty vector has no defined behaviour: the
      run stops with [Undefined] and no resulting state.
    - [add] goes through [end()] in two places (lines 184 and 411).  The
      functions [add] and [updatePrediction] follow the C++ standard there
      ([Undefined]).  An ordinary build goes on: [end()] addresses the
      header of the tree, which is no entry of the map.  The functions
      [add_as_built] and [updatePrediction_as_built] follow the source
      with that reading: a store through [end()] writes no entry, and what
      the lookup of line 184 finds behind [end()] is a parameter.
    - A C++ exception is the outcome [Throw]; no function of the file
      catches one.
    - The calls of one client thread and of the worker are run one after
      the other.  The element mutex and the mutexes of the cache object
      are always free between two calls and are left out; the tile lock
      outlives [get] and is part of the state.  [lock()] on a tile that is
      already locked does not return: outcome [Blocked]. *)

From stdpp Require Import base option list strings pretty gmap fin_maps sorting.
From Stdlib Require Import ZArith Lia Ascii.

Open Scope string_scope.
Open Scope list_scope.
Open Scope Z_scope.

(** ** Machine integers *)

Definition wrap (z : Z) : Z := (z + 2 ^ 31) mod 2 ^ 32 - 2 ^ 31.
Definition int_add (a b : Z) : Z := wrap (a + b).
Definition int_sub (a b : Z) : Z := wrap (a - b).
Definition int_range (z : Z) : Prop := - 2 ^ 31 <= z < 2 ^ 31.

(** ** Data model *)

(** [cv::Rect2i]: x, y, width, height. *)
Module Rect.
Record t := mk { x : Z; y : Z; width : Z; height : Z }.

(** OpenCV's [Rect_::contains]: the rectangle covers the columns
    [x .. x + width - 1] and the rows [y .. y + height - 1]. *)
Definition contains (r : t) (px py : Z) : bool :=
  (x r <=? px) && (px <? x r + width r) && (y r <=? py) && (py <? y r + height r).
End Rect.

(** [cv::Mat]: the type code and the pixel content. *)
Module Mat.
Record t := mk { type : Z; pixels : list Z }.
End Mat.

Definition CV_MAT_DEPTH_MASK : Z := 7.
Definition CV_8U : Z := 0.
Definition CV_16U : Z := 2.
Definition CV_32S : Z := 4.
Definition CV_32F : Z := 5.
Definition CV_64F : Z := 6.

(** Modelled from the spec: the raster container [CvGridMap] belongs to
    realm_core, outside this module; the spec describes it as a
    "2D-array-with-named-layers type supporting add/get/remove/empty".  It
    is a list of named layers; [get] of a name that is absent raises
    [std::out_of_range]. *)
Module CvGridMap.
Record Layer := mkLayer { name : string; data : Mat.t; interpolation : Z }.
Definition t := list Layer.

Definition getAllLayerNames (m : t) : list string := map name m.

Definition getLayer (m : t) (n : string) : option Layer :=
  List.find (fun l => bool_decide (name l = n)) m.

Definition get (m : t) (n : string) : option Mat.t :=
  data <$> getLayer m n.

Definition empty (m : t) : bool :=
  match m with [] => true | _ => false end.

Fixpoint remove (m : t) (n : string) : t :=
  match m with
  | [] => []
  | l :: m' => if bool_decide (name l = n) then m' else l :: remove m' n
  end.

Fixpoint add (m : t) (n : string) (d : Mat.t) (interp : Z) : t :=
  match m with
  | [] => [mkLayer n d interp]
  | l :: m' =>
      if bool_decide (name l = n) then mkLayer n d interp :: m'
      else l :: add m' n d interp
  end.
End CvGridMap.

(** Modelled from the spec: class [Tile] belongs to realm_core, outside
    this module.  Per the spec a tile is "identified by (zoom_level, x, y)",
    "owns a raster container keyed by layer name" and is owned by its cache
    element, which is why the embedding keeps it in the element by value.
    [data()] is a pointer to the container ([flushAll] assigns [nullptr] to
    it): [None] is the null pointer. *)
Module Tile.
Record t := mk {
  zoom_level : Z;
  x : Z;
  y : Z;
  data : option CvGridMap.t;
  locked : bool
}.

Definition set_data (d : option CvGridMap.t) (tl : t) : t :=
  mk (zoom_level tl) (x tl) (y tl) d (locked tl).
Definition set_locked (b : bool) (tl : t) : t :=
  mk (zoom_level tl) (x tl) (y tl) (data tl) b.
End Tile.

Module LayerMetaData.
Record t := mk { name : string; type : Z; interpolation_flag : Z }.
End LayerMetaData.

Module CacheElement.
Record t := mk {
  timestamp : Z;
  layer_meta : list LayerMetaData.t;
  tile : Tile.t;
  was_written : bool
}.

Definition set_tile (tl : Tile.t) (e : t) : t :=
  mk (timestamp e) (layer_meta e) tl (was_written e).
Definition set_was_written (b : bool) (e : t) : t :=
  mk (timestamp e) (layer_meta e) (tile e) b.
End CacheElement.

(** A cache key: (zoom level, x, y). *)
Definition key : Type := Z * Z * Z.

(** What the worker does to the disk and to the raster payloads, in the
    order in which it happens.  [EvRemove] records the value of the
    element's [was_written] at the moment the layer is removed. *)
Inductive event :=
  | EvSave (k : key) (layer : string)
  | EvRemove (k : key) (layer : string) (written : bool).

(** The members of [TileCache] and the part of the environment its
    functions act on. *)
Record state := mkState {
  dir_toplevel : string;
  has_init_directories : bool;
  do_update : bool;
  cache : gmap Z (gmap Z (gmap Z CacheElement.t)); (* zoom -> x -> y -> element *)
  roi_prev_request : gmap Z Rect.t;
  roi_prediction : gmap Z Rect.t;
  (* environment *)
  files : gmap string Mat.t;     (* the files on disk *)
  directories : gset string;     (* the directories on disk *)
  now : Z;                       (* getCurrentTimeMilliseconds() *)
  trace : list event             (* oldest event first *)
}.

Definition set_dir_toplevel (d : string) (s : state) : state :=
  mkState d (has_init_directories s) (do_update s) (cache s) (roi_prev_request s)
          (roi_prediction s) (files s) (directories s) (now s) (trace s).
Definition set_has_init_directories (b : bool) (s : state) : state :=
  mkState (dir_toplevel s) b (do_update s) (cache s) (roi_prev_request s)
          (roi_prediction s) (files s) (directories s) (now s) (trace s).
Definition set_do_update (b : bool) (s : state) : state :=
  mkState (dir_toplevel s) (has_init_directories s) b (cache s) (roi_prev_request s)
          (roi_prediction s) (files s) (directories s) (now s) (trace s).
Definition set_cache (c : gmap Z (gmap Z (gmap Z CacheElement.t))) (s : state) : state :=
  mkState (dir_toplevel s) (has_init_directories s) (do_update s) c (roi_prev_request s)
          (roi_prediction s) (files s) (directories s) (now s) (trace s).
Definition set_roi_prev_request (m : gmap Z Rect.t) (s : state) : state :=
  mkState (dir_toplevel s) (has_init_directories s) (do_update s) (cache s) m
          (roi_prediction s) (files s) (directories s) (now s) (trace s).
Definition set_roi_prediction (m : gmap Z Rect.t) (s : state) : state :=
  mkState (dir_toplevel s) (has_init_directories s) (do_update s) (cache s)
          (roi_prev_request s) m (files s) (directories s) (now s) (trace s).
Definition set_files (f : gmap string Mat.t) (s : state) : state :=
  mkState (dir_toplevel s) (has_init_directories s) (do_update s) (cache s)
          (roi_prev_request s) (roi_prediction s) f (directories s) (now s) (trace s).
Definition set_directories (d : gset string) (s : state) : state :=
  mkState (dir_toplevel s) (has_init_directories s) (do_update s) (cache s)
          (roi_prev_request s) (roi_prediction s) (files s) d (now s) (trace s).
Definition set_trace (t : list event) (s : state) : state :=
  mkState (dir_toplevel s) (has_init_directories s) (do_update s) (cache s)
          (roi_prev_request s) (roi_prediction s) (files s) (directories s) (now s) t.

(** ** Outcomes and the monad of the embedding *)

Inductive exception :=
  | invalid_argument (what : string)
  | out_of_range (what : string).

Inductive undefined :=
  | end_iterator_dereference
  | null_pointer_dereference
  | vector_index_out_of_bounds.

Inductive outcome (A : Type) :=
  | Return (a : A) (s : state)      (* the call returns *)
  | Throw (e : exception) (s : state) (* an exception leaves the call *)
  | Blocked (s : state)             (* the call waits for a tile lock *)
  | Undefined (u : undefined).      (* undefined behaviour *)
Arguments Return {A} a s.
Arguments Throw {A} e s.
Arguments Blocked {A} s.
Arguments Undefined {A} u.

Definition M (A : Type) : Type := state -> outcome A.

Definition ret {A} (a : A) : M A := fun s => Return a s.
Definition bind {A B} (m : M A) (f : A -> M B) : M B :=
  fun s =>
    match m s with
    | Return a s' => f a s'
    | Throw e s' => Throw e s'
    | Blocked s' => Blocked s'
    | Undefined u => Undefined u
    end.
Definition throw {A} (e : exception) : M A := fun s => Throw e s.
Definition block {A} : M A := fun s => Blocked s.
Definition undefined_behaviour {A} (u : undefined) : M A := fun _ => Undefined u.
Definition gets {A} (f : state -> A) : M A := fun s => Return (f s) s.
Definition modify (f : state -> state) : M unit := fun s => Return tt (f s).

Declare Scope cpp_scope.
Delimit Scope cpp_scope with cpp.
Notation "x <- m ;; k" := (bind m (fun x => k))
  (at level 100, m at next level, right associativity) : cpp_scope.
Notation "m ;;; k" := (bind m (fun _ => k))
  (at level 100, right associativity) : cpp_scope.
Open Scope cpp_scope.

(** A range-based [for] loop whose body may throw, block or be undefined. *)
Fixpoint mfor {A} (l : list A) (body : A -> M unit) : M unit :=
  match l with
  | [] => ret tt
  | a :: l' => body a ;;; mfor l' body
  end.

(** The state in which a call ends, when it ends in one. *)
Definition final_state {A} (o : outcome A) : option state :=
  match o with
  | Return _ s | Throw _ s | Blocked s => Some s
  | Undefined _ => None
  end.

(** The keys of a [std::map<int, V>] in iteration order. *)
Definition keys_ascending {V} (m : gmap Z V) : list Z :=
  merge_sort Z.le (map fst (map_to_list m)).

(** ** The cache store *)

Definition lookup_element (k : key)
    (c : gmap Z (gmap Z (gmap Z CacheElement.t))) : option CacheElement.t :=
  let '(z, x, y) := k in
  match c !! z with
  | None => None
  | Some grid =>
      match grid !! x with
      | None => None
      | Some column => column !! y
      end
  end.

(** [grid[x][y].reset(e)] on the grid of zoom level [z]. *)
Definition store_element (k : key) (e : CacheElement.t)
    (c : gmap Z (gmap Z (gmap Z CacheElement.t))) : gmap Z (gmap Z (gmap Z CacheElement.t)) :=
  let '(z, x, y) := k in
  let grid := default ∅ (c !! z) in
  let column := default ∅ (grid !! x) in
  <[z := <[x := <[y := e]> column]> grid]> c.

(** [*it] for an iterator [it]. *)
Definition deref_iterator {V} (it : option V) : M V :=
  match it with
  | Some v => ret v
  | None => undefined_behaviour end_iterator_dereference
  end.

(** [*element] for the element stored under [k]. *)
Definition element (k : key) : M CacheElement.t :=
  fun s =>
    match lookup_element k (cache s) with
    | Some e => Return e s
    | None => Undefined null_pointer_dereference
    end.

Definition update_element (k : key) (f : CacheElement.t -> CacheElement.t) : M unit :=
  e <- element k ;;
  modify (fun s => set_cache (store_element k (f e) (cache s)) s).

(** [*element->tile->data()]. *)
Definition tile_data (k : key) : M CvGridMap.t :=
  e <- element k ;;
  match Tile.data (CacheElement.tile e) with
  | Some c => ret c
  | None => undefined_behaviour null_pointer_dereference
  end.

Definition set_tile_data (k : key) (d : option CvGridMap.t) : M unit :=
  update_element k (fun e => CacheElement.set_tile (Tile.set_data d (CacheElement.tile e)) e).

(** [element->tile->lock()] and [element->tile->unlock()]. *)
Definition lock (k : key) : M unit :=
  e <- element k ;;
  if Tile.locked (CacheElement.tile e) then block
  else update_element k (fun e => CacheElement.set_tile (Tile.set_locked true (CacheElement.tile e)) e).

Definition unlock (k : key) : M unit :=
  update_element k (fun e => CacheElement.set_tile (Tile.set_locked false (CacheElement.tile e)) e).

Definition emit (ev : event) : M unit :=
  modify (fun s => set_trace (trace s ++ [ev]) s).

(** ** Disk layout *)

(** Modelled from the spec: [io::createDir], [io::fileExists],
    [io::loadImage] and [io::saveImage] belong to realm_io, outside this
    module.  A directory that is created joins
    [directories]; a raster that is saved is the content of its file, and
    loading a file gives its content back. *)
Definition createDir (path : string) : M unit :=
  modify (fun s => set_directories ({[ path ]} ∪ directories s) s).

Definition saveImage (data : Mat.t) (filename : string) : M unit :=
  modify (fun s => set_files (<[filename := data]> (files s)) s).

Definition createDirectories (toplevel : string) (layer_names : list string)
    (tile_tree : string) : M unit :=
  mfor layer_names (fun layer_name => createDir (toplevel +:+ layer_name +:+ tile_tree)).

(** [<toplevel>/<layer>/<zoom>/<x>/<y>], without the extension. *)
Definition tile_path (toplevel layer : string) (tl : Tile.t) : string :=
  toplevel +:+ "/" +:+ layer +:+ "/" +:+ pretty (Tile.zoom_level tl) +:+ "/"
           +:+ pretty (Tile.x tl) +:+ "/" +:+ pretty (Tile.y tl).

(** The [switch] on the depth of the pixel type in [load] and [write]. *)
Definition extension (depth : Z) : option string :=
  if depth =? CV_8U then Some ".png"
  else if depth =? CV_16U then Some ".bin"
  else if depth =? CV_32F then Some ".bin"
  else if depth =? CV_64F then Some ".bin"
  else None.

(** ** Persistence protocol: [load], [write], [flush], [isCached] *)

Definition load_layer (k : key) (meta : LayerMetaData.t) : M unit :=
  e <- element k ;;
  toplevel <- gets dir_toplevel ;;
  let filename := tile_path toplevel (LayerMetaData.name meta) (CacheElement.tile e) in
  let type := Z.land (LayerMetaData.type meta) CV_MAT_DEPTH_MASK in
  match extension type with
  | None => throw (invalid_argument "Error reading tile: data type unknown!")
  | Some ext =>
      fs <- gets files ;;
      match fs !! (filename +:+ ext) with
      | Some data =>
          c <- tile_data k ;;
          set_tile_data k (Some (CvGridMap.add c (LayerMetaData.name meta) data
                                   (LayerMetaData.interpolation_flag meta)))
      | None => throw (invalid_argument "Error loading tile.")
      end
  end.

Definition load (k : key) : M unit :=
  e <- element k ;;
  mfor (CacheElement.layer_meta e) (load_layer k).

Definition write_layer (k : key) (meta : LayerMetaData.t) : M unit :=
  e <- element k ;;
  c <- tile_data k ;;
  match CvGridMap.get c (LayerMetaData.name meta) with
  | None => throw (out_of_range "CvGridMap::get")
  | Some data =>
      toplevel <- gets dir_toplevel ;;
      let filename := tile_path toplevel (LayerMetaData.name meta) (CacheElement.tile e) in
      let type := Z.land (Mat.type data) CV_MAT_DEPTH_MASK in
      match extension type with
      | None => throw (invalid_argument "Error writing tile: data type unknown!")
      | Some ext =>
          saveImage data (filename +:+ ext) ;;;
          emit (EvSave k (LayerMetaData.name meta)) ;;;
          update_element k (CacheElement.set_was_written true)
      end
  end.

Definition write (k : key) : M unit :=
  e <- element k ;;
  mfor (CacheElement.layer_meta e) (write_layer k).

Definition remove_layer (k : key) (layer : string) : M unit :=
  e <- element k ;;
  c <- tile_data k ;;
  emit (EvRemove k layer (CacheElement.was_written e)) ;;;
  set_tile_data k (Some (CvGridMap.remove c layer)).

Definition flush (k : key) : M unit :=
  e <- element k ;;
  (if negb (CacheElement.was_written e) then write k else ret tt) ;;;
  mfor (CacheElement.layer_meta e) (fun meta => remove_layer k (LayerMetaData.name meta)).

Definition isCached (k : key) : M bool :=
  c <- tile_data k ;;
  ret (negb (CvGridMap.empty c)).

(** ** ROI predictor *)

Definition updatePrediction (zoom_level : Z) (roi_current : Rect.t) : M unit :=
  prev <- gets roi_prev_request ;;
  let it_roi_prev_request := prev !! zoom_level in
  match it_roi_prev_request with
  | None =>
      modify (fun s => set_roi_prediction (<[zoom_level := roi_current]> (roi_prediction s)) s)
  | Some roi_prev =>
      pred <- gets roi_prediction ;;
      let it_roi_prediction := pred !! zoom_level in
      _ <- deref_iterator it_roi_prediction ;;
      let extrapolate (cur old : Z) := int_add cur (int_sub cur old) in
      modify (fun s => set_roi_prediction
        (<[zoom_level :=
             Rect.mk (extrapolate (Rect.x roi_current) (Rect.x roi_prev))
                     (extrapolate (Rect.y roi_current) (Rect.y roi_prev))
                     (extrapolate (Rect.width roi_current) (Rect.width roi_prev))
                     (extrapolate (Rect.height roi_current) (Rect.height roi_prev))]>
           (roi_prediction s)) s)
  end ;;;
  (* it_roi_prev_request->second = roi_current; *)
  _ <- deref_iterator it_roi_prev_request ;;
  modify (fun s => set_roi_prev_request (<[zoom_level := roi_current]> (roi_prev_request s)) s).

(** ** The worker's flush / evict cycle *)

(** The test of lines 88-89 on the tile's coordinates. *)
Definition outside_prediction (roi_prediction : Rect.t) (tx ty : Z) : bool :=
  (tx <? Rect.x roi_prediction)
  || (int_add (Rect.x roi_prediction) (Rect.width roi_prediction) <? tx)
  || (ty <? Rect.y roi_prediction)
  || (int_add (Rect.y roi_prediction) (Rect.height roi_prediction) <? ty).

(** The body of the innermost loop of [process]. *)
Definition process_element (roi_prediction : Rect.t) (k : key) : M unit :=
  lock k ;;;
  e <- element k ;;
  (if negb (CacheElement.was_written e) then write k else ret tt) ;;;
  cached <- isCached k ;;
  (if cached then
     e <- element k ;;
     let tx := Tile.x (CacheElement.tile e) in
     let ty := Tile.y (CacheElement.tile e) in
     if outside_prediction roi_prediction tx ty then flush k else ret tt
   else ret tt) ;;;
  unlock k.

(** The three nested loops over zoom levels, columns and elements. *)
Definition for_each_element (c : gmap Z (gmap Z (gmap Z CacheElement.t)))
    (body : key -> M unit) : M unit :=
  mfor (keys_ascending c) (fun z =>
    mfor (keys_ascending (default ∅ (c !! z))) (fun x =>
      mfor (keys_ascending (default ∅ (default ∅ (c !! z) !! x))) (fun y =>
        body (z, x, y)))).

(** The loop over the elements of column [x] of zoom level [z]
    (lines 73-95). *)
Definition process_column (c : gmap Z (gmap Z (gmap Z CacheElement.t)))
    (roi_prediction : Rect.t) (z x : Z) : M unit :=
  mfor (keys_ascending (default ∅ (default ∅ (c !! z) !! x))) (fun y =>
    process_element roi_prediction (z, x, y)).

(** The body of the loop over the zoom levels (lines 70-96). *)
Definition process_zoom (c : gmap Z (gmap Z (gmap Z CacheElement.t))) (z : Z) : M unit :=
  (* _roi_prediction.at(z) *)
  pred <- gets roi_prediction ;;
  roi <- match pred !! z with
         | Some r => ret r
         | None => throw (out_of_range "map::at")
         end ;;
  mfor (keys_ascending (default ∅ (c !! z))) (process_column c roi z).

Definition process : M bool :=
  (* _mutex_do_update.try_lock() succeeds: no other call is running *)
  do_update_ <- gets do_update ;;
  modify (set_do_update false) ;;;
  if do_update_ then
    c <- gets cache ;;
    mfor (keys_ascending c) (process_zoom c) ;;;
    ret true
  else ret false.

(** ** Public protocol: [add], [get], [flushAll], [loadAll], [reset] *)

(** [t->lock()] on a tile handed in by the caller. *)
Definition lock_tile (t : Tile.t) : M unit :=
  if Tile.locked t then block else ret tt.

Definition add_to_existing_zoom (zoom_level : Z) (layer_names : list string)
    (layer_meta : list LayerMetaData.t) (timestamp : Z) (t : Tile.t) : M unit :=
  lock_tile t ;;;
  c <- gets cache ;;
  toplevel <- gets dir_toplevel ;;
  let grid := default ∅ (c !! zoom_level) in
  let new_element := CacheElement.mk timestamp layer_meta t false in
  match grid !! Tile.x t with
  | None =>
      createDirectories (toplevel +:+ "/") layer_names
        ("/" +:+ pretty zoom_level +:+ "/" +:+ pretty (Tile.x t)) ;;;
      modify (fun s => set_cache
        (<[zoom_level := <[Tile.x t := <[Tile.y t := new_element]> ∅]> grid]> (cache s)) s)
  | Some column =>
      match column !! Tile.y t with
      | None =>
          modify (fun s => set_cache
            (<[zoom_level := <[Tile.x t := <[Tile.y t := new_element]> column]> grid]> (cache s)) s)
      | Some _ =>
          (* it_tile_xy->second->mutex.lock(): the mutex of the element that
             is replaced is free, and is dropped with the element *)
          modify (fun s => set_cache
            (<[zoom_level := <[Tile.x t := <[Tile.y t := new_element]> column]> grid]> (cache s)) s)
      end
  end
  (* t->unlock() *).

Definition add_to_new_zoom (zoom_level : Z)
    (it_zoom : option (gmap Z (gmap Z CacheElement.t)))
    (layer_names : list string) (layer_meta : list LayerMetaData.t) (timestamp : Z)
    (tile_grid : gmap Z (gmap Z CacheElement.t)) (t : Tile.t)
    : M (gmap Z (gmap Z CacheElement.t)) :=
  lock_tile t ;;;
  toplevel <- gets dir_toplevel ;;
  (* it_zoom->second.find(t->x()) *)
  zoom_grid <- deref_iterator it_zoom ;;
  match zoom_grid !! Tile.x t with
  | None =>
      createDirectories (toplevel +:+ "/") layer_names
        ("/" +:+ pretty zoom_level +:+ "/" +:+ pretty (Tile.x t))
  | Some _ => ret tt
  end ;;;
  ret (<[Tile.x t := <[Tile.y t := CacheElement.mk timestamp layer_meta t false]>
                        (default ∅ (tile_grid !! Tile.x t))]> tile_grid)
  (* t->unlock() *).

(** A loop that threads a local variable through its body. *)
Fixpoint mfold {A B} (body : B -> A -> M B) (l : list A) (b : B) : M B :=
  match l with
  | [] => ret b
  | a :: l' => b' <- body b a ;; mfold body l' b'
  end.

Definition add (zoom_level : Z) (tiles : list Tile.t) (roi_idx : Rect.t) : M unit :=
  (* tiles[0]->data() *)
  t0 <- match tiles with
        | [] => undefined_behaviour vector_index_out_of_bounds
        | t0 :: _ => ret t0
        end ;;
  d0 <- match Tile.data t0 with
        | Some d => ret d
        | None => undefined_behaviour null_pointer_dereference
        end ;;
  let layer_names := CvGridMap.getAllLayerNames d0 in
  let layer_meta :=
    omap (fun layer_name =>
            (fun layer => LayerMetaData.mk layer_name (Mat.type (CvGridMap.data layer))
                                           (CvGridMap.interpolation layer))
              <$> CvGridMap.getLayer d0 layer_name) layer_names in
  toplevel <- gets dir_toplevel ;;
  has_init <- gets has_init_directories ;;
  (if negb has_init then
     createDirectories (toplevel +:+ "/") layer_names "" ;;;
     modify (set_has_init_directories true)
   else ret tt) ;;;
  c <- gets cache ;;
  let it_zoom := c !! zoom_level in
  timestamp <- gets now ;;
  match it_zoom with
  | Some _ =>
      mfor tiles (add_to_existing_zoom zoom_level layer_names layer_meta timestamp)
  | None =>
      createDirectories (toplevel +:+ "/") layer_names ("/" +:+ pretty zoom_level) ;;;
      tile_grid <- mfold (add_to_new_zoom zoom_level it_zoom layer_names layer_meta timestamp)
                         tiles ∅ ;;
      modify (fun s => set_cache (<[zoom_level := tile_grid]> (cache s)) s)
  end ;;;
  updatePrediction zoom_level roi_idx ;;;
  modify (set_do_update true).

(** ** [add] as an ordinary build runs it *)

(** [updatePrediction] (lines 388-412) where a store through an iterator
    that is [end()] writes no entry of the map: with no previous request
    the prediction is set and no previous request is recorded (line 411). *)
Definition updatePrediction_as_built (zoom_level : Z) (roi_current : Rect.t) : M unit :=
  prev <- gets roi_prev_request ;;
  let it_roi_prev_request := prev !! zoom_level in
  match it_roi_prev_request with
  | None =>
      modify (fun s => set_roi_prediction (<[zoom_level := roi_current]> (roi_prediction s)) s)
  | Some roi_prev =>
      pred <- gets roi_prediction ;;
      let it_roi_prediction := pred !! zoom_level in
      let extrapolate (cur old : Z) := int_add cur (int_sub cur old) in
      match it_roi_prediction with
      | Some _ =>
          modify (fun s => set_roi_prediction
            (<[zoom_level :=
                 Rect.mk (extrapolate (Rect.x roi_current) (Rect.x roi_prev))
                         (extrapolate (Rect.y roi_current) (Rect.y roi_prev))
                         (extrapolate (Rect.width roi_current) (Rect.width roi_prev))
                         (extrapolate (Rect.height roi_current) (Rect.height roi_prev))]>
               (roi_prediction s)) s)
      | None => ret tt
      end
  end ;;;
  (* it_roi_prev_request->second = roi_current; *)
  match it_roi_prev_request with
  | Some _ =>
      modify (fun s => set_roi_prev_request (<[zoom_level := roi_current]> (roi_prev_request s)) s)
  | None => ret tt
  end.

Section as_built.
(** What [it_zoom->second.find(t->x()) == it_zoom->second.end()] (lines
    184-185) yields when [it_zoom] is [end()]: it depends on what the
    memory behind the header of [_cache] holds, and only decides whether
    the directories of the column are created. *)
Context (column_missing : state -> Tile.t -> bool).

(** The body of the loop for a new zoom level (lines 179-190). *)
Definition add_to_new_zoom_as_built (zoom_level : Z)
    (layer_names : list string) (layer_meta : list LayerMetaData.t) (timestamp : Z)
    (tile_grid : gmap Z (gmap Z CacheElement.t)) (t : Tile.t)
    : M (gmap Z (gmap Z CacheElement.t)) :=
  lock_tile t ;;;
  toplevel <- gets dir_toplevel ;;
  (* it_zoom->second.find(t->x()) *)
  missing <- gets (fun s => column_missing s t) ;;
  (if missing then
     createDirectories (toplevel +:+ "/") layer_names
       ("/" +:+ pretty zoom_level +:+ "/" +:+ pretty (Tile.x t))
   else ret tt) ;;;
  ret (<[Tile.x t := <[Tile.y t := CacheElement.mk timestamp layer_meta t false]>
                        (default ∅ (tile_grid !! Tile.x t))]> tile_grid)
  (* t->unlock() *).

(** [add] (lines 113-200). *)
Definition add_as_built (zoom_level : Z) (tiles : list Tile.t) (roi_idx : Rect.t) : M unit :=
  (* tiles[0]->data() *)
  t0 <- match tiles with
        | [] => undefined_behaviour vector_index_out_of_bounds
        | t0 :: _ => ret t0
        end ;;
  d0 <- match Tile.data t0 with
        | Some d => ret d
        | None => undefined_behaviour null_pointer_dereference
        end ;;
  let layer_names := CvGridMap.getAllLayerNames d0 in
  let layer_meta :=
    omap (fun layer_name =>
            (fun layer => LayerMetaData.mk layer_name (Mat.type (CvGridMap.data layer))
                                           (CvGridMap.interpolation layer))
              <$> CvGridMap.getLayer d0 layer_name) layer_names in
  toplevel <- gets dir_toplevel ;;
  has_init <- gets has_init_directories ;;
  (if negb has_init then
     createDirectories (toplevel +:+ "/") layer_names "" ;;;
     modify (set_has_init_directories true)
   else ret tt) ;;;
  c <- gets cache ;;
  let it_zoom := c !! zoom_level in
  timestamp <- gets now ;;
  match it_zoom with
  | Some _ =>
      mfor tiles (add_to_existing_zoom zoom_level layer_names layer_meta timestamp)
  | None =>
      createDirectories (toplevel +:+ "/") layer_names ("/" +:+ pretty zoom_level) ;;;
      tile_grid <- mfold (add_to_new_zoom_as_built zoom_level layer_names layer_meta timestamp)
                         tiles ∅ ;;
      modify (fun s => set_cache (<[zoom_level := tile_grid]> (cache s)) s)
  end ;;;
  updatePrediction_as_built zoom_level roi_idx ;;;
  modify (set_do_update true).
End as_built.

Definition get (tx ty zoom_level : Z) : M (option Tile.t) :=
  c <- gets cache ;;
  match c !! zoom_level with
  | None => ret None
  | Some grid =>
      match grid !! tx with
      | None => ret None
      | Some column =>
          match column !! ty with
          | None => ret None
          | Some _ =>
              let k := (zoom_level, tx, ty) in
              lock k ;;;
              cached <- isCached k ;;
              (if negb cached then load k else ret tt) ;;;
              e <- element k ;;
              ret (Some (CacheElement.tile e))
          end
      end
  end.

Definition flushAll : M unit :=
  c <- gets cache ;;
  for_each_element c (fun k =>
    lock k ;;;
    e <- element k ;;
    (if negb (CacheElement.was_written e) then write k else ret tt) ;;;
    set_tile_data k None ;;;
    unlock k).

Definition loadAll : M unit :=
  c <- gets cache ;;
  for_each_element c (fun k =>
    lock k ;;;
    cached <- isCached k ;;
    (if negb cached then load k else ret tt) ;;;
    unlock k).

Definition reset : M unit :=
  modify (set_cache ∅).

Definition setOutputFolder (dir : string) : M unit :=
  modify (set_dir_toplevel dir).

(** The constructor (lines 29-36): the cache starts empty and idle, below
    the directory [output_directory].  [files], [directories] and [now]
    are the disk and the clock of the environment in which it is
    constructed. *)
Definition TileCache (output_directory : string) (files : gmap string Mat.t)
    (directories : gset string) (now : Z) : state :=
  mkState output_directory false false ∅ ∅ ∅ files directories now [].

(** The destructor (lines 38-41). *)
Definition TileCache_destructor : M unit := flushAll.

(** * Vocabulary of the properties *)

(** ** Reading the store *)

Definition elem (k : key) (s : state) : option CacheElement.t :=
  lookup_element k (cache s).

Definition written (k : key) (s : state) : bool :=
  match elem k s with
  | Some e => CacheElement.was_written e
  | None => false
  end.

Definition metas (k : key) (s : state) : list LayerMetaData.t :=
  match elem k s with
  | Some e => CacheElement.layer_meta e
  | None => []
  end.

Definition tile_coords (tl : Tile.t) : key := (Tile.zoom_level tl, Tile.x tl, Tile.y tl).

Definition element_coords (k : key) (s : state) : option key :=
  (fun e => tile_coords (CacheElement.tile e)) <$> elem k s.

(** ** Triples and invariants *)

(** A Hoare triple with a postcondition [Q] for the runs that return and
    a postcondition [E] for the runs that throw or block.  Nothing is
    promised about a run that is undefined. *)
Definition triple {A} (P : state -> Prop) (m : M A)
    (Q : A -> state -> Prop) (E : state -> Prop) : Prop :=
  forall s, P s ->
    match m s with
    | Return a s' => Q a s'
    | Throw _ s' => E s'
    | Blocked s' => E s'
    | Undefined _ => True
    end.

(** [stable I m]: whatever way [m] ends, it ends in a state of [I] when it
    starts in one. *)
Definition stable {A} (I : state -> Prop) (m : M A) : Prop :=
  triple I m (fun _ => I) I.

(** What [get] and [load] may do to an element: replace the raster
    container of its tile and take or release the tile's lock. *)
Definition payload_update (e e' : CacheElement.t) : Prop :=
  exists d l, e' = CacheElement.set_tile
                     (Tile.set_locked l (Tile.set_data d (CacheElement.tile e))) e.

(** What the worker may do to an element: as above, and set
    [was_written]. *)
Definition worker_update (e e' : CacheElement.t) : Prop :=
  exists d l w, e' = CacheElement.set_was_written (CacheElement.was_written e || w)
                       (CacheElement.set_tile
                          (Tile.set_locked l (Tile.set_data d (CacheElement.tile e))) e).

(** An invariant that survives the updates [F] of the element under [k]. *)
Definition survives_update (k : key) (F : CacheElement.t -> CacheElement.t -> Prop)
    (I : state -> Prop) : Prop :=
  forall s e e', I s -> elem k s = Some e -> F e e' ->
                 I (set_cache (store_element k e' (cache s)) s).

(** An invariant that does not look at the disk or at the trace. *)
Definition survives_io (I : state -> Prop) : Prop :=
  (forall s f, I s -> I (set_files f s)) /\ (forall s t, I s -> I (set_trace t s)).

(** The elements under the keys of [K] are in [s] what they are in [s0]. *)
Definition untouched (K : key -> Prop) (s0 s : state) : Prop :=
  forall k, K k -> elem k s = elem k s0.

(** ** [get] *)

(** Everything but the cache store is the same in [s0] and [s]. *)
Definition same_outside_store (s0 s : state) : Prop :=
  dir_toplevel s = dir_toplevel s0
  /\ has_init_directories s = has_init_directories s0
  /\ do_update s = do_update s0
  /\ roi_prev_request s = roi_prev_request s0
  /\ roi_prediction s = roi_prediction s0
  /\ files s = files s0
  /\ directories s = directories s0
  /\ now s = now s0
  /\ trace s = trace s0.

(** [s] is [s0] but for the raster container and the lock of the tile
    stored under [k]. *)
Definition payload_frame (k : key) (s0 s : state) : Prop :=
  same_outside_store s0 s
  /\ (forall k', k' ≠ k -> elem k' s = elem k' s0)
  /\ option_Forall2 payload_update (elem k s0) (elem k s).

(** The file that [load] reads for a layer: its path has an extension
    when the pixel type of the metadata is a known one. *)
Definition backing_file (s : state) (tl : Tile.t) (meta : LayerMetaData.t) : option Mat.t :=
  match extension (Z.land (LayerMetaData.type meta) CV_MAT_DEPTH_MASK) with
  | Some ext => files s !! (tile_path (dir_toplevel s) (LayerMetaData.name meta) tl +:+ ext)
  | None => None
  end.

(** The layer can be loaded: known pixel type, and the file is there. *)
Definition loadable (s : state) (tl : Tile.t) (meta : LayerMetaData.t) : bool :=
  bool_decide (is_Some (backing_file s tl meta)).

(** What [load] reports for a layer that cannot be loaded. *)
Definition load_error (s : state) (tl : Tile.t) (meta : LayerMetaData.t) : option string :=
  match extension (Z.land (LayerMetaData.type meta) CV_MAT_DEPTH_MASK) with
  | None => Some "Error reading tile: data type unknown!"
  | Some ext =>
      match files s !! (tile_path (dir_toplevel s) (LayerMetaData.name meta) tl +:+ ext) with
      | Some _ => None
      | None => Some "Error loading tile."
      end
  end.

(** ** The worker's cycle *)

(** The order in which [process] visits the keys. *)
Definition key_lt (k1 k2 : key) : Prop :=
  let '(z1, x1, y1) := k1 in
  let '(z2, x2, y2) := k2 in
  z1 < z2 \/ (z1 = z2 /\ (x1 < x2 \/ (x1 = x2 /\ y1 < y2))).

(** Every layer that the metadata of the element under [k] lists has been
    saved in [evs]. *)
Definition all_saved (s0 : state) (k : key) (evs : list event) : Prop :=
  forall meta, meta ∈ metas k s0 -> EvSave k (LayerMetaData.name meta) ∈ evs.

(** Every removal of a layer in [evs] found [was_written] set, and is
    preceded by the write of all layers of its element unless the element
    was written before [s0]. *)
Definition removes_after_write (s0 : state) (evs : list event) : Prop :=
  forall before k layer w after,
    evs = before ++ EvRemove k layer w :: after ->
    w = true /\ (written k s0 = true \/ all_saved s0 k before).

(** What holds of the trace however the cycle ends. *)
Definition cycle_exit (s0 : state) (s : state) : Prop :=
  exists evs, trace s = trace s0 ++ evs /\ removes_after_write s0 evs.

(** What holds between the steps of two elements. *)
Definition cycle_inv (s0 : state) (s : state) : Prop :=
  exists evs,
    trace s = trace s0 ++ evs
    /\ removes_after_write s0 evs
    /\ (forall k, metas k s = metas k s0)
    /\ (forall k, written k s = true ->
                  written k s0 = true \/ all_saved s0 k evs).

(** In the loop of [write k], after the layers [done]. *)
Definition writing (s0 : state) (k : key) (done : list LayerMetaData.t) (s : state) : Prop :=
  exists evs,
    trace s = trace s0 ++ evs
    /\ removes_after_write s0 evs
    /\ (forall k, metas k s = metas k s0)
    /\ (forall k', k' ≠ k -> written k' s = true ->
                   written k' s0 = true \/ all_saved s0 k' evs)
    /\ (forall meta, meta ∈ done -> EvSave k (LayerMetaData.name meta) ∈ evs)
    /\ (done ≠ [] -> written k s = true).

(** The file of layer [layer] of the element under [k], with one of the
    extensions, exists in [s]. *)
Definition on_disk (s0 : state) (s : state) (k : key) (layer : string) : Prop :=
  exists e ext,
    elem k s0 = Some e
    /\ is_Some (files s !! (tile_path (dir_toplevel s0) layer (CacheElement.tile e) +:+ ext)).

Definition saves_on_disk (s0 : state) (s : state) : Prop :=
  dir_toplevel s = dir_toplevel s0
  /\ (forall k, element_coords k s = element_coords k s0)
  /\ exists evs,
       trace s = trace s0 ++ evs
       /\ forall k layer, EvSave k layer ∈ evs -> on_disk s0 s k layer.

(** The operations of the cache other than [add] and [reset], which
    replace or drop elements. *)
Inductive operation :=
  | op_write (k : key)
  | op_load (k : key)
  | op_flush (k : key)
  | op_process
  | op_get (tx ty zoom_level : Z)
  | op_flushAll
  | op_loadAll.

Definition final_state_of (o : operation) (s : state) : option state :=
  match o with
  | op_write k => final_state (write k s)
  | op_load k => final_state (load k s)
  | op_flush k => final_state (flush k s)
  | op_process => final_state (process s)
  | op_get tx ty zoom_level => final_state (get tx ty zoom_level s)
  | op_flushAll => final_state (flushAll s)
  | op_loadAll => final_state (loadAll s)
  end.

(** ** The ROI predictor *)

(** The rectangle that [updatePrediction] extrapolates from the current
    and the previous request. *)
Definition extrapolated_roi (roi_current roi_prev : Rect.t) : Rect.t :=
  Rect.mk
    (int_add (Rect.x roi_current) (int_sub (Rect.x roi_current) (Rect.x roi_prev)))
    (int_add (Rect.y roi_current) (int_sub (Rect.y roi_current) (Rect.y roi_prev)))
    (int_add (Rect.width roi_current) (int_sub (Rect.width roi_current) (Rect.width roi_prev)))
    (int_add (Rect.height roi_current)
             (int_sub (Rect.height roi_current) (Rect.height roi_prev))).

(** ** [add] *)

(** The keys that a call [add(zoom_level, tiles, _)] does not name. *)
Definition outside_add (zoom_level : Z) (tiles : list Tile.t) (k : key) : Prop :=
  k.1.1 ≠ zoom_level \/ forall t, t ∈ tiles -> (k.1.2, k.2) ≠ (Tile.x t, Tile.y t).

(** The frame of [add]: the elements under the other keys and the ROI
    state of the other zoom levels are in [s] what they are in [s0]. *)
Definition add_frame (zoom_level : Z) (tiles : list Tile.t) (s0 s : state) : Prop :=
  untouched (outside_add zoom_level tiles) s0 s
  /\ (forall z, z ≠ zoom_level -> roi_prediction s !! z = roi_prediction s0 !! z)
  /\ (forall z, z ≠ zoom_level -> roi_prev_request s !! z = roi_prev_request s0 !! z).

(** No previous request is recorded for the zoom level. *)
Definition no_previous_request (zoom_level : Z) (s : state) : Prop :=
  roi_prev_request s !! zoom_level = None.

(** ** The keys of the store *)

(** The keys of the store, in the order in which the three nested loops
    of [process], [flushAll] and [loadAll] visit them. *)
Definition all_keys (c : gmap Z (gmap Z (gmap Z CacheElement.t))) : list key :=
  keys_ascending c ≫= fun z =>
  keys_ascending (default ∅ (c !! z)) ≫= fun x =>
  keys_ascending (default ∅ (default ∅ (c !! z) !! x)) ≫= fun y =>
  [(z, x, y)].

(** ** What the worker and the readers leave alone *)

(** [e'] is the element [e] but for the raster container and the lock of
    its tile, and for [was_written], which may have been set. *)
Definition same_element (e e' : CacheElement.t) : Prop :=
  CacheElement.timestamp e' = CacheElement.timestamp e
  /\ CacheElement.layer_meta e' = CacheElement.layer_meta e
  /\ tile_coords (CacheElement.tile e') = tile_coords (CacheElement.tile e)
  /\ (CacheElement.was_written e = true -> CacheElement.was_written e' = true).

(** The store of [s] has the keys of the store of [s0], with the same
    elements in the sense of [same_element], and the settings, the ROI
    maps, the directories and the clock are those of [s0]. *)
Definition worker_frame (s0 s : state) : Prop :=
  dir_toplevel s = dir_toplevel s0
  /\ has_init_directories s = has_init_directories s0
  /\ roi_prev_request s = roi_prev_request s0
  /\ roi_prediction s = roi_prediction s0
  /\ directories s = directories s0
  /\ now s = now s0
  /\ (forall k, option_Forall2 same_element (elem k s0) (elem k s)).

(** Every file of [s0] is a file of [s], and the trace of [s] extends the
    trace of [s0]. *)
Definition disk_grows (s0 s : state) : Prop :=
  (forall f, is_Some (files s0 !! f) -> is_Some (files s !! f))
  /\ exists evs, trace s = trace s0 ++ evs.

(** ** The tile lock *)

(** The tile of the element under [k] is locked. *)
Definition locked_at (k : key) (s : state) : Prop :=
  exists e, elem k s = Some e /\ Tile.locked (CacheElement.tile e) = true.

(** An update of an element that leaves the lock of its tile as it is. *)
Definition keeps_lock (e e' : CacheElement.t) : Prop :=
  Tile.locked (CacheElement.tile e') = Tile.locked (CacheElement.tile e).

(** ** The bulk operations *)

(** The element under [k], if there is one, has been through
    [flushAll]: its tile has no raster container and is unlocked, and the
    element is marked as written unless it lists no layer. *)
Definition flushed (k : key) (s : state) : Prop :=
  forall e, elem k s = Some e ->
    Tile.data (CacheElement.tile e) = None
    /\ Tile.locked (CacheElement.tile e) = false
    /\ (CacheElement.layer_meta e ≠ [] -> CacheElement.was_written e = true).

(** The element under [k], if there is one, has been through
    [loadAll]: its tile is unlocked, and its raster container holds a
    layer unless the element lists none. *)
Definition loaded (k : key) (s : state) : Prop :=
  forall e, elem k s = Some e ->
    Tile.locked (CacheElement.tile e) = false
    /\ exists c, Tile.data (CacheElement.tile e) = Some c
                 /\ (CacheElement.layer_meta e ≠ [] -> CvGridMap.empty c = false).

(** ** The raster payload *)

(** The tile of the element under [k] has the raster container [d] and
    the coordinates [(tx, ty)]. *)
Definition holds_raster (k : key) (d : option CvGridMap.t) (tx ty : Z) (s : state) : Prop :=
  exists e,
    elem k s = Some e
    /\ Tile.data (CacheElement.tile e) = d
    /\ Tile.x (CacheElement.tile e) = tx
    /\ Tile.y (CacheElement.tile e) = ty.

(** An update of an element that leaves the raster container and the
    coordinates of its tile as they are. *)
Definition keeps_raster (e e' : CacheElement.t) : Prop :=
  Tile.data (CacheElement.tile e') = Tile.data (CacheElement.tile e)
  /\ Tile.x (CacheElement.tile e') = Tile.x (CacheElement.tile e)
  /\ Tile.y (CacheElement.tile e') = Tile.y (CacheElement.tile e).

(** The file that [write] saves for a layer of the metadata, and its
    content: the raster of that name in the container [c], under the path
    of the tile with the extension of the pixel type of the raster. *)
Definition saved_file (toplevel : string) (tl : Tile.t) (c : CvGridMap.t)
    (meta : LayerMetaData.t) : option (string * Mat.t) :=
  match CvGridMap.get c (LayerMetaData.name meta) with
  | None => None
  | Some d =>
      match extension (Z.land (Mat.type d) CV_MAT_DEPTH_MASK) with
      | None => None
      | Some ext => Some (tile_path toplevel (LayerMetaData.name meta) tl +:+ ext, d)
      end
  end.

(** The layer of the metadata can go to disk and come back: the raster
    container [c] holds a raster of that name, whose pixel type is one
    that [write] knows and has the depth that the metadata records. *)
Definition persistable (c : CvGridMap.t) (meta : LayerMetaData.t) : Prop :=
  exists d,
    CvGridMap.get c (LayerMetaData.name meta) = Some d
    /\ is_Some (extension (Z.land (Mat.type d) CV_MAT_DEPTH_MASK))
    /\ Z.land (LayerMetaData.type meta) CV_MAT_DEPTH_MASK
       = Z.land (Mat.type d) CV_MAT_DEPTH_MASK.

(** ** Write once *)

(** Every element of the store is marked as written. *)
Definition all_written (s : state) : Prop :=
  forall k e, elem k s = Some e -> CacheElement.was_written e = true.

(** The disk is the disk of [s0], and every element is marked as
    written. *)
Definition unwritten_disk (s0 s : state) : Prop := files s = files s0 /\ all_written s.

(** No tile of the store is locked. *)
Definition all_unlocked (s : state) : Prop :=
  forall k e, elem k s = Some e -> Tile.locked (CacheElement.tile e) = false.

(** Every zoom level of the store has a predicted ROI. *)
Definition all_predicted (s : state) : Prop :=
  forall z, is_Some (cache s !! z) -> is_Some (roi_prediction s !! z).

(** ** Durability *)

Fixpoint no_slash (s : string) : bool :=
  match s with
  | EmptyString => true
  | String c s' => negb (Ascii.eqb c "/"%char) && no_slash s'
  end.

(** The raster container of the tile of the element under [k]. *)
Definition payload (k : key) (s : state) : option (option CvGridMap.t) :=
  (fun e => Tile.data (CacheElement.tile e)) <$> elem k s.

(** No two elements of the store hold tiles with the same coordinates. *)
Definition distinct_tiles (s : state) : Prop :=
  forall k k' e e',
    elem k s = Some e -> elem k' s = Some e' ->
    tile_coords (CacheElement.tile e) = tile_coords (CacheElement.tile e') ->
    k = k'.

(** The raster of layer [layer] that the element under [k] holds in [s0]
    is in [s] the content of the file of the layer:
    [<toplevel>/<layer>/<zoom>/<x>/<y>] with the extension of the pixel
    type of the raster. *)
Definition durable (s0 s : state) (k : key) (layer : string) : Prop :=
  exists e c d ext,
    elem k s0 = Some e
    /\ Tile.data (CacheElement.tile e) = Some c
    /\ CvGridMap.get c layer = Some d
    /\ extension (Z.land (Mat.type d) CV_MAT_DEPTH_MASK) = Some ext
    /\ files s !! (tile_path (dir_toplevel s0) layer (CacheElement.tile e) +:+ ext)
       = Some d.

(** What holds between the steps of a cycle that started in [s0]: an
    element that is not marked as written has the raster container it had,
    and every layer saved so far is durable. *)
Definition saves_are_durable (s0 s : state) : Prop :=
  dir_toplevel s = dir_toplevel s0
  /\ (forall k, element_coords k s = element_coords k s0)
  /\ (forall k, written k s = false -> payload k s = payload k s0)
  /\ exists evs,
       trace s = trace s0 ++ evs
       /\ forall k layer, EvSave k layer ∈ evs -> durable s0 s k layer.

(** In the loop of [write k]. *)
Definition saving (s0 : state) (k : key) (s : state) : Prop :=
  dir_toplevel s = dir_toplevel s0
  /\ (forall k, element_coords k s = element_coords k s0)
  /\ (forall k', k' ≠ k -> written k' s = false -> payload k' s = payload k' s0)
  /\ payload k s = payload k s0
  /\ exists evs,
       trace s = trace s0 ++ evs
       /\ forall k layer, EvSave k layer ∈ evs -> durable s0 s k layer.

(** ** The grid of a new zoom level *)

(** [tile_grid[t->x()][t->y()].reset(new CacheElement{...})] (line 188). *)
Definition grid_put (timestamp : Z) (layer_meta : list LayerMetaData.t)
    (tile_grid : gmap Z (gmap Z CacheElement.t)) (t : Tile.t)
    : gmap Z (gmap Z CacheElement.t) :=
  <[Tile.x t := <[Tile.y t := CacheElement.mk timestamp layer_meta t false]>
                  (default ∅ (tile_grid !! Tile.x t))]> tile_grid.

Definition grid_lookup (tile_grid : gmap Z (gmap Z CacheElement.t)) (x y : Z)
    : option CacheElement.t :=
  match tile_grid !! x with
  | None => None
  | Some column => column !! y
  end.

(** The tiles of a call of [add] have pairwise distinct coordinates. *)
Definition distinct_keys (tiles : list Tile.t) : Prop :=
  NoDup ((fun t => (Tile.x t, Tile.y t)) <$> tiles).

(** ** The two readings of [add] *)

(** [m'] does what [m] does wherever the behaviour of [m] is defined. *)
Definition refines {A} (m m' : M A) : Prop :=
  forall s, match m s with
            | Undefined _ => True
            | o => m' s = o
            end.

(** ** The steps of a cycle *)

(** The step of a cycle on the element under [k].  [process] looks the
    predicted ROI of a zoom level up with [at] (line 70) before it visits
    the elements of the zoom level (lines 75-94). *)
Definition cycle_step (pred : gmap Z Rect.t) (k : key) : M unit :=
  match pred !! k.1.1 with
  | Some roi => process_element roi k
  | None => throw (out_of_range "map::at")
  end.

(** A zoom level of the store that has no predicted ROI holds an
    element. *)
Definition no_empty_zoom_level (s : state) : Prop :=
  forall z grid, cache s !! z = Some grid ->
    is_Some (roi_prediction s !! z)
    \/ exists x column y e, grid !! x = Some column /\ column !! y = Some e.

(** The element under [k] with its tile locked, as [lock] leaves it. *)
Definition locked_state (k : key) (e : CacheElement.t) (s : state) : state :=
  set_cache (store_element k
               (CacheElement.set_tile (Tile.set_locked true (CacheElement.tile e)) e)
               (cache s)) s.

(** * Example states *)

(** A cache right after construction, writing below the directory [out]. *)
Definition fresh_cache : state :=
  mkState "out" false false ∅ ∅ ∅ ∅ ∅ 0 [].

Definition raster (type : Z) : Mat.t := Mat.mk type [1; 2; 3; 4].

(** A tile with one 8-bit layer [color]. *)
Definition color_tile (zoom x y : Z) : Tile.t :=
  Tile.mk zoom x y (Some [CvGridMap.mkLayer "color" (raster CV_8U) 1]) false.

Definition color_element (zoom x y : Z) (written : bool) : CacheElement.t :=
  CacheElement.mk 0 [LayerMetaData.mk "color" CV_8U 1] (color_tile zoom x y) written.

(** A cache that holds the elements [es] and predicts [roi] for zoom level 5. *)
Definition cache_with (es : list (key * CacheElement.t)) (roi : Rect.t) : state :=
  set_do_update true
    (set_roi_prediction {[ 5 := roi ]}
       (set_cache (foldr (fun ke c => store_element ke.1 ke.2 c) ∅ es) fresh_cache)).

(** An element that was written and evicted, and a cache that holds it,
    with its file on disk. *)
Definition evicted_element : CacheElement.t :=
  CacheElement.mk 0 [LayerMetaData.mk "color" CV_8U 1] (Tile.mk 5 0 0 (Some []) false) true.

Definition evicted_cache : state :=
  set_files {[ "out/color/5/0/0.png" := raster CV_8U ]}
    (cache_with [((5, 0, 0), evicted_element)] (Rect.mk 3 3 1 1)).

(** A cache whose one element has no layer at all: no metadata, and an
    empty raster container. *)
Definition layerless_cache : state :=
  cache_with [((5, 0, 0), CacheElement.mk 0 [] (Tile.mk 5 0 0 (Some []) false) false)]
             (Rect.mk 0 0 1 1).

(** A cache whose one element has just been added: its raster container
    holds a layer of pixel type [CV_32S], and nothing is on disk. *)
Definition unflushed_cache : state :=
  cache_with
    [((5, 0, 0), CacheElement.mk 0 [LayerMetaData.mk "labels" CV_32S 0]
                   (Tile.mk 5 0 0 (Some [CvGridMap.mkLayer "labels" (raster CV_32S) 0]) false) false)]
    (Rect.mk 0 0 1 1).

(** A cache with two unwritten elements outside the predicted ROI; the
    layer of the first one has the pixel type [CV_32S]. *)
Definition cache_with_unknown_type : state :=
  cache_with
    [((5, 0, 0), CacheElement.mk 0 [LayerMetaData.mk "labels" CV_32S 0]
                   (Tile.mk 5 0 0 (Some [CvGridMap.mkLayer "labels" (raster CV_32S) 0]) false) false);
     ((5, 1, 0), color_element 5 1 0 false)]
    (Rect.mk 7 7 1 1).

(** A cache with one unwritten element of two layers; the second layer
    has the pixel type [CV_32S]. *)
Definition cache_with_two_layers : state :=
  cache_with
    [((5, 0, 0),
      CacheElement.mk 0 [LayerMetaData.mk "color" CV_8U 1; LayerMetaData.mk "labels" CV_32S 0]
        (Tile.mk 5 0 0 (Some [CvGridMap.mkLayer "color" (raster CV_8U) 1;
                               CvGridMap.mkLayer "labels" (raster CV_32S) 0]) false)
        false)]
    (Rect.mk 0 0 1 1).

(** A cache that holds a tile on zoom level 5 and one on zoom level 6,
    with predictions and no previous request, as [add] leaves them. *)
Definition populated_cache : state :=
  set_roi_prediction {[ 5 := Rect.mk 0 0 2 2; 6 := Rect.mk 0 0 4 4 ]}
    (cache_with [((5, 1, 1), color_element 5 1 1 true);
                 ((6, 2, 2), color_element 6 2 2 false)] (Rect.mk 0 0 2 2)).

(** * Reasoning principles *)

Lemma lookup_store_element k k' e c :
  lookup_element k' (store_element k e c) =
  if decide (k = k') then Some e else lookup_element k' c.
Proof.
  destruct k as [[z x] y], k' as [[z' x'] y']. unfold lookup_element, store_element.
  destruct (decide (z = z')) as [->|Hz].
  - rewrite lookup_insert_eq.
    destruct (decide (x = x')) as [->|Hx].
    + rewrite lookup_insert_eq.
      destruct (decide (y = y')) as [->|Hy].
      * rewrite lookup_insert_eq. by rewrite decide_True.
      * rewrite lookup_insert_ne by done. rewrite decide_False by congruence.
        destruct (c !! z') as [g|]; simpl; [destruct (g !! x')|]; done.
    + rewrite lookup_insert_ne by done. rewrite decide_False by congruence.
      destruct (c !! z') as [g|]; simpl; done.
  - rewrite lookup_insert_ne by done. by rewrite decide_False by congruence.
Qed.

Lemma lookup_store_element_eq k e c : lookup_element k (store_element k e c) = Some e.
Proof. rewrite lookup_store_element. by rewrite decide_True. Qed.

Lemma lookup_store_element_ne k k' e c :
  k ≠ k' -> lookup_element k' (store_element k e c) = lookup_element k' c.
Proof. intros. rewrite lookup_store_element. by rewrite decide_False. Qed.

Section triple_rules.
Context {A B : Type}.
Implicit Types (P : state -> Prop) (E : state -> Prop).

Lemma triple_ret P (a : A) (Q : A -> state -> Prop) E :
  (forall s, P s -> Q a s) -> triple P (ret a) Q E.
Proof. intros H s Hs. simpl. auto. Qed.

Lemma triple_bind P (m : M A) (f : A -> M B) Q (R : B -> state -> Prop) E :
  triple P m Q E -> (forall a, triple (Q a) (f a) R E) -> triple P (bind m f) R E.
Proof.
  intros Hm Hf s Hs. unfold bind. specialize (Hm s Hs).
  destruct (m s) as [a s'| | |]; try done. by apply Hf.
Qed.

Lemma triple_conseq P P' (m : M A) (Q Q' : A -> state -> Prop) E E' :
  triple P' m Q' E' ->
  (forall s, P s -> P' s) -> (forall a s, Q' a s -> Q a s) -> (forall s, E' s -> E s) ->
  triple P m Q E.
Proof.
  intros Hm HP HQ HE s Hs. specialize (Hm s (HP s Hs)).
  destruct (m s); auto.
Qed.

Lemma triple_gets P (f : state -> A) (Q : A -> state -> Prop) E :
  (forall s, P s -> Q (f s) s) -> triple P (gets f) Q E.
Proof. intros H s Hs. simpl. auto. Qed.

Lemma triple_throw P e (Q : A -> state -> Prop) E :
  (forall s, P s -> E s) -> triple P (throw e) Q E.
Proof. intros H s Hs. simpl. auto. Qed.

Lemma triple_block P (Q : A -> state -> Prop) E :
  (forall s, P s -> E s) -> triple P block Q E.
Proof. intros H s Hs. simpl. auto. Qed.

Lemma triple_undefined P u (Q : A -> state -> Prop) E :
  triple P (undefined_behaviour u) Q E.
Proof. intros s Hs. exact I. Qed.

Lemma triple_deref_iterator P (it : option A) (Q : A -> state -> Prop) E :
  (forall v s, it = Some v -> P s -> Q v s) -> triple P (deref_iterator it) Q E.
Proof. intros H s Hs. destruct it; simpl; auto. Qed.
End triple_rules.

Lemma triple_modify P (f : state -> state) (Q : unit -> state -> Prop) E :
  (forall s, P s -> Q tt (f s)) -> triple P (modify f) Q E.
Proof. intros H s Hs. simpl. auto. Qed.

Lemma triple_element P k (Q : CacheElement.t -> state -> Prop) E :
  (forall e s, P s -> elem k s = Some e -> Q e s) -> triple P (element k) Q E.
Proof.
  intros H s Hs. unfold element. pose proof (fun e => H e s Hs) as H'.
  unfold elem in H'. destruct (lookup_element k (cache s)); auto.
Qed.

(** The loop rule: [Inv done] holds when the elements [done] have been
    run through. *)
Lemma triple_mfor {A} (Inv : list A -> state -> Prop) E (l : list A) (body : A -> M unit) :
  (forall done a rest, l = done ++ a :: rest ->
     triple (Inv done) (body a) (fun _ => Inv (done ++ [a])) E) ->
  triple (Inv []) (mfor l body) (fun _ => Inv l) E.
Proof.
  intros Hbody.
  assert (forall rest done, l = done ++ rest ->
            triple (Inv done) (mfor rest body) (fun _ => Inv l) E) as H.
  { induction rest as [|a rest IH]; intros done Hl.
    - rewrite app_nil_r in Hl. rewrite Hl. by apply triple_ret.
    - simpl. eapply triple_bind; [by eapply Hbody|].
      intros []. apply IH. by rewrite <- app_assoc. }
  by apply (H l []).
Qed.

(** The loop rule for an invariant that does not depend on the progress. *)
Lemma triple_mfor_inv {A} (I : state -> Prop) E (l : list A) (body : A -> M unit) :
  (forall a, a ∈ l -> triple I (body a) (fun _ => I) E) ->
  triple I (mfor l body) (fun _ => I) E.
Proof.
  intros Hbody. apply (triple_mfor (fun _ => I)).
  intros done a rest ->. apply Hbody. set_solver.
Qed.

(** From a triple to the final state of a run. *)
Lemma triple_final_state {A} P (m : M A) Q E s s' :
  triple P m Q E -> P s -> final_state (m s) = Some s' ->
  (exists a, Q a s') \/ E s'.
Proof.
  intros Hm Hs Hf. specialize (Hm s Hs).
  destruct (m s); simpl in Hf; simplify_eq; eauto.
Qed.

Arguments lookup_element : simpl never.
Arguments store_element : simpl never.

(** ** Running the steps of a call *)

Lemma bind_run {A B} (m : M A) (f : A -> M B) s a s' :
  m s = Return a s' -> bind m f s = f a s'.
Proof. intros H. unfold bind. by rewrite H. Qed.

Lemma bind_throw {A B} (m : M A) (f : A -> M B) s e s' :
  m s = Throw e s' -> bind m f s = Throw e s'.
Proof. intros H. unfold bind. by rewrite H. Qed.

Lemma bind_blocked {A B} (m : M A) (f : A -> M B) s s' :
  m s = Blocked s' -> bind m f s = Blocked s'.
Proof. intros H. unfold bind. by rewrite H. Qed.

Lemma bind_undefined {A B} (m : M A) (f : A -> M B) s u :
  m s = Undefined u -> bind m f s = Undefined u.
Proof. intros H. unfold bind. by rewrite H. Qed.

Lemma element_run k s e : elem k s = Some e -> element k s = Return e s.
Proof. unfold elem, element. by intros ->. Qed.

Lemma update_element_run k f s e :
  elem k s = Some e ->
  update_element k f s = Return tt (set_cache (store_element k (f e) (cache s)) s).
Proof. intros He. unfold update_element. by rewrite (bind_run _ _ _ _ _ (element_run _ _ _ He)). Qed.

Lemma tile_data_run k s e c :
  elem k s = Some e -> Tile.data (CacheElement.tile e) = Some c -> tile_data k s = Return c s.
Proof.
  intros He Hd. unfold tile_data. rewrite (bind_run _ _ _ _ _ (element_run _ _ _ He)).
  by rewrite Hd.
Qed.

Lemma isCached_run k s e c :
  elem k s = Some e -> Tile.data (CacheElement.tile e) = Some c ->
  isCached k s = Return (negb (CvGridMap.empty c)) s.
Proof.
  intros He Hd. unfold isCached. by rewrite (bind_run _ _ _ _ _ (tile_data_run _ _ _ _ He Hd)).
Qed.

Lemma lock_run k s e :
  elem k s = Some e -> Tile.locked (CacheElement.tile e) = false ->
  lock k s = Return tt
    (set_cache (store_element k
                  (CacheElement.set_tile (Tile.set_locked true (CacheElement.tile e)) e)
                  (cache s)) s).
Proof.
  intros He Hl. unfold lock. rewrite (bind_run _ _ _ _ _ (element_run _ _ _ He)).
  rewrite Hl. by rewrite (update_element_run _ _ _ _ He).
Qed.

Lemma lock_blocked k s e :
  elem k s = Some e -> Tile.locked (CacheElement.tile e) = true -> lock k s = Blocked s.
Proof.
  intros He Hl. unfold lock. rewrite (bind_run _ _ _ _ _ (element_run _ _ _ He)).
  by rewrite Hl.
Qed.

(** * The ROI predictor *)

Lemma updatePrediction_without_previous zoom_level roi_current s :
  roi_prev_request s !! zoom_level = None ->
  updatePrediction zoom_level roi_current s = Undefined end_iterator_dereference.
Proof. intros H. unfold updatePrediction, bind, gets. simpl. by rewrite H. Qed.

(** The branch of [updatePrediction] that extrapolates, for a cache object
    that holds a previous request and a prediction for the zoom level. *)
Lemma updatePrediction_with_previous zoom_level roi_current roi_prev roi_pred s :
  roi_prev_request s !! zoom_level = Some roi_prev ->
  roi_prediction s !! zoom_level = Some roi_pred ->
  updatePrediction zoom_level roi_current s =
  Return tt
    (set_roi_prev_request (<[zoom_level := roi_current]> (roi_prev_request s))
       (set_roi_prediction
          (<[zoom_level := extrapolated_roi roi_current roi_prev]> (roi_prediction s)) s)).
Proof.
  intros Hprev Hpred. unfold updatePrediction, bind, gets. simpl.
  rewrite Hprev. simpl. rewrite Hpred. reflexivity.
Qed.

(** Without overflow the extrapolation of a field is [2 * cur - old]. *)
Lemma extrapolation_in_range cur old :
  int_range (cur - old) -> int_range (cur + (cur - old)) ->
  int_add cur (int_sub cur old) = cur + (cur - old).
Proof.
  unfold int_range, int_add, int_sub, wrap. intros H1 H2.
  replace ((cur - old + 2 ^ 31) mod 2 ^ 32 - 2 ^ 31) with (cur - old)
    by (rewrite Z.mod_small; lia).
  rewrite Z.mod_small; lia.
Qed.

Example updatePrediction_extrapolates_by_five :
  let s := set_roi_prev_request {[ 5 := Rect.mk 0 0 10 10 ]}
             (set_roi_prediction {[ 5 := Rect.mk 0 0 10 10 ]} fresh_cache) in
  exists s', updatePrediction 5 (Rect.mk 5 0 10 10) s = Return tt s'
             /\ roi_prediction s' !! 5 = Some (Rect.mk 10 0 10 10)
             /\ roi_prev_request s' !! 5 = Some (Rect.mk 5 0 10 10).
Proof. eexists. split; [vm_compute; reflexivity|]. split; vm_compute; reflexivity. Qed.

Example updatePrediction_first_request :
  updatePrediction 5 (Rect.mk 5 0 10 10) fresh_cache = Undefined end_iterator_dereference.
Proof. reflexivity. Qed.

(** C4: what [updatePrediction] does.  Without a previous request for the
    zoom level it stores the current ROI as the prediction and then assigns
    through [it_roi_prev_request], which is [end()]: the run is undefined
    and no previous request is recorded.  With a previous request and a
    prediction it stores the extrapolated rectangle and the current ROI as
    the previous request. *)
Theorem updatePrediction_behaviour zoom_level roi_current s :
  updatePrediction zoom_level roi_current s =
  match roi_prev_request s !! zoom_level, roi_prediction s !! zoom_level with
  | Some roi_prev, Some _ =>
      Return tt
        (set_roi_prev_request (<[zoom_level := roi_current]> (roi_prev_request s))
           (set_roi_prediction
              (<[zoom_level := extrapolated_roi roi_current roi_prev]> (roi_prediction s)) s))
  | _, _ => Undefined end_iterator_dereference
  end.
Proof.
  destruct (roi_prev_request s !! zoom_level) as [roi_prev|] eqn:Hprev.
  - destruct (roi_prediction s !! zoom_level) as [roi_pred|] eqn:Hpred.
    + by eapply updatePrediction_with_previous.
    + unfold updatePrediction, bind, gets. simpl. rewrite Hprev. simpl. by rewrite Hpred.
  - by apply updatePrediction_without_previous.
Qed.

(** * Cache misses *)

(** C8: [get] of a coordinate that is absent from the cache (no such zoom
    level, no such column, or no such row) returns the null pointer, throws
    nothing and changes nothing. *)
Theorem get_miss_not_found tx ty zoom_level s :
  lookup_element (zoom_level, tx, ty) (cache s) = None ->
  get tx ty zoom_level s = Return None s.
Proof.
  unfold lookup_element, get, bind, gets, ret. intros H.
  destruct (cache s !! zoom_level) as [grid|]; [|done].
  destruct (grid !! tx) as [column|]; [|done].
  by rewrite H.
Qed.

Lemma get_miss_not_found_witness :
  lookup_element (7, 99, 99) (cache fresh_cache) = None
  /\ get 99 99 7 fresh_cache = Return None fresh_cache.
Proof. split; [reflexivity | apply get_miss_not_found; reflexivity]. Defined.

(** * Invariants of the persistence protocol *)

Section stable_rules.
Context (I : state -> Prop).

Lemma stable_ret {A} (a : A) : stable I (ret a).
Proof. by apply triple_ret. Qed.

Lemma stable_bind {A B} (m : M A) (f : A -> M B) :
  stable I m -> (forall a, stable I (f a)) -> stable I (bind m f).
Proof. intros Hm Hf. eapply triple_bind; [exact Hm|]. intros a. apply Hf. Qed.

Lemma stable_gets {A} (f : state -> A) : stable I (gets f).
Proof. by apply triple_gets. Qed.

Lemma stable_throw {A} e : stable I (throw (A:=A) e).
Proof. by apply triple_throw. Qed.

Lemma stable_block {A} : stable I (block (A:=A)).
Proof. by apply triple_block. Qed.

Lemma stable_undefined {A} u : stable I (undefined_behaviour (A:=A) u).
Proof. apply triple_undefined. Qed.

Lemma stable_deref_iterator {A} (it : option A) : stable I (deref_iterator it).
Proof. by apply triple_deref_iterator. Qed.

Lemma stable_modify f : (forall s, I s -> I (f s)) -> stable I (modify f).
Proof. intros H. by apply triple_modify. Qed.

Lemma stable_element k : stable I (element k).
Proof. by apply triple_element. Qed.

Lemma stable_mfor {A} (l : list A) (body : A -> M unit) :
  (forall a, a ∈ l -> stable I (body a)) -> stable I (mfor l body).
Proof. intros H. by apply triple_mfor_inv. Qed.

Lemma stable_mfold {A B} (body : B -> A -> M B) (l : list A) (b : B) :
  (forall b a, stable I (body b a)) -> stable I (mfold body l b).
Proof.
  intros H. revert b. induction l as [|a l IH]; intros b; simpl.
  - apply stable_ret.
  - apply stable_bind; [apply H|]. intros b'. apply IH.
Qed.

Lemma stable_final_state {A} (m : M A) s s' :
  stable I m -> I s -> final_state (m s) = Some s' -> I s'.
Proof.
  intros Hm Hs Hf. destruct (triple_final_state _ _ _ _ _ _ Hm Hs Hf) as [[_ ?]|?]; done.
Qed.
End stable_rules.

(** Splits a program along its binds, conditionals and matches, down to
    the steps that change the state. *)
Ltac stable_step :=
  lazymatch goal with
  | |- stable _ (ret _) => apply stable_ret
  | |- stable _ (gets _) => apply stable_gets
  | |- stable _ (throw _) => apply stable_throw
  | |- stable _ block => apply stable_block
  | |- stable _ (undefined_behaviour _) => apply stable_undefined
  | |- stable _ (deref_iterator _) => apply stable_deref_iterator
  | |- stable _ (element _) => apply stable_element
  | |- stable _ (bind _ _) => apply stable_bind; [|intros ?]
  | |- stable _ (mfor _ _) => apply stable_mfor; intros ? ?
  | |- stable _ (match ?x with _ => _ end) => destruct x
  | |- stable _ (let _ := _ in _) => cbv zeta
  end.
Ltac stable_steps := repeat stable_step.

Lemma payload_worker_update e e' : payload_update e e' -> worker_update e e'.
Proof.
  intros (d & l & ->). exists d, l, false. destruct e as [ts lm tl w]. simpl.
  unfold CacheElement.set_was_written, CacheElement.set_tile. simpl. by rewrite orb_false_r.
Qed.

Lemma stable_update_element I k F f :
  survives_update k F I -> (forall e, F e (f e)) -> stable I (update_element k f).
Proof.
  intros HI Hf. unfold update_element.
  eapply triple_bind.
  { apply (triple_element _ _ (fun e s => I s /\ elem k s = Some e)). auto. }
  intros e. apply triple_modify. intros s [Hs He]. eapply HI; eauto.
Qed.

Section payload_steps.
Context (I : state -> Prop) (k : key).
Context (HI : survives_update k payload_update I).

Lemma stable_lock : stable I (lock k).
Proof.
  unfold lock. stable_steps.
  eapply stable_update_element; [exact HI|]. intros e. by exists (Tile.data (CacheElement.tile e)), true;
    destruct e as [? ? [] ?].
Qed.

Lemma stable_unlock : stable I (unlock k).
Proof.
  unfold unlock. eapply stable_update_element; [exact HI|].
  intros e. by exists (Tile.data (CacheElement.tile e)), false; destruct e as [? ? [] ?].
Qed.

Lemma stable_set_tile_data d : stable I (set_tile_data k d).
Proof.
  unfold set_tile_data. eapply stable_update_element; [exact HI|].
  intros e. by exists d, (Tile.locked (CacheElement.tile e)); destruct e as [? ? [] ?].
Qed.

Lemma stable_tile_data : stable I (tile_data k).
Proof. unfold tile_data. stable_steps. Qed.

Lemma stable_isCached : stable I (isCached k).
Proof. unfold isCached. apply stable_bind; [apply stable_tile_data|]. intros; apply stable_ret. Qed.

Lemma stable_load_layer meta : stable I (load_layer k meta).
Proof.
  unfold load_layer. stable_steps.
  - apply stable_tile_data.
  - apply stable_set_tile_data.
Qed.

Lemma stable_load : stable I (load k).
Proof. unfold load. stable_steps. apply stable_load_layer. Qed.
End payload_steps.

(** * The frame of [get] *)

Lemma payload_update_refl e : payload_update e e.
Proof.
  exists (Tile.data (CacheElement.tile e)), (Tile.locked (CacheElement.tile e)).
  by destruct e as [? ? [] ?].
Qed.

Lemma payload_update_trans e1 e2 e3 :
  payload_update e1 e2 -> payload_update e2 e3 -> payload_update e1 e3.
Proof. intros (d & l & ->) (d' & l' & ->). by exists d', l'. Qed.

Lemma payload_frame_refl k s : payload_frame k s s.
Proof.
  split; [by repeat split|]. split; [done|].
  destruct (elem k s) eqn:E; constructor. apply payload_update_refl.
Qed.

Lemma elem_store k k' e s :
  elem k' (set_cache (store_element k e (cache s)) s) =
  if decide (k = k') then Some e else elem k' s.
Proof. unfold elem. cbn [cache set_cache]. apply lookup_store_element. Qed.

Lemma elem_store_eq k e s : elem k (set_cache (store_element k e (cache s)) s) = Some e.
Proof. rewrite elem_store. by rewrite decide_True. Qed.

Lemma elem_store_ne k k' e s :
  k ≠ k' -> elem k' (set_cache (store_element k e (cache s)) s) = elem k' s.
Proof. intros. rewrite elem_store. by rewrite decide_False. Qed.

Lemma payload_frame_survives k s0 :
  survives_update k payload_update (payload_frame k s0).
Proof.
  intros s e e' (Hout & Hother & Hk) He Hupd. split; [exact Hout|]. split.
  - intros k' Hne. rewrite elem_store_ne by done. by apply Hother.
  - rewrite elem_store_eq. rewrite He in Hk. inversion Hk as [e0 ? H0 Heq0|]; subst. constructor.
    by eapply payload_update_trans.
Qed.

Lemma stable_get I tx ty zoom_level :
  survives_update (zoom_level, tx, ty) payload_update I -> stable I (get tx ty zoom_level).
Proof.
  intros HI. unfold get. stable_steps.
  - by apply stable_lock.
  - by apply stable_isCached.
  - by apply stable_load.
Qed.

(** [get] of a key that is present runs the part of [get] below the
    three lookups. *)
Lemma get_present_eq tx ty zoom_level s e :
  elem (zoom_level, tx, ty) s = Some e ->
  get tx ty zoom_level s =
  (let k := (zoom_level, tx, ty) in
   lock k ;;;
   cached <- isCached k ;;
   (if negb cached then load k else ret tt) ;;;
   e <- element k ;;
   ret (Some (CacheElement.tile e))) s.
Proof.
  intros He. unfold elem, lookup_element in He. unfold get.
  unfold bind at 1. unfold gets at 1.
  destruct (cache s !! zoom_level) as [grid|]; [|done].
  destruct (grid !! tx) as [column|]; [|done].
  by rewrite He.
Qed.

(** [get] on an element whose raster container holds a layer: the tile is
    locked and handed out as it is. *)
Lemma get_cached tx ty zoom_level s e c :
  elem (zoom_level, tx, ty) s = Some e ->
  Tile.locked (CacheElement.tile e) = false ->
  Tile.data (CacheElement.tile e) = Some c ->
  CvGridMap.empty c = false ->
  get tx ty zoom_level s =
  Return (Some (Tile.set_locked true (CacheElement.tile e)))
         (set_cache (store_element (zoom_level, tx, ty)
                       (CacheElement.set_tile (Tile.set_locked true (CacheElement.tile e)) e)
                       (cache s)) s).
Proof.
  intros He Hl Hd Hc. rewrite (get_present_eq _ _ _ _ _ He). cbv zeta.
  rewrite (bind_run _ _ _ _ _ (lock_run _ _ _ He Hl)).
  erewrite bind_run; [|eapply isCached_run; [apply elem_store_eq|exact Hd]].
  rewrite Hc. cbn [negb]. unfold ret at 1. unfold bind at 1.
  erewrite bind_run; [|apply element_run, elem_store_eq]. done.
Qed.

Lemma get_locked tx ty zoom_level s e :
  elem (zoom_level, tx, ty) s = Some e ->
  Tile.locked (CacheElement.tile e) = true ->
  get tx ty zoom_level s = Blocked s.
Proof.
  intros He Hl. rewrite (get_present_eq _ _ _ _ _ He). cbv zeta.
  by rewrite (bind_blocked _ _ _ _ (lock_blocked _ _ _ He Hl)).
Qed.

(** * [get] of a key that is present *)

Lemma CvGridMap_add_not_empty c n d i : CvGridMap.empty (CvGridMap.add c n d i) = false.
Proof. destruct c as [|l c]; simpl; [done|]. by case_bool_decide. Qed.

Lemma CvGridMap_get_add c n d i : CvGridMap.get (CvGridMap.add c n d i) n = Some d.
Proof.
  unfold CvGridMap.get, CvGridMap.getLayer. induction c as [|l c IH]; simpl.
  - by rewrite bool_decide_true.
  - case_bool_decide as Hl; simpl.
    + by rewrite bool_decide_true.
    + by rewrite bool_decide_false.
Qed.

Lemma CvGridMap_get_add_is_Some c n d i n' :
  is_Some (CvGridMap.get c n') -> is_Some (CvGridMap.get (CvGridMap.add c n d i) n').
Proof.
  unfold CvGridMap.get, CvGridMap.getLayer. induction c as [|l c IH]; simpl.
  - by intros [? ?].
  - destruct (decide (CvGridMap.name l = n)) as [Hn|Hn];
      [rewrite (bool_decide_true (_ = n)) by done
      |rewrite (bool_decide_false (_ = n)) by done]; simpl;
      repeat case_bool_decide; simpl; subst; eauto; congruence.
Qed.

Lemma load_layer_loadable k meta s e c :
  elem k s = Some e -> Tile.data (CacheElement.tile e) = Some c ->
  loadable s (CacheElement.tile e) meta = true ->
  exists d,
    backing_file s (CacheElement.tile e) meta = Some d
    /\ load_layer k meta s =
       Return tt (set_cache (store_element k
                    (CacheElement.set_tile
                       (Tile.set_data
                          (Some (CvGridMap.add c (LayerMetaData.name meta) d
                                   (LayerMetaData.interpolation_flag meta)))
                          (CacheElement.tile e)) e) (cache s)) s).
Proof.
  intros He Hd Hl. apply bool_decide_eq_true in Hl as [d Hfile]. exists d. split; [done|].
  unfold backing_file in Hfile. unfold load_layer.
  rewrite (bind_run _ _ _ _ _ (element_run _ _ _ He)).
  unfold gets at 1. unfold bind at 1.
  destruct (extension _) as [ext|]; [|done].
  unfold gets at 1. unfold bind at 1. rewrite Hfile.
  rewrite (bind_run _ _ _ _ _ (tile_data_run _ _ _ _ He Hd)).
  unfold set_tile_data. by rewrite (update_element_run _ _ _ _ He).
Qed.

Lemma load_layer_not_loadable k meta s e :
  elem k s = Some e ->
  loadable s (CacheElement.tile e) meta = false ->
  exists what,
    load_error s (CacheElement.tile e) meta = Some what
    /\ load_layer k meta s = Throw (invalid_argument what) s.
Proof.
  intros He Hl. apply bool_decide_eq_false in Hl.
  unfold backing_file in Hl. unfold load_layer, load_error.
  rewrite (bind_run _ _ _ _ _ (element_run _ _ _ He)).
  unfold gets at 1. unfold bind at 1.
  destruct (extension _) as [ext|]; [|by eexists].
  unfold gets at 1. unfold bind at 1.
  destruct (files s !! _) eqn:Hfile; [|by eexists].
  destruct Hl. by eexists.
Qed.

Lemma load_layers_loadable k metas : forall s e c,
  elem k s = Some e -> Tile.data (CacheElement.tile e) = Some c ->
  forallb (loadable s (CacheElement.tile e)) metas = true ->
  exists s' c',
    mfor metas (load_layer k) s = Return tt s'
    /\ elem k s' = Some (CacheElement.set_tile (Tile.set_data (Some c') (CacheElement.tile e)) e)
    /\ (forall meta, meta ∈ metas -> is_Some (CvGridMap.get c' (LayerMetaData.name meta)))
    /\ (forall n, is_Some (CvGridMap.get c n) -> is_Some (CvGridMap.get c' n))
    /\ (metas ≠ [] \/ CvGridMap.empty c = false -> CvGridMap.empty c' = false).
Proof.
  induction metas as [|meta metas IH]; intros s e c He Hd Hall.
  - exists s, c. split; [done|]. split.
    { rewrite He. f_equal. destruct e as [? ? [] ?]. simpl in *. by subst. }
    split; [by intros ? ?%elem_of_nil|]. split; [done|]. by intros [|].
  - simpl in Hall. apply andb_true_iff in Hall as [Hl Hall].
    destruct (load_layer_loadable _ _ _ _ _ He Hd Hl) as (d & _ & Hrun).
    set (c1 := CvGridMap.add c (LayerMetaData.name meta) d (LayerMetaData.interpolation_flag meta)) in *.
    set (e1 := CacheElement.set_tile (Tile.set_data (Some c1) (CacheElement.tile e)) e) in *.
    set (s1 := set_cache (store_element k e1 (cache s)) s) in *.
    destruct (IH s1 e1 c1) as (s' & c' & Hrun' & He' & Hin & Hkeep & Hne).
    { apply elem_store_eq. } { done. } { exact Hall. }
    exists s', c'. split; [|split; [|split; [|split]]].
    + simpl. by rewrite (bind_run _ _ _ _ _ Hrun).
    + rewrite He'. by destruct e as [? ? [] ?].
    + intros m [->|Hm]%elem_of_cons; [|by apply Hin].
      apply Hkeep. unfold c1. rewrite CvGridMap_get_add. by eauto.
    + intros n Hn. apply Hkeep. by apply CvGridMap_get_add_is_Some.
    + intros _. apply Hne. right. apply CvGridMap_add_not_empty.
Qed.

Lemma load_layers_not_loadable k metas : forall s e c,
  elem k s = Some e -> Tile.data (CacheElement.tile e) = Some c ->
  forallb (loadable s (CacheElement.tile e)) metas = false ->
  exists before meta after what s',
    metas = before ++ meta :: after
    /\ forallb (loadable s (CacheElement.tile e)) before = true
    /\ load_error s (CacheElement.tile e) meta = Some what
    /\ mfor metas (load_layer k) s = Throw (invalid_argument what) s'.
Proof.
  induction metas as [|meta metas IH]; intros s e c He Hd Hall; [done|].
  simpl in Hall. destruct (loadable s (CacheElement.tile e) meta) eqn:Hl.
  - destruct (load_layer_loadable _ _ _ _ _ He Hd Hl) as (d & _ & Hrun).
    simpl in Hall.
    set (c1 := CvGridMap.add c (LayerMetaData.name meta) d (LayerMetaData.interpolation_flag meta)) in *.
    set (e1 := CacheElement.set_tile (Tile.set_data (Some c1) (CacheElement.tile e)) e) in *.
    set (s1 := set_cache (store_element k e1 (cache s)) s) in *.
    destruct (IH s1 e1 c1) as (before & meta' & after & what & s' & -> & Hbefore & Herr & Hrun').
    { apply elem_store_eq. } { done. } { exact Hall. }
    exists (meta :: before), meta', after, what, s'. split; [done|].
    split; [simpl; rewrite Hl; exact Hbefore|]. split; [exact Herr|].
    simpl. rewrite (bind_run _ _ _ _ _ Hrun). exact Hrun'.
  - destruct (load_layer_not_loadable _ _ _ _ He Hl) as (what & Herr & Hrun).
    exists [], meta, metas, what, s. split; [done|]. split; [done|]. split; [done|].
    simpl. by rewrite (bind_throw _ _ _ _ _ Hrun).
Qed.

Lemma loadable_lock k s e meta :
  loadable (set_cache (store_element k
              (CacheElement.set_tile (Tile.set_locked true (CacheElement.tile e)) e) (cache s)) s)
           (Tile.set_locked true (CacheElement.tile e)) meta
  = loadable s (CacheElement.tile e) meta.
Proof. by destruct e as [? ? [] ?]. Qed.

Lemma forallb_eq {A} (f g : A -> bool) l :
  (forall a, f a = g a) -> forallb f l = forallb g l.
Proof. intros H. induction l as [|a l IH]; simpl; [done|]. by rewrite H, IH. Qed.

(** The rasters that a run of [load] puts into the container. *)
Lemma CvGridMap_get_add_ne c n d i n' :
  n ≠ n' -> CvGridMap.get (CvGridMap.add c n d i) n' = CvGridMap.get c n'.
Proof.
  intros Hne. unfold CvGridMap.get, CvGridMap.getLayer.
  induction c as [|l c IH]; simpl.
  - by rewrite bool_decide_false.
  - destruct (decide (CvGridMap.name l = n)) as [Hn|Hn].
    + rewrite (bool_decide_true (_ = n)) by done. simpl.
      rewrite (bool_decide_false (n = n')) by done.
      rewrite (bool_decide_false (CvGridMap.name l = n')) by congruence. done.
    + rewrite (bool_decide_false (_ = n)) by done. simpl.
      destruct (bool_decide (CvGridMap.name l = n')); [done|]. apply IH.
Qed.

Lemma load_layers_content k metas : forall s e c,
  elem k s = Some e ->
  Tile.data (CacheElement.tile e) = Some c ->
  (forall meta, meta ∈ metas -> is_Some (backing_file s (CacheElement.tile e) meta)) ->
  exists s' c',
    mfor metas (load_layer k) s = Return tt s'
    /\ elem k s' = Some (CacheElement.set_tile
                           (Tile.set_data (Some c') (CacheElement.tile e)) e)
    /\ (forall k', k' ≠ k -> elem k' s' = elem k' s)
    /\ files s' = files s
    /\ trace s' = trace s
    /\ (forall n d,
          (exists meta, meta ∈ metas /\ LayerMetaData.name meta = n) ->
          (forall meta, meta ∈ metas -> LayerMetaData.name meta = n ->
                        backing_file s (CacheElement.tile e) meta = Some d) ->
          CvGridMap.get c' n = Some d)
    /\ (forall n, (forall meta, meta ∈ metas -> LayerMetaData.name meta ≠ n) ->
                  CvGridMap.get c' n = CvGridMap.get c n).
Proof.
  induction metas as [|meta metas IH]; intros s e c He Hd Hok.
  - exists s, c. split; [done|]. split.
    { rewrite He. f_equal. destruct e as [? ? [] ?]. simpl in *. by subst. }
    split; [done|]. split; [done|]. split; [done|].
    split; [|done]. by intros n d (m & ?%elem_of_nil & _).
  - assert (loadable s (CacheElement.tile e) meta = true) as Hl.
    { apply bool_decide_eq_true. apply Hok. by left. }
    destruct (load_layer_loadable _ _ _ _ _ He Hd Hl) as (d0 & Hfile & Hrun).
    set (c1 := CvGridMap.add c (LayerMetaData.name meta) d0
                 (LayerMetaData.interpolation_flag meta)) in *.
    set (e1 := CacheElement.set_tile (Tile.set_data (Some c1) (CacheElement.tile e)) e) in *.
    set (s1 := set_cache (store_element k e1 (cache s)) s) in *.
    destruct (IH s1 e1 c1) as (s' & c' & Hloop & He' & Hother & Hfiles & Htrace & Hin & Hout).
    { apply elem_store_eq. } { done. }
    { intros m Hm. apply (Hok m). by right. }
    exists s', c'. split; [simpl; by rewrite (bind_run _ _ _ _ _ Hrun)|].
    split; [rewrite He'; by destruct e as [? ? [] ?]|].
    split; [intros k' Hne; rewrite Hother by done; by apply elem_store_ne|].
    split; [done|]. split; [done|]. split.
    + intros n d (m & Hm & Hname) Hall.
      destruct (decide (Exists (fun m' => LayerMetaData.name m' = n) metas)) as [Hex|Hnone].
      * apply Exists_exists in Hex as (m' & Hm' & Hname').
        apply Hin; [by exists m'|]. intros m2 Hm2 Hname2. apply (Hall m2); [by right|done].
      * assert (LayerMetaData.name meta = n) as Hmeta.
        { apply elem_of_cons in Hm as [->|Hm]; [done|].
          destruct Hnone. apply Exists_exists. by exists m. }
        rewrite Hout.
        -- unfold c1. rewrite Hmeta, CvGridMap_get_add.
           rewrite <- (Hall meta); [by rewrite Hfile|by left|done].
        -- intros m' Hm' Hname'. apply Hnone. apply Exists_exists. by exists m'.
    + intros n Hn. rewrite Hout.
      * unfold c1. apply CvGridMap_get_add_ne. apply Hn. by left.
      * intros m' Hm'. apply Hn. by right.
Qed.

(** C5 (amended): [get] of a key that is present, whose tile is not locked
    and has a raster container.  If the container holds a layer, or if the
    pixel type of every layer of the metadata is known and its file exists,
    [get] returns the tile, locked; a container that was empty then holds
    every layer of the metadata, with the raster that is the content of the
    layer's file, and no other layer, and the tile is not empty as soon as
    the metadata lists a layer.  Otherwise, and only then, [get] throws
    [std::invalid_argument], with the message of the first layer that
    cannot be loaded: unknown pixel type, or missing file. *)
Theorem get_present tx ty zoom_level s e c :
  elem (zoom_level, tx, ty) s = Some e ->
  Tile.locked (CacheElement.tile e) = false ->
  Tile.data (CacheElement.tile e) = Some c ->
  (CvGridMap.empty c = false
   \/ forallb (loadable s (CacheElement.tile e)) (CacheElement.layer_meta e) = true ->
   exists c' s',
     let t' := Tile.set_data (Some c') (Tile.set_locked true (CacheElement.tile e)) in
     get tx ty zoom_level s = Return (Some t') s'
     /\ elem (zoom_level, tx, ty) s' = Some (CacheElement.set_tile t' e)
     /\ (CvGridMap.empty c = false -> c' = c)
     /\ (CvGridMap.empty c = true ->
           forall meta, meta ∈ CacheElement.layer_meta e ->
                        is_Some (CvGridMap.get c' (LayerMetaData.name meta)))
     /\ (CvGridMap.empty c = false \/ CacheElement.layer_meta e ≠ [] ->
           CvGridMap.empty c' = false)
     /\ (CvGridMap.empty c = true ->
           forall meta, meta ∈ CacheElement.layer_meta e ->
             (forall meta', meta' ∈ CacheElement.layer_meta e ->
                LayerMetaData.name meta' = LayerMetaData.name meta ->
                backing_file s (CacheElement.tile e) meta'
                = backing_file s (CacheElement.tile e) meta) ->
             CvGridMap.get c' (LayerMetaData.name meta)
             = backing_file s (CacheElement.tile e) meta)
     /\ (CvGridMap.empty c = true ->
           forall n, (forall meta, meta ∈ CacheElement.layer_meta e ->
                                   LayerMetaData.name meta ≠ n) ->
                     CvGridMap.get c' n = None))
  /\ (CvGridMap.empty c = true
      /\ forallb (loadable s (CacheElement.tile e)) (CacheElement.layer_meta e) = false ->
      exists before meta after what s',
        CacheElement.layer_meta e = before ++ meta :: after
        /\ forallb (loadable s (CacheElement.tile e)) before = true
        /\ load_error s (CacheElement.tile e) meta = Some what
        /\ get tx ty zoom_level s = Throw (invalid_argument what) s').
Proof.
  intros He Hl Hd.
  set (k := (zoom_level, tx, ty)) in *.
  set (e1 := CacheElement.set_tile (Tile.set_locked true (CacheElement.tile e)) e).
  set (s1 := set_cache (store_element k e1 (cache s)) s).
  assert (elem k s1 = Some e1) as He1 by apply elem_store_eq.
  assert (Tile.data (CacheElement.tile e1) = Some c) as Hd1 by done.
  assert (CvGridMap.empty c = true ->
            get tx ty zoom_level s =
            (mfor (CacheElement.layer_meta e) (load_layer k) ;;;
             e <- element k ;; ret (Some (CacheElement.tile e))) s1) as Hempty.
  { intros Hc. rewrite (get_present_eq _ _ _ _ _ He). cbv zeta. fold k.
    rewrite (bind_run _ _ _ _ _ (lock_run _ _ _ He Hl)). fold e1 s1.
    rewrite (bind_run _ _ _ _ _ (isCached_run _ _ _ _ He1 Hd1)).
    rewrite Hc. cbn [negb]. unfold load. unfold bind at 1 2.
    by rewrite (element_run _ _ _ He1). }
  assert (forallb (loadable s1 (CacheElement.tile e1)) (CacheElement.layer_meta e)
          = forallb (loadable s (CacheElement.tile e)) (CacheElement.layer_meta e)) as Hsame.
  { apply forallb_eq. intros meta. apply loadable_lock. }
  split.
  - intros Hok. destruct (CvGridMap.empty c) eqn:Hc.
    + destruct Hok as [|Hall]; [done|]. rewrite <- Hsame in Hall.
      destruct (load_layers_loadable k _ _ _ _ He1 Hd1 Hall)
        as (s' & c' & Hrun & He' & Hin & _ & Hne).
      assert (forall meta, backing_file s1 (CacheElement.tile e1) meta
                           = backing_file s (CacheElement.tile e) meta) as Hfile.
      { intros meta. by destruct e as [? ? [] ?]. }
      assert (forall meta, meta ∈ CacheElement.layer_meta e ->
                is_Some (backing_file s1 (CacheElement.tile e1) meta)) as Hfiles.
      { intros meta Hmeta. pose proof (proj1 (forallb_forall _ _) Hall meta) as Hmeta'.
        apply (bool_decide_eq_true_1 _), Hmeta'. by apply list_elem_of_In. }
      destruct (load_layers_content k (CacheElement.layer_meta e) _ _ _ He1 Hd1 Hfiles)
        as (s2 & c2 & Hrun2 & He2 & _ & _ & _ & Hcontent & Hnone).
      rewrite Hrun in Hrun2. injection Hrun2 as <-.
      rewrite He' in He2. injection He2 as <-.
      exists c', s'. cbv zeta. rewrite (Hempty eq_refl).
      rewrite (bind_run _ _ _ _ _ Hrun). rewrite (bind_run _ _ _ _ _ (element_run _ _ _ He')).
      split; [by destruct e as [? ? [] ?]|]. split; [by rewrite He'; destruct e as [? ? [] ?]|].
      split; [done|]. split; [by intros _|].
      split; [intros [|Hmeta]; [done|]; apply Hne; by left|].
      split.
      * intros _ meta Hmeta Hagree.
        assert (is_Some (backing_file s (CacheElement.tile e) meta)) as [d Hd0].
        { rewrite <- Hfile. by apply Hfiles. }
        rewrite Hd0. apply Hcontent; [by exists meta|].
        intros meta' Hmeta' Hname. rewrite Hfile, <- Hd0. by apply Hagree.
      * intros _ n Hn. rewrite (Hnone n Hn). by destruct c.
    + exists c, (set_cache (store_element k e1 (cache s)) s). cbv zeta.
      rewrite (get_cached _ _ _ _ _ _ He Hl Hd Hc). fold k e1.
      split; [by destruct e as [? ? [] ?]; simpl in *; subst|].
      split; [rewrite elem_store_eq; by destruct e as [? ? [] ?]; simpl in *; subst|].
      by repeat split.
  - intros [Hc Hall]. rewrite <- Hsame in Hall.
    destruct (load_layers_not_loadable k _ _ _ _ He1 Hd1 Hall)
      as (before & meta & after & what & s' & Hsplit & Hbefore & Herr & Hrun).
    exists before, meta, after, what, s'. split; [exact Hsplit|].
    split; [exact Hbefore|]. split; [exact Herr|].
    rewrite (Hempty Hc). by rewrite (bind_throw _ _ _ _ _ Hrun).
Qed.

Lemma get_present_witness :
  elem (5, 0, 0) evicted_cache = Some evicted_element
  /\ files evicted_cache !! "out/color/5/0/0.png" = Some (raster CV_8U)
  /\ (exists c' s',
        get 0 0 5 evicted_cache = Return (Some (Tile.mk 5 0 0 (Some c') true)) s'
        /\ CvGridMap.empty c' = false
        /\ CvGridMap.get c' "color" = Some (raster CV_8U))
  /\ (exists s', get 0 0 5 (set_files ∅ evicted_cache)
                  = Throw (invalid_argument "Error loading tile.") s').
Proof.
  split; [reflexivity|]. split; [reflexivity|]. split.
  - assert (forallb (loadable evicted_cache (CacheElement.tile evicted_element))
                    (CacheElement.layer_meta evicted_element) = true) as Hpresent
      by (vm_compute; reflexivity).
    destruct (proj1 (get_present 0 0 5 evicted_cache evicted_element []
                       eq_refl eq_refl eq_refl) (or_intror Hpresent))
      as (c' & s' & Hget & _ & _ & _ & Hne & Hcontent & _).
    exists c', s'. split; [exact Hget|]. split; [apply Hne; by right|].
    apply (Hcontent eq_refl (LayerMetaData.mk "color" CV_8U 1));
      [by apply list_elem_of_singleton|].
    by intros meta' ->%list_elem_of_singleton.
  - assert (forallb (loadable (set_files ∅ evicted_cache) (CacheElement.tile evicted_element))
                    (CacheElement.layer_meta evicted_element) = false) as Hmissing
      by (vm_compute; reflexivity).
    destruct (proj2 (get_present 0 0 5 (set_files ∅ evicted_cache) evicted_element []
                       eq_refl eq_refl eq_refl) (conj eq_refl Hmissing))
      as (before & meta & after & what & s' & Hsplit & _ & Herr & Hget).
    destruct before as [|meta' before]; simpl in Hsplit.
    + injection Hsplit as <- <-. injection Herr as <-. by exists s'.
    + injection Hsplit as _ Hsplit. by destruct before.
Defined.

(** C5, as stated, fails.  [get] looks at the disk and at the pixel types
    only when the raster container is empty: for an element that is in
    memory it returns although the pixel type of the layer is unknown and no
    file exists.  And for an element that lists no layer, [get] returns the
    tile with an empty raster container. *)
Lemma get_does_not_always_check :
  (extension (Z.land CV_32S CV_MAT_DEPTH_MASK) = None
   /\ files unflushed_cache = ∅
   /\ exists t s', get 0 0 5 unflushed_cache = Return (Some t) s')
  /\ (exists t s', get 0 0 5 layerless_cache = Return (Some t) s'
                   /\ Tile.locked t = true
                   /\ Tile.data t = Some []
                   /\ CvGridMap.empty [] = true).
Proof.
  split.
  - split; [reflexivity|]. split; [reflexivity|].
    do 2 eexists. vm_compute. reflexivity.
  - do 2 eexists. split; [vm_compute; reflexivity|]. by repeat split.
Qed.

(** * The steps of the worker on one element *)

(** The steps on the element under [k], for an invariant that the
    write and the removal of one layer keep. *)
Section element_steps.
Context (I : state -> Prop) (k : key).
Context (Hpayload : survives_update k payload_update I).
Context (Hwrite : forall meta, stable I (write_layer k meta)).
Context (Hremove : forall layer, stable I (remove_layer k layer)).

Lemma stable_write_from_layers : stable I (write k).
Proof. unfold write. stable_steps. apply Hwrite. Qed.

Lemma stable_flush_from_layers : stable I (flush k).
Proof.
  unfold flush. stable_steps.
  - apply stable_write_from_layers.
  - apply Hremove.
Qed.

Lemma stable_process_element_from_layers roi : stable I (process_element roi k).
Proof.
  unfold process_element. stable_steps.
  - by apply stable_lock.
  - apply stable_write_from_layers.
  - apply stable_isCached.
  - apply stable_flush_from_layers.
  - by apply stable_unlock.
Qed.
End element_steps.

Lemma stable_process_from_elements I :
  (forall roi k, stable I (process_element roi k)) ->
  (forall s, I s -> I (set_do_update false s)) ->
  stable I process.
Proof.
  intros Helement Hdo. unfold process, process_zoom, process_column. stable_steps.
  - by apply stable_modify.
  - apply Helement.
Qed.

(** The same steps, for an invariant that survives every update that the
    worker makes to the element, and does not look at the disk or at the
    trace. *)
Section worker_steps.
Context (I : state -> Prop) (k : key).
Context (HI : survives_update k worker_update I) (Hio : survives_io I).

Lemma survives_payload_update : survives_update k payload_update I.
Proof. intros s e e' Hs He Hupd. eapply HI; eauto using payload_worker_update. Qed.

Lemma stable_saveImage data filename : stable I (saveImage data filename).
Proof. apply stable_modify. intros s Hs. by apply Hio. Qed.

Lemma stable_emit ev : stable I (emit ev).
Proof. apply stable_modify. intros s Hs. by apply Hio. Qed.

Lemma stable_write_layer meta : stable I (write_layer k meta).
Proof.
  unfold write_layer. stable_steps.
  - apply stable_tile_data.
  - apply stable_saveImage.
  - apply stable_emit.
  - eapply stable_update_element; [exact HI|].
    intros e. exists (Tile.data (CacheElement.tile e)), (Tile.locked (CacheElement.tile e)), true.
    destruct e as [? ? [] ?]. simpl. unfold CacheElement.set_was_written. simpl.
    by rewrite orb_true_r.
Qed.

Lemma stable_remove_layer layer : stable I (remove_layer k layer).
Proof.
  unfold remove_layer. stable_steps.
  - apply stable_tile_data.
  - apply stable_emit.
  - apply stable_set_tile_data, survives_payload_update.
Qed.

Lemma stable_write : stable I (write k).
Proof. apply stable_write_from_layers, stable_write_layer. Qed.

Lemma stable_flush : stable I (flush k).
Proof.
  apply stable_flush_from_layers; [apply stable_write_layer|apply stable_remove_layer].
Qed.

Lemma stable_process_element roi : stable I (process_element roi k).
Proof.
  apply stable_process_element_from_layers;
    [apply survives_payload_update|apply stable_write_layer|apply stable_remove_layer].
Qed.
End worker_steps.

(** * Iteration order *)

Lemma StronglySorted_le_lt (l : list Z) :
  StronglySorted Z.le l -> NoDup l -> StronglySorted Z.lt l.
Proof.
  induction 1 as [|x l Hl IH Hx]; intros Hnd; [constructor|].
  apply NoDup_cons in Hnd as [Hnotin Hnd]. constructor; [by apply IH|].
  rewrite Forall_forall in *. intros y Hy. specialize (Hx y Hy).
  assert (x ≠ y) by (intros ->; done). lia.
Qed.

Lemma keys_ascending_sorted {V} (m : gmap Z V) : StronglySorted Z.lt (keys_ascending m).
Proof.
  unfold keys_ascending. apply StronglySorted_le_lt.
  - apply (StronglySorted_merge_sort Z.le).
  - rewrite merge_sort_Permutation. apply NoDup_fst_map_to_list.
Qed.

Lemma keys_ascending_before {V} (m : gmap Z V) done a rest b :
  keys_ascending m = done ++ a :: rest -> b ∈ done -> b < a.
Proof.
  intros Heq Hb. pose proof (keys_ascending_sorted m) as Hs. rewrite Heq in Hs.
  eapply (StronglySorted_app_1_elem_of Z.lt); [exact Hs|exact Hb|]. by left.
Qed.

Lemma elem_of_keys_ascending {V} (m : gmap Z V) z :
  z ∈ keys_ascending m <-> is_Some (m !! z).
Proof.
  unfold keys_ascending. rewrite merge_sort_Permutation.
  rewrite list_elem_of_fmap. split.
  - intros ([z' v] & -> & Hin). apply elem_of_map_to_list in Hin. by eauto.
  - intros [v Hv]. exists (z, v). split; [done|]. by apply elem_of_map_to_list.
Qed.

(** * A loop that throws *)

Lemma mfor_throw_inv {A} (body : A -> M unit) ex s' l : forall s,
  mfor l body s = Throw ex s' ->
  exists done a rest s_mid,
    l = done ++ a :: rest
    /\ mfor done body s = Return tt s_mid
    /\ body a s_mid = Throw ex s'.
Proof.
  induction l as [|a l IH]; intros s Hrun; [done|].
  simpl in Hrun. unfold bind in Hrun. destruct (body a s) as [[] s1|ex1 s1|s1|u] eqn:Ha; try done.
  - destruct (IH s1 Hrun) as (done & a' & rest & s_mid & -> & Hdone & Ha').
    exists (a :: done), a', rest, s_mid. split; [done|]. split; [|done].
    simpl. by rewrite (bind_run _ _ _ _ _ Ha).
  - injection Hrun as -> ->. by exists [], a, l, s.
Qed.

Lemma bind_throw_inv {A B} (m : M A) (f : A -> M B) s ex s' :
  bind m f s = Throw ex s' ->
  m s = Throw ex s' \/ exists a s1, m s = Return a s1 /\ f a s1 = Throw ex s'.
Proof.
  unfold bind. destruct (m s) as [a s1|ex1 s1|s1|u]; intros H; try done.
  - right. by eauto.
  - left. by injection H as -> ->.
Qed.

(** * No exception is caught in the worker's cycle *)

Lemma untouched_survives_update K s0 k0 F :
  ~ K k0 -> survives_update k0 F (untouched K s0).
Proof.
  intros HK s e e' Hs _ _ k Hk. rewrite elem_store_ne; [by apply Hs|].
  intros ->. done.
Qed.

Lemma untouched_survives_io K s0 : survives_io (untouched K s0).
Proof. split; intros s ? Hs k Hk; by apply Hs. Qed.

Lemma survives_update_and k F (I J : state -> Prop) :
  survives_update k F I -> survives_update k F J ->
  survives_update k F (fun s => I s /\ J s).
Proof. intros HI HJ s e e' [? ?] He HF. split; [eapply HI|eapply HJ]; eauto. Qed.

Lemma survives_io_and (I J : state -> Prop) :
  survives_io I -> survives_io J -> survives_io (fun s => I s /\ J s).
Proof. intros [? ?] [? ?]. split; intros s ? [? ?]; split; auto. Qed.

Lemma roi_prediction_survives_update k F r :
  survives_update k F (fun s => roi_prediction s = r).
Proof. by intros s e e' Hs _ _. Qed.

Lemma roi_prediction_survives_io r : survives_io (fun s => roi_prediction s = r).
Proof. by split. Qed.

Lemma stable_process_column I c roi z x :
  (forall y, survives_update (z, x, y) worker_update I) -> survives_io I ->
  stable I (process_column c roi z x).
Proof. intros HI Hio. unfold process_column. stable_steps. by apply stable_process_element. Qed.

Lemma stable_process_zoom I c z :
  (forall x y, survives_update (z, x, y) worker_update I) -> survives_io I ->
  stable I (process_zoom c z).
Proof.
  intros HI Hio. unfold process_zoom. stable_steps. apply stable_process_column; auto.
Qed.

(** Where an exception that leaves [process] comes from.
    When [process] ends with an exception, either the prediction
    of a zoom level of the cache is missing, and no element of that or of a
    higher zoom level has been touched; or the exception is the one that
    the step of one element raised, the cycle has ended in the state in
    which that step ended, and no element that comes later in the
    iteration order has been touched. *)
Lemma process_stops_at_first_error s ex s' :
  process s = Throw ex s' ->
  (exists z,
      is_Some (cache s !! z) /\ roi_prediction s !! z = None
      /\ ex = out_of_range "map::at"
      /\ forall k, z <= k.1.1 -> elem k s' = elem k s)
  \/ (exists k_failed roi s_mid,
        is_Some (elem k_failed s)
        /\ process_element roi k_failed s_mid = Throw ex s'
        /\ forall k, key_lt k_failed k -> elem k s' = elem k s).
Proof.
  intros H. unfold process in H.
  apply bind_throw_inv in H as [H|(du & s1 & Hg & H)]; [done|].
  injection Hg as <- <-.
  apply bind_throw_inv in H as [H|([] & s0 & Hm & H)]; [done|].
  injection Hm as <-.
  destruct (do_update s); [|done].
  apply bind_throw_inv in H as [H|(c & s1 & Hg & H)]; [done|].
  injection Hg as <- <-. cbn [cache set_do_update] in H.
  set (s0 := set_do_update false s) in *.
  apply bind_throw_inv in H as [H|([] & s1 & _ & H)]; [|done].
  apply mfor_throw_inv in H as (done_z & z & rest_z & s_z & Hzs & Hdone_z & Hz).
  assert (is_Some (cache s !! z)) as Hcz.
  { apply elem_of_keys_ascending. rewrite Hzs. set_solver. }
  (* the zoom levels before [z] *)
  assert (forall I : state -> Prop,
            (forall z0 x y, z0 < z -> survives_update (z0, x, y) worker_update I) ->
            survives_io I -> I s0 -> I s_z) as Hbefore_z.
  { intros I HI Hio Hs0.
    eapply (stable_final_state I (mfor done_z (process_zoom (cache s)))); [|exact Hs0|by rewrite Hdone_z].
    apply stable_mfor. intros z0 Hz0. apply stable_process_zoom; [|done].
    intros x y. apply HI. by eapply keys_ascending_before. }
  unfold process_zoom in Hz.
  apply bind_throw_inv in Hz as [Hz|(pred & s1 & Hg & Hz)]; [done|].
  injection Hg as <- <-.
  destruct (roi_prediction s_z !! z) as [roi|] eqn:Hroi.
  - (* the prediction is there: the exception comes from an element *)
    right. rewrite (bind_run _ _ _ _ _ (eq_refl : ret roi s_z = Return roi s_z)) in Hz.
    apply mfor_throw_inv in Hz as (done_x & x & rest_x & s_x & Hxs & Hdone_x & Hx).
    unfold process_column in Hx.
    apply mfor_throw_inv in Hx as (done_y & y & rest_y & s_y & Hys & Hdone_y & Hy).
    exists (z, x, y), roi, s_y. split; [|split; [exact Hy|]].
    + destruct Hcz as [grid Hgrid]. unfold elem, lookup_element. rewrite Hgrid.
      rewrite Hgrid in Hxs, Hys. simpl in Hxs, Hys.
      assert (is_Some (grid !! x)) as [column Hcolumn].
      { apply elem_of_keys_ascending. rewrite Hxs. set_solver. }
      rewrite Hcolumn. rewrite Hcolumn in Hys. simpl in Hys.
      apply elem_of_keys_ascending. rewrite Hys. set_solver.
    + set (K := key_lt (z, x, y)).
      assert (untouched K s s_z) as Hs_z.
      { apply Hbefore_z; [|apply untouched_survives_io|done].
        intros z0 x0 y0 Hlt. apply untouched_survives_update. unfold K, key_lt. lia. }
      assert (untouched K s s_x) as Hs_x.
      { eapply (stable_final_state _ (mfor done_x (process_column (cache s) roi z)));
          [|exact Hs_z|by rewrite Hdone_x].
        apply stable_mfor. intros x0 Hx0.
        apply stable_process_column; [|apply untouched_survives_io].
        intros y0. apply untouched_survives_update. unfold K, key_lt.
        pose proof (keys_ascending_before _ _ _ _ _ Hxs Hx0). lia. }
      assert (untouched K s s_y) as Hs_y.
      { eapply (stable_final_state _ (mfor done_y (fun y => process_element roi (z, x, y))));
          [|exact Hs_x|by rewrite Hdone_y].
        apply stable_mfor. intros y0 Hy0.
        apply stable_process_element; [|apply untouched_survives_io].
        apply untouched_survives_update. unfold K, key_lt.
        pose proof (keys_ascending_before _ _ _ _ _ Hys Hy0). lia. }
      change (untouched K s s').
      eapply (stable_final_state _ (process_element roi (z, x, y)));
        [|exact Hs_y|by rewrite Hy].
      apply stable_process_element; [|apply untouched_survives_io].
      apply untouched_survives_update. unfold K, key_lt. lia.
  - (* [_roi_prediction.at(z)] throws *)
    left. exists z. simpl in Hz. injection Hz as <- <-.
    assert (roi_prediction s_z = roi_prediction s /\ untouched (fun k => z <= k.1.1) s s_z)
      as [Hpred Hs_z].
    { apply (Hbefore_z (fun s1 => roi_prediction s1 = roi_prediction s
                                  /\ untouched (fun k => z <= k.1.1) s s1)); [| |done].
      - intros z0 x0 y0 Hlt. apply survives_update_and.
        + apply roi_prediction_survives_update.
        + apply untouched_survives_update. simpl. lia.
      - apply survives_io_and; [apply roi_prediction_survives_io|apply untouched_survives_io]. }
    rewrite <- Hpred. by repeat split.
Qed.

Lemma process_stops_at_first_error_witness :
  let s' := match process cache_with_unknown_type with
            | Throw _ s' => s'
            | _ => cache_with_unknown_type
            end in
  process cache_with_unknown_type
    = Throw (invalid_argument "Error writing tile: data type unknown!") s'
  /\ ((exists z,
         is_Some (cache cache_with_unknown_type !! z)
         /\ roi_prediction cache_with_unknown_type !! z = None
         /\ invalid_argument "Error writing tile: data type unknown!" = out_of_range "map::at"
         /\ forall k, z <= k.1.1 -> elem k s' = elem k cache_with_unknown_type)
      \/ (exists k_failed roi s_mid,
            is_Some (elem k_failed cache_with_unknown_type)
            /\ process_element roi k_failed s_mid
               = Throw (invalid_argument "Error writing tile: data type unknown!") s'
            /\ forall k, key_lt k_failed k -> elem k s' = elem k cache_with_unknown_type)).
Proof.
  intros s'.
  assert (process cache_with_unknown_type
          = Throw (invalid_argument "Error writing tile: data type unknown!") s') as H
    by (vm_compute; reflexivity).
  split; [exact H | exact (process_stops_at_first_error _ _ _ H)].
Defined.


(** * Eviction happens after the write *)

Lemma written_store k k' e s :
  written k' (set_cache (store_element k e (cache s)) s) =
  if decide (k = k') then CacheElement.was_written e else written k' s.
Proof. unfold written. rewrite elem_store. by case_decide. Qed.

Lemma metas_store k k' e s :
  metas k' (set_cache (store_element k e (cache s)) s) =
  if decide (k = k') then CacheElement.layer_meta e else metas k' s.
Proof. unfold metas. rewrite elem_store. by case_decide. Qed.

Lemma app_singleton_split {A} (l before after : list A) (x y : A) :
  l ++ [x] = before ++ y :: after ->
  (before = l /\ y = x /\ after = [])
  \/ (exists after', after = after' ++ [x] /\ l = before ++ y :: after').
Proof.
  intros H. destruct (decide (after = [])) as [->|Hne].
  - left. apply app_inj_tail in H as [-> ->]. done.
  - right. destruct (exists_last Hne) as (after' & z & ->).
    rewrite app_comm_cons, app_assoc in H. apply app_inj_tail in H as [-> ->].
    by exists after'.
Qed.

Lemma removes_after_write_save s0 evs k layer :
  removes_after_write s0 evs -> removes_after_write s0 (evs ++ [EvSave k layer]).
Proof.
  intros H before k' layer' w after Heq.
  apply app_singleton_split in Heq as [(_ & ? & _)|(after' & -> & ->)]; [done|].
  by eapply H.
Qed.

Lemma removes_after_write_remove s0 evs k layer :
  removes_after_write s0 evs ->
  written k s0 = true \/ all_saved s0 k evs ->
  removes_after_write s0 (evs ++ [EvRemove k layer true]).
Proof.
  intros H Hk before k' layer' w after Heq.
  apply app_singleton_split in Heq as [(-> & Hev & _)|(after' & -> & ->)].
  - by injection Hev as -> -> ->.
  - by eapply H.
Qed.

Lemma tile_data_null k s e :
  elem k s = Some e -> Tile.data (CacheElement.tile e) = None ->
  tile_data k s = Undefined null_pointer_dereference.
Proof.
  intros He Hd. unfold tile_data. rewrite (bind_run _ _ _ _ _ (element_run _ _ _ He)).
  by rewrite Hd.
Qed.

Lemma element_null k s : elem k s = None -> element k s = Undefined null_pointer_dereference.
Proof. unfold elem, element. by intros ->. Qed.

Section eviction_order.
(** The state in which the cycle starts. *)
Context (s0 : state).

Lemma cycle_inv_exit s : cycle_inv s0 s -> cycle_exit s0 s.
Proof. intros (evs & ? & ? & _). by exists evs. Qed.

Lemma writing_exit k done s : writing s0 k done s -> cycle_exit s0 s.
Proof. intros (evs & ? & ? & _). by exists evs. Qed.

Lemma cycle_inv_start : cycle_inv s0 s0.
Proof.
  exists []. split; [by rewrite app_nil_r|]. split; [|split; [done|by left]].
  intros before k layer w after Heq. by destruct before.
Qed.

Lemma write_layer_spec k done meta :
  triple (writing s0 k done) (write_layer k meta)
         (fun _ => writing s0 k (done ++ [meta])) (cycle_exit s0).
Proof.
  intros s Hs. pose proof (writing_exit _ _ _ Hs) as Hexit.
  destruct Hs as (evs & Ht & Hr & Hm & Ho & Hd & Hw).
  unfold write_layer.
  destruct (elem k s) as [e|] eqn:He;
    [|by rewrite (bind_undefined _ _ _ _ (element_null _ _ He))].
  rewrite (bind_run _ _ _ _ _ (element_run _ _ _ He)).
  destruct (Tile.data (CacheElement.tile e)) as [c|] eqn:Hdata;
    [|by rewrite (bind_undefined _ _ _ _ (tile_data_null _ _ _ He Hdata))].
  rewrite (bind_run _ _ _ _ _ (tile_data_run _ _ _ _ He Hdata)).
  destruct (CvGridMap.get c (LayerMetaData.name meta)) as [data|]; [|exact Hexit].
  unfold gets at 1. unfold bind at 1.
  destruct (extension _) as [ext|]; [|exact Hexit].
  unfold saveImage, emit, modify. unfold bind at 1 2.
  erewrite update_element_run; [|exact He].
  exists (evs ++ [EvSave k (LayerMetaData.name meta)]).
  split; [cbn; by rewrite Ht, app_assoc|].
  split; [by apply removes_after_write_save|].
  split; [|split; [|split]].
  - intros k'. rewrite metas_store. case_decide as Hk; [|apply Hm].
    subst k'. rewrite <- Hm. unfold metas. by rewrite He.
  - intros k' Hne. rewrite written_store. rewrite decide_False by done.
    intros Hk'. destruct (Ho k' Hne Hk') as [?|Hall]; [by left|right].
    intros m Hin. apply elem_of_app. left. by apply Hall.
  - intros m [Hin| ->%list_elem_of_singleton]%elem_of_app; apply elem_of_app.
    + left. by apply Hd.
    + right. by apply list_elem_of_singleton.
  - intros _. rewrite written_store. by rewrite decide_True.
Qed.

Lemma write_spec k :
  triple ((cycle_inv s0)) (write k)
         (fun _ s => cycle_inv s0 s /\ (metas k s0 ≠ [] -> written k s = true))
         (cycle_exit s0).
Proof.
  intros s Hs. unfold write.
  destruct (elem k s) as [e|] eqn:He;
    [|by rewrite (bind_undefined _ _ _ _ (element_null _ _ He))].
  rewrite (bind_run _ _ _ _ _ (element_run _ _ _ He)).
  assert (CacheElement.layer_meta e = metas k s0) as Hmeta.
  { destruct Hs as (evs & _ & _ & Hm & _). rewrite <- Hm. unfold metas. by rewrite He. }
  assert (writing s0 k [] s) as Hstart.
  { destruct Hs as (evs & Ht & Hr & Hm & Ho). exists evs.
    split; [done|]. split; [done|]. split; [done|].
    split; [|split; [by intros ? ?%elem_of_nil|done]].
    intros k' _. apply Ho. }
  pose proof (triple_mfor (writing s0 k) (cycle_exit s0) (CacheElement.layer_meta e)
                (write_layer k) (fun done a rest _ => write_layer_spec k done a) s Hstart)
    as Hloop.
  destruct (mfor _ _ s) as [[] s'| | |]; try done.
  destruct Hloop as (evs & Ht & Hr & Hm & Ho & Hd & Hw).
  split; [|by rewrite <- Hmeta].
  exists evs. split; [done|]. split; [done|]. split; [done|].
  intros k' Hk'. destruct (decide (k' = k)) as [->|Hne]; [|by apply Ho].
  right. intros m Hin. apply Hd. by rewrite Hmeta.
Qed.

Lemma remove_layer_spec k layer :
  triple (fun s => cycle_inv s0 s /\ written k s = true) (remove_layer k layer)
         (fun _ s => cycle_inv s0 s /\ written k s = true) (cycle_exit s0).
Proof.
  intros s [Hs Hwritten]. destruct Hs as (evs & Ht & Hr & Hm & Ho).
  unfold remove_layer.
  destruct (elem k s) as [e|] eqn:He;
    [|by rewrite (bind_undefined _ _ _ _ (element_null _ _ He))].
  rewrite (bind_run _ _ _ _ _ (element_run _ _ _ He)).
  destruct (Tile.data (CacheElement.tile e)) as [c|] eqn:Hdata;
    [|by rewrite (bind_undefined _ _ _ _ (tile_data_null _ _ _ He Hdata))].
  rewrite (bind_run _ _ _ _ _ (tile_data_run _ _ _ _ He Hdata)).
  assert (CacheElement.was_written e = true) as Hw.
  { unfold written in Hwritten. by rewrite He in Hwritten. }
  rewrite Hw. unfold emit, modify. unfold bind at 1.
  unfold set_tile_data. erewrite update_element_run; [|exact He].
  split.
  - exists (evs ++ [EvRemove k layer true]).
    split; [cbn; by rewrite Ht, app_assoc|].
    split; [apply removes_after_write_remove; [done|by apply Ho]|].
    split.
    + intros k'. rewrite metas_store. case_decide as Hk; [|apply Hm].
      subst k'. rewrite <- Hm. unfold metas. by rewrite He.
    + intros k'. rewrite written_store. case_decide as Hk.
      * subst k'. intros _. destruct (Ho k Hwritten) as [?|Hall]; [by left|right].
        intros m Hin. apply elem_of_app. left. by apply Hall.
      * intros Hk'. destruct (Ho k' Hk') as [?|Hall]; [by left|right].
        intros m Hin. apply elem_of_app. left. by apply Hall.
  - rewrite written_store. by rewrite decide_True.
Qed.

Lemma flush_body_spec k e :
  CacheElement.layer_meta e = metas k s0 ->
  triple (fun s => cycle_inv s0 s /\ written k s = CacheElement.was_written e)
         ((if negb (CacheElement.was_written e) then write k else ret tt) ;;;
          mfor (CacheElement.layer_meta e)
               (fun meta => remove_layer k (LayerMetaData.name meta)))
         (fun _ => cycle_inv s0) (cycle_exit s0).
Proof.
  intros Hmeta.
  eapply (triple_bind _ _ _
            (fun _ s => cycle_inv s0 s /\ (CacheElement.layer_meta e ≠ [] -> written k s = true))).
  - destruct (CacheElement.was_written e); cbn [negb].
    + apply triple_ret. intros s [? ?]. by split.
    + eapply triple_conseq; [apply write_spec| | |]; [by intros s [? _]| |done].
      intros _ s [? Hw]. split; [done|]. by rewrite Hmeta.
  - intros []. destruct (CacheElement.layer_meta e) as [|meta l] eqn:Hl.
    + apply triple_ret. by intros s [? _].
    + eapply triple_conseq;
        [apply (triple_mfor_inv (fun s => cycle_inv s0 s /\ written k s = true) (cycle_exit s0))| | |].
      * intros m _. apply remove_layer_spec.
      * intros s [? Hw]. split; [done|]. by apply Hw.
      * by intros _ s [? _].
      * done.
Qed.

Lemma flush_spec k :
  triple (cycle_inv s0) (flush k) (fun _ => cycle_inv s0) (cycle_exit s0).
Proof.
  intros s Hs. unfold flush.
  destruct (elem k s) as [e|] eqn:He;
    [|by rewrite (bind_undefined _ _ _ _ (element_null _ _ He))].
  rewrite (bind_run _ _ _ _ _ (element_run _ _ _ He)).
  apply flush_body_spec.
  - destruct Hs as (evs & _ & _ & Hm & _). rewrite <- Hm. unfold metas. by rewrite He.
  - split; [done|]. unfold written. by rewrite He.
Qed.

Lemma cycle_inv_survives_update k : survives_update k payload_update (cycle_inv s0).
Proof.
  intros s e e' (evs & Ht & Hr & Hm & Ho) He (d & l & ->). exists evs.
  split; [done|]. split; [done|]. split.
  - intros k'. rewrite metas_store. case_decide as Hk; [|apply Hm].
    subst k'. rewrite <- Hm. unfold metas. by rewrite He.
  - intros k'. rewrite written_store. case_decide as Hk; [|apply Ho].
    subst k'. intros Hw. apply Ho. unfold written. by rewrite He.
Qed.

(** A step that keeps the invariant however it ends. *)
Lemma stable_spec {A} (m : M A) :
  stable (cycle_inv s0) m -> triple (cycle_inv s0) m (fun _ => cycle_inv s0) (cycle_exit s0).
Proof.
  intros Hm. eapply triple_conseq; [exact Hm|done|done|]. apply cycle_inv_exit.
Qed.

Lemma process_element_spec roi k :
  triple (cycle_inv s0) (process_element roi k) (fun _ => cycle_inv s0) (cycle_exit s0).
Proof.
  unfold process_element.
  eapply triple_bind; [apply stable_spec, stable_lock, cycle_inv_survives_update|].
  intros []. eapply triple_bind; [apply stable_spec, stable_element|].
  intros e. eapply (triple_bind _ _ _ (fun _ => cycle_inv s0)).
  { destruct (negb (CacheElement.was_written e)).
    - eapply triple_conseq; [apply write_spec|done| |done]. by intros _ s [? _].
    - by apply triple_ret. }
  intros []. eapply triple_bind; [apply stable_spec, stable_isCached|].
  intros cached. eapply (triple_bind _ _ _ (fun _ => cycle_inv s0)).
  { destruct cached; [|by apply triple_ret].
    eapply triple_bind; [apply stable_spec, stable_element|].
    intros e'. cbv zeta. destruct (outside_prediction _ _ _).
    - apply flush_spec.
    - by apply triple_ret. }
  intros []. apply stable_spec, stable_unlock, cycle_inv_survives_update.
Qed.

Lemma process_spec :
  triple (cycle_inv s0) process (fun _ => cycle_inv s0) (cycle_exit s0).
Proof.
  unfold process.
  eapply triple_bind; [apply stable_spec, stable_gets|].
  intros du. eapply triple_bind; [apply stable_spec, stable_modify|].
  { intros s (evs & ? & ? & ? & ?). by exists evs. }
  intros []. destruct du; [|by apply triple_ret].
  eapply triple_bind; [apply stable_spec, stable_gets|].
  intros c. eapply (triple_bind _ _ _ (fun _ => cycle_inv s0)); [|intros []; by apply triple_ret].
  apply triple_mfor_inv. intros z _. unfold process_zoom.
  eapply triple_bind; [apply stable_spec, stable_gets|].
  intros pred. eapply triple_bind.
  { destruct (pred !! z); [apply stable_spec, stable_ret|].
    apply triple_throw, cycle_inv_exit. }
  intros roi. apply triple_mfor_inv. intros x _. unfold process_column.
  apply triple_mfor_inv. intros y _. apply process_element_spec.
Qed.
End eviction_order.

(** ** What is saved is on disk *)

Lemma tile_path_coords toplevel layer t t' :
  tile_coords t = tile_coords t' -> tile_path toplevel layer t = tile_path toplevel layer t'.
Proof. unfold tile_coords, tile_path. by intros [= -> -> ->]. Qed.

Section saved_on_disk.
(** The state in which the cycle starts. *)
Context (s0 : state).

Lemma saves_on_disk_start : saves_on_disk s0 s0.
Proof.
  split; [done|]. split; [done|]. exists []. split; [by rewrite app_nil_r|].
  by intros k layer ?%elem_of_nil.
Qed.

Lemma element_coords_store k k' e e' s :
  elem k s = Some e ->
  tile_coords (CacheElement.tile e') = tile_coords (CacheElement.tile e) ->
  element_coords k' (set_cache (store_element k e' (cache s)) s) = element_coords k' s.
Proof.
  intros He Hc. unfold element_coords. rewrite elem_store. case_decide as Hk; [|done].
  subst k'. rewrite He. simpl. by rewrite Hc.
Qed.

Lemma saves_on_disk_survives_update k : survives_update k payload_update (saves_on_disk s0).
Proof.
  intros s e e' (Hdir & Hcoords & evs & Ht & Hsaved) He (d & l & ->).
  split; [done|]. split; [|by exists evs].
  intros k'. rewrite <- Hcoords. by apply (element_coords_store _ _ e).
Qed.

Lemma saves_on_disk_write_layer k meta : stable (saves_on_disk s0) (write_layer k meta).
Proof.
  intros s Hs. pose proof Hs as (Hdir & Hcoords & evs & Ht & Hsaved).
  unfold write_layer.
  destruct (elem k s) as [e|] eqn:He;
    [|by rewrite (bind_undefined _ _ _ _ (element_null _ _ He))].
  rewrite (bind_run _ _ _ _ _ (element_run _ _ _ He)).
  destruct (Tile.data (CacheElement.tile e)) as [c|] eqn:Hdata;
    [|by rewrite (bind_undefined _ _ _ _ (tile_data_null _ _ _ He Hdata))].
  rewrite (bind_run _ _ _ _ _ (tile_data_run _ _ _ _ He Hdata)).
  destruct (CvGridMap.get c (LayerMetaData.name meta)) as [data|]; [|exact Hs].
  unfold gets at 1. unfold bind at 1.
  destruct (extension _) as [ext|]; [|exact Hs].
  unfold saveImage, emit, modify. unfold bind at 1 2.
  erewrite update_element_run; [|exact He].
  split; [done|]. split.
  { intros k'. rewrite <- Hcoords.
    match goal with
    | |- element_coords _ (set_cache _ ?s2) = _ =>
        exact (element_coords_store k k' e (CacheElement.set_was_written true e) s2 He eq_refl)
    end. }
  exists (evs ++ [EvSave k (LayerMetaData.name meta)]).
  split; [cbn; by rewrite Ht, app_assoc|].
  intros k' layer [Hin|Hlast%list_elem_of_singleton]%elem_of_app.
  - destruct (Hsaved k' layer Hin) as (e0 & ext0 & He0 & Hfile). exists e0, ext0.
    split; [done|]. cbn. apply lookup_insert_is_Some'. by right.
  - injection Hlast as -> ->.
    pose proof (Hcoords k) as Hk. unfold element_coords in Hk. rewrite He in Hk.
    destruct (elem k s0) as [e0|] eqn:He0; [|done]. simpl in Hk.
    assert (tile_coords (CacheElement.tile e) = tile_coords (CacheElement.tile e0)) as Hc
      by congruence.
    exists e0, ext. split; [done|]. cbn. apply lookup_insert_is_Some'. left.
    rewrite Hdir. f_equal. by apply tile_path_coords.
Qed.

Lemma saves_on_disk_remove_layer k layer : stable (saves_on_disk s0) (remove_layer k layer).
Proof.
  unfold remove_layer. stable_steps.
  - apply stable_tile_data.
  - apply stable_modify. intros s (Hdir & Hcoords & evs & Ht & Hsaved).
    split; [done|]. split; [done|]. eexists (evs ++ [_]).
    split; [cbn; by rewrite Ht, app_assoc|].
    intros k' layer' [Hin|Hlast%list_elem_of_singleton]%elem_of_app; [|done].
    by apply Hsaved.
  - apply stable_set_tile_data, saves_on_disk_survives_update.
Qed.

Lemma saves_on_disk_process : stable (saves_on_disk s0) process.
Proof.
  apply stable_process_from_elements.
  - intros roi k. apply stable_process_element_from_layers.
    + apply saves_on_disk_survives_update.
    + apply saves_on_disk_write_layer.
    + apply saves_on_disk_remove_layer.
  - intros s (Hdir & Hcoords & evs & Ht & Hsaved). split; [done|]. split; [done|]. by exists evs.
Qed.
End saved_on_disk.

(** The order of the events of a cycle of the worker: every removal of
    a layer from a raster container finds [was_written] set on its element;
    unless the element was already written when the cycle started, the
    write of every layer of the element comes before the removal; and a
    file of every layer that is written in the cycle is on disk. *)
Lemma eviction_after_write s s' :
  final_state (process s) = Some s' ->
  exists evs,
    trace s' = trace s ++ evs
    /\ (forall before k layer w after,
          evs = before ++ EvRemove k layer w :: after ->
          w = true
          /\ (written k s = true
              \/ forall meta, meta ∈ metas k s ->
                              EvSave k (LayerMetaData.name meta) ∈ before))
    /\ (forall k layer, EvSave k layer ∈ evs -> on_disk s s' k layer).
Proof.
  intros Hfinal.
  assert (cycle_exit s s') as (evs & Ht & Hremoves).
  { destruct (triple_final_state _ _ _ _ _ _ (process_spec s) (cycle_inv_start s) Hfinal)
      as [[_ Hinv]|Hexit]; [by apply cycle_inv_exit|done]. }
  destruct (stable_final_state _ _ _ _ (saves_on_disk_process s) (saves_on_disk_start s) Hfinal)
    as (_ & _ & evs' & Ht' & Hsaved).
  assert (evs' = evs) as -> by (rewrite Ht in Ht'; by apply app_inv_head in Ht').
  by exists evs.
Qed.

Lemma eviction_after_write_witness :
  let s := cache_with [((5, 0, 0), color_element 5 0 0 false)] (Rect.mk 3 3 1 1) in
  let s' := match process s with Return _ s' => s' | _ => s end in
  final_state (process s) = Some s'
  /\ trace s' = [EvSave (5, 0, 0) "color"; EvRemove (5, 0, 0) "color" true]
  /\ files s' !! "out/color/5/0/0.png" = Some (raster CV_8U)
  /\ exists evs,
       trace s' = trace s ++ evs
       /\ (forall before k layer w after,
             evs = before ++ EvRemove k layer w :: after ->
             w = true
             /\ (written k s = true
                 \/ forall meta, meta ∈ metas k s ->
                                 EvSave k (LayerMetaData.name meta) ∈ before))
       /\ (forall k layer, EvSave k layer ∈ evs -> on_disk s s' k layer).
Proof.
  intros s s'.
  assert (final_state (process s) = Some s') as H by (vm_compute; reflexivity).
  split; [exact H|]. split; [vm_compute; reflexivity|]. split; [vm_compute; reflexivity|].
  exact (eviction_after_write s s' H).
Defined.

(** * The eviction test *)

(** Away from the far edges and without overflow, the test of [process]
    is the complement of the membership in the rectangle. *)
Lemma outside_prediction_contains roi tx ty :
  int_range (Rect.x roi + Rect.width roi) ->
  int_range (Rect.y roi + Rect.height roi) ->
  tx ≠ Rect.x roi + Rect.width roi ->
  ty ≠ Rect.y roi + Rect.height roi ->
  outside_prediction roi tx ty = negb (Rect.contains roi tx ty).
Proof.
  unfold int_range, outside_prediction, Rect.contains, int_add, wrap. intros Hx Hy Hnx Hny.
  replace ((Rect.x roi + Rect.width roi + 2 ^ 31) mod 2 ^ 32 - 2 ^ 31)
    with (Rect.x roi + Rect.width roi)
    by (rewrite Z.mod_small; lia).
  replace ((Rect.y roi + Rect.height roi + 2 ^ 31) mod 2 ^ 32 - 2 ^ 31)
    with (Rect.y roi + Rect.height roi)
    by (rewrite Z.mod_small; lia).
  destruct (Z.ltb_spec tx (Rect.x roi)), (Z.ltb_spec (Rect.x roi + Rect.width roi) tx),
    (Z.ltb_spec ty (Rect.y roi)), (Z.ltb_spec (Rect.y roi + Rect.height roi) ty),
    (Z.leb_spec (Rect.x roi) tx), (Z.ltb_spec tx (Rect.x roi + Rect.width roi)),
    (Z.leb_spec (Rect.y roi) ty), (Z.ltb_spec ty (Rect.y roi + Rect.height roi));
    simpl; try reflexivity; lia.
Qed.

(** On the far edges the test keeps a tile that the rectangle does not
    hold. *)
Lemma outside_prediction_far_edge roi tx ty :
  int_range (Rect.x roi + Rect.width roi) ->
  int_range (Rect.y roi + Rect.height roi) ->
  Rect.x roi <= tx <= Rect.x roi + Rect.width roi ->
  Rect.y roi <= ty <= Rect.y roi + Rect.height roi ->
  tx = Rect.x roi + Rect.width roi \/ ty = Rect.y roi + Rect.height roi ->
  outside_prediction roi tx ty = false /\ Rect.contains roi tx ty = false.
Proof.
  unfold int_range, outside_prediction, Rect.contains, int_add, wrap. intros Hx Hy Hix Hiy Hedge.
  replace ((Rect.x roi + Rect.width roi + 2 ^ 31) mod 2 ^ 32 - 2 ^ 31)
    with (Rect.x roi + Rect.width roi)
    by (rewrite Z.mod_small; lia).
  replace ((Rect.y roi + Rect.height roi + 2 ^ 31) mod 2 ^ 32 - 2 ^ 31)
    with (Rect.y roi + Rect.height roi)
    by (rewrite Z.mod_small; lia).
  destruct (Z.ltb_spec tx (Rect.x roi)), (Z.ltb_spec (Rect.x roi + Rect.width roi) tx),
    (Z.ltb_spec ty (Rect.y roi)), (Z.ltb_spec (Rect.y roi + Rect.height roi) ty),
    (Z.leb_spec (Rect.x roi) tx), (Z.ltb_spec tx (Rect.x roi + Rect.width roi)),
    (Z.leb_spec (Rect.y roi) ty), (Z.ltb_spec ty (Rect.y roi + Rect.height roi));
    simpl; split; try reflexivity; lia.
Qed.

(** C6: a cached, written element whose tile lies on a far edge of the
    predicted ROI ([tx = roi.x + roi.width] or [ty = roi.y + roi.height]) is
    outside the rectangle, and the step of the worker keeps its raster
    payload: the test of lines 88-89 compares with [>]. *)
Theorem far_edge_tile_is_kept roi k s e c :
  elem k s = Some e ->
  Tile.locked (CacheElement.tile e) = false ->
  CacheElement.was_written e = true ->
  Tile.data (CacheElement.tile e) = Some c ->
  CvGridMap.empty c = false ->
  int_range (Rect.x roi + Rect.width roi) ->
  int_range (Rect.y roi + Rect.height roi) ->
  Rect.x roi <= Tile.x (CacheElement.tile e) <= Rect.x roi + Rect.width roi ->
  Rect.y roi <= Tile.y (CacheElement.tile e) <= Rect.y roi + Rect.height roi ->
  Tile.x (CacheElement.tile e) = Rect.x roi + Rect.width roi
  \/ Tile.y (CacheElement.tile e) = Rect.y roi + Rect.height roi ->
  Rect.contains roi (Tile.x (CacheElement.tile e)) (Tile.y (CacheElement.tile e)) = false
  /\ exists s',
       process_element roi k s = Return tt s'
       /\ elem k s' = Some e
       /\ trace s' = trace s.
Proof.
  intros He Hl Hw Hd Hc Hrx Hry Hx Hy Hedge.
  destruct (outside_prediction_far_edge roi _ _ Hrx Hry Hx Hy Hedge) as [Hout Hcontains].
  split; [exact Hcontains|].
  set (e1 := CacheElement.set_tile (Tile.set_locked true (CacheElement.tile e)) e).
  set (s1 := set_cache (store_element k e1 (cache s)) s).
  assert (elem k s1 = Some e1) as He1 by apply elem_store_eq.
  exists (set_cache (store_element k
            (CacheElement.set_tile (Tile.set_locked false (CacheElement.tile e1)) e1)
            (cache s1)) s1).
  split; [|split; [|done]].
  - unfold process_element.
    rewrite (bind_run _ _ _ _ _ (lock_run _ _ _ He Hl)). fold e1 s1.
    rewrite (bind_run _ _ _ _ _ (element_run _ _ _ He1)).
    change (CacheElement.was_written e1) with (CacheElement.was_written e). rewrite Hw.
    cbn [negb]. unfold ret at 1. unfold bind at 1.
    rewrite (bind_run _ _ _ _ _ (isCached_run _ _ _ c He1 Hd)). rewrite Hc. cbn [negb].
    rewrite (bind_run _ _ s1 tt s1).
    + unfold unlock. by rewrite (update_element_run _ _ _ _ He1).
    + rewrite (bind_run _ _ _ _ _ (element_run _ _ _ He1)).
      change (Tile.x (CacheElement.tile e1)) with (Tile.x (CacheElement.tile e)).
      change (Tile.y (CacheElement.tile e1)) with (Tile.y (CacheElement.tile e)).
      by rewrite Hout.
  - rewrite elem_store_eq. f_equal. destruct e as [? ? [] ?]. simpl in *. by subst.
Qed.

Lemma far_edge_tile_is_kept_witness :
  let roi := Rect.mk 0 0 1 1 in
  let s := cache_with [((5, 1, 1), color_element 5 1 1 true)] roi in
  elem (5, 1, 1) s = Some (color_element 5 1 1 true)
  /\ Rect.contains roi 1 1 = false
  /\ exists s',
       process_element roi (5, 1, 1) s = Return tt s'
       /\ elem (5, 1, 1) s' = Some (color_element 5 1 1 true)
       /\ trace s' = trace s.
Proof.
  intros roi s. split; [reflexivity|].
  apply (far_edge_tile_is_kept roi (5, 1, 1) s (color_element 5 1 1 true)
           [CvGridMap.mkLayer "color" (raster CV_8U) 1]);
    try reflexivity; unfold int_range; simpl; lia.
Defined.

(** The predicted ROI of zoom level 5 is the rectangle (0, 0, 1, 1), which
    holds the tile (0, 0) only.  The cached and written tiles (1, 0), (0, 1)
    and (1, 1) lie outside of it, on its far edges; (2, 0) lies further out.
    The cycle evicts (2, 0) and keeps the other three. *)
Example process_keeps_far_edge_tiles :
  let roi := Rect.mk 0 0 1 1 in
  let s := cache_with [((5, 1, 0), color_element 5 1 0 true);
                       ((5, 0, 1), color_element 5 0 1 true);
                       ((5, 1, 1), color_element 5 1 1 true);
                       ((5, 2, 0), color_element 5 2 0 true)] roi in
  Rect.contains roi 1 0 = false
  /\ Rect.contains roi 0 1 = false
  /\ Rect.contains roi 1 1 = false
  /\ Rect.contains roi 2 0 = false
  /\ exists s',
       process s = Return true s'
       /\ elem (5, 1, 0) s' = Some (color_element 5 1 0 true)
       /\ elem (5, 0, 1) s' = Some (color_element 5 0 1 true)
       /\ elem (5, 1, 1) s' = Some (color_element 5 1 1 true)
       /\ elem (5, 2, 0) s'
          = Some (CacheElement.set_tile (Tile.set_data (Some []) (color_tile 5 2 0))
                    (color_element 5 2 0 true))
       /\ trace s' = [EvRemove (5, 2, 0) "color" true].
Proof.
  cbv zeta. repeat (split; [reflexivity|]).
  eexists. split; [vm_compute; reflexivity|]. by repeat split.
Qed.

(** * [write] and the persisted flag *)

Lemma write_layer_run k meta s e c data ext :
  elem k s = Some e ->
  Tile.data (CacheElement.tile e) = Some c ->
  CvGridMap.get c (LayerMetaData.name meta) = Some data ->
  extension (Z.land (Mat.type data) CV_MAT_DEPTH_MASK) = Some ext ->
  write_layer k meta s =
  Return tt
    (set_cache (store_element k (CacheElement.set_was_written true e) (cache s))
       (set_trace (trace s ++ [EvSave k (LayerMetaData.name meta)])
          (set_files
             (<[tile_path (dir_toplevel s) (LayerMetaData.name meta) (CacheElement.tile e)
                +:+ ext := data]> (files s)) s))).
Proof.
  intros He Hd Hget Hext. unfold write_layer.
  rewrite (bind_run _ _ _ _ _ (element_run _ _ _ He)).
  rewrite (bind_run _ _ _ _ _ (tile_data_run _ _ _ _ He Hd)).
  rewrite Hget. unfold gets at 1. unfold bind at 1. rewrite Hext.
  unfold saveImage, emit, modify. unfold bind at 1 2.
  by erewrite update_element_run; [|exact He].
Qed.

Lemma write_layer_unknown_type k meta s e c data :
  elem k s = Some e ->
  Tile.data (CacheElement.tile e) = Some c ->
  CvGridMap.get c (LayerMetaData.name meta) = Some data ->
  extension (Z.land (Mat.type data) CV_MAT_DEPTH_MASK) = None ->
  write_layer k meta s = Throw (invalid_argument "Error writing tile: data type unknown!") s.
Proof.
  intros He Hd Hget Hext. unfold write_layer.
  rewrite (bind_run _ _ _ _ _ (element_run _ _ _ He)).
  rewrite (bind_run _ _ _ _ _ (tile_data_run _ _ _ _ He Hd)).
  rewrite Hget. unfold gets at 1. unfold bind at 1. by rewrite Hext.
Qed.

(** C3: [write] sets [was_written] in the loop, after each layer.  When
    the first layer is written and the second layer has an unknown pixel
    type, [write] throws with the flag set; the call has written the file
    of the first layer and no other file. *)
Theorem write_leaves_flag_after_failure k s e c meta1 meta2 rest data1 ext1 data2 :
  elem k s = Some e ->
  CacheElement.layer_meta e = meta1 :: meta2 :: rest ->
  Tile.data (CacheElement.tile e) = Some c ->
  CvGridMap.get c (LayerMetaData.name meta1) = Some data1 ->
  extension (Z.land (Mat.type data1) CV_MAT_DEPTH_MASK) = Some ext1 ->
  CvGridMap.get c (LayerMetaData.name meta2) = Some data2 ->
  extension (Z.land (Mat.type data2) CV_MAT_DEPTH_MASK) = None ->
  exists s',
    write k s = Throw (invalid_argument "Error writing tile: data type unknown!") s'
    /\ written k s' = true
    /\ files s'
       = <[tile_path (dir_toplevel s) (LayerMetaData.name meta1) (CacheElement.tile e)
           +:+ ext1 := data1]> (files s)
    /\ trace s' = trace s ++ [EvSave k (LayerMetaData.name meta1)].
Proof.
  intros He Hmeta Hd Hget1 Hext1 Hget2 Hext2.
  eexists. split; [|split; [|split]].
  - unfold write. rewrite (bind_run _ _ _ _ _ (element_run _ _ _ He)). rewrite Hmeta.
    simpl. rewrite (bind_run _ _ _ _ _ (write_layer_run _ _ _ _ _ _ _ He Hd Hget1 Hext1)).
    apply bind_throw.
    apply (write_layer_unknown_type _ _ _ (CacheElement.set_was_written true e) c data2);
      [|exact Hd|exact Hget2|exact Hext2].
    unfold elem. cbn [cache set_cache]. rewrite lookup_store_element. by rewrite decide_True.
  - unfold written, elem. cbn [cache set_cache]. rewrite lookup_store_element.
    by rewrite decide_True.
  - done.
  - done.
Qed.

Lemma write_leaves_flag_after_failure_witness :
  written (5, 0, 0) cache_with_two_layers = false
  /\ exists s',
       write (5, 0, 0) cache_with_two_layers
         = Throw (invalid_argument "Error writing tile: data type unknown!") s'
       /\ written (5, 0, 0) s' = true
       /\ files s' = {[ "out/color/5/0/0.png" := raster CV_8U ]}
       /\ trace s' = [EvSave (5, 0, 0) "color"].
Proof.
  split; [reflexivity|].
  destruct (write_leaves_flag_after_failure (5, 0, 0) cache_with_two_layers
              (CacheElement.mk 0
                 [LayerMetaData.mk "color" CV_8U 1; LayerMetaData.mk "labels" CV_32S 0]
                 (Tile.mk 5 0 0 (Some [CvGridMap.mkLayer "color" (raster CV_8U) 1;
                                        CvGridMap.mkLayer "labels" (raster CV_32S) 0]) false)
                 false)
              [CvGridMap.mkLayer "color" (raster CV_8U) 1;
               CvGridMap.mkLayer "labels" (raster CV_32S) 0]
              (LayerMetaData.mk "color" CV_8U 1) (LayerMetaData.mk "labels" CV_32S 0) []
              (raster CV_8U) ".png" (raster CV_32S)
              eq_refl eq_refl eq_refl eq_refl eq_refl eq_refl eq_refl)
    as (s' & Hrun & Hwritten & Hfiles & Htrace).
  exists s'. split; [exact Hrun|]. split; [exact Hwritten|]. split; [|exact Htrace].
  rewrite Hfiles. vm_compute. reflexivity.
Defined.

Lemma stable_process I :
  (forall k, survives_update k worker_update I) -> survives_io I ->
  (forall s, I s -> I (set_do_update false s)) ->
  stable I process.
Proof.
  intros HI Hio Hdo. unfold process. stable_steps.
  - by apply stable_modify.
  - by apply stable_process_zoom.
Qed.

Lemma stable_flushAll I :
  (forall k, survives_update k worker_update I) -> survives_io I -> stable I flushAll.
Proof.
  intros HI Hio. unfold flushAll, for_each_element. stable_steps.
  - apply stable_lock. by apply survives_payload_update.
  - by apply stable_write.
  - apply stable_set_tile_data. by apply survives_payload_update.
  - apply stable_unlock. by apply survives_payload_update.
Qed.

Lemma stable_loadAll I :
  (forall k, survives_update k payload_update I) -> stable I loadAll.
Proof.
  intros HI. unfold loadAll, for_each_element. stable_steps.
  - by apply stable_lock.
  - by apply stable_isCached.
  - by apply stable_load.
  - by apply stable_unlock.
Qed.

Lemma written_survives_update k k' :
  survives_update k' worker_update (fun s => written k s = true).
Proof.
  intros s e e' Hs He (d & l & w & ->). rewrite written_store. case_decide as Hk; [|done].
  subst k'. unfold written in Hs. rewrite He in Hs. simpl. by rewrite Hs.
Qed.

Lemma written_survives_io k : survives_io (fun s => written k s = true).
Proof. by split. Qed.

(** The half of C3 that holds: none of these operations takes
    [was_written] back. *)
Lemma was_written_never_reset o k s s' :
  written k s = true -> final_state_of o s = Some s' -> written k s' = true.
Proof.
  intros Hs Hfinal.
  pose proof (written_survives_update k) as HI.
  pose proof (written_survives_io k) as Hio.
  assert (forall k', survives_update k' payload_update (fun s => written k s = true)) as HI'.
  { intros k'. by apply survives_payload_update. }
  destruct o; simpl in Hfinal;
    (eapply (stable_final_state (fun s => written k s = true)); [|exact Hs|exact Hfinal]).
  - by apply stable_write.
  - by apply stable_load.
  - by apply stable_flush.
  - by apply stable_process.
  - by apply stable_get.
  - by apply stable_flushAll.
  - by apply stable_loadAll.
Qed.

(** * [add] *)

Lemma createDirectories_run toplevel layer_names tile_tree s :
  exists d, createDirectories toplevel layer_names tile_tree s = Return tt (set_directories d s).
Proof.
  unfold createDirectories. revert s.
  induction layer_names as [|n l IH]; intros s; simpl.
  - exists (directories s). by destruct s.
  - unfold bind, createDir at 1, modify.
    destruct (IH (set_directories ({[toplevel +:+ n +:+ tile_tree]} ∪ directories s) s))
      as (d & ->).
    by exists d.
Qed.

(** What the loop of [add] does with one tile on a zoom level that is in
    the cache: the tile is stored under its key, with the flag cleared, and
    directories may be created. *)
Lemma add_to_existing_zoom_run zoom_level layer_names layer_meta timestamp t s :
  Tile.locked t = false ->
  exists d,
    add_to_existing_zoom zoom_level layer_names layer_meta timestamp t s
    = Return tt
        (set_cache (store_element (zoom_level, Tile.x t, Tile.y t)
                      (CacheElement.mk timestamp layer_meta t false) (cache s))
                   (set_directories d s)).
Proof.
  intros Hl. unfold add_to_existing_zoom, lock_tile. rewrite Hl.
  unfold ret at 1, gets at 1 2. unfold bind at 1 2 3.
  set (e := CacheElement.mk timestamp layer_meta t false).
  set (grid := default ∅ (cache s !! zoom_level)).
  destruct (grid !! Tile.x t) as [column|] eqn:Hcolumn.
  - exists (directories s). unfold store_element. fold grid. rewrite Hcolumn.
    destruct s. by destruct (column !! Tile.y t).
  - destruct (createDirectories_run (dir_toplevel s +:+ "/") layer_names
                ("/" +:+ pretty zoom_level +:+ "/" +:+ pretty (Tile.x t)) s) as (d & Hrun).
    rewrite (bind_run _ _ _ _ _ Hrun). exists d.
    unfold store_element. fold grid. by rewrite Hcolumn.
Qed.

Lemma add_to_existing_zoom_blocked zoom_level layer_names layer_meta timestamp t s :
  Tile.locked t = true ->
  add_to_existing_zoom zoom_level layer_names layer_meta timestamp t s = Blocked s.
Proof. intros Hl. unfold add_to_existing_zoom, lock_tile. by rewrite Hl. Qed.

Lemma stable_createDirectories I toplevel layer_names tile_tree :
  (forall s d, I s -> I (set_directories d s)) ->
  stable I (createDirectories toplevel layer_names tile_tree).
Proof.
  intros HI. unfold createDirectories. apply stable_mfor. intros n _.
  unfold createDir. apply stable_modify. intros s Hs. by apply HI.
Qed.

Lemma add_frame_existing_zoom zoom_level tiles s0 layer_names layer_meta timestamp t :
  t ∈ tiles ->
  stable (add_frame zoom_level tiles s0)
         (add_to_existing_zoom zoom_level layer_names layer_meta timestamp t).
Proof.
  intros Ht s Hs. destruct (Tile.locked t) eqn:Hl.
  - by rewrite add_to_existing_zoom_blocked.
  - destruct (add_to_existing_zoom_run zoom_level layer_names layer_meta timestamp t s Hl)
      as (d & ->).
    destruct Hs as (Huntouched & Hpred & Hprev). split; [|done].
    intros k Hk.
    change (elem k (set_cache (store_element (zoom_level, Tile.x t, Tile.y t)
                                 (CacheElement.mk timestamp layer_meta t false) (cache s)) s)
            = elem k s0).
    rewrite elem_store_ne; [by apply Huntouched|].
    intros <-. destruct Hk as [Hk|Hk]; [done|]. by apply (Hk t).
Qed.

(** On a new zoom level the body of the loop does not return. *)
Lemma add_to_new_zoom_never_returns I zoom_level layer_names layer_meta timestamp tile_grid t :
  triple I (add_to_new_zoom zoom_level None layer_names layer_meta timestamp tile_grid t)
         (fun _ _ => False) I.
Proof.
  unfold add_to_new_zoom, lock_tile.
  eapply (triple_bind _ _ _ (fun _ => I)).
  { destruct (Tile.locked t); [by apply triple_block|by apply triple_ret]. }
  intros []. eapply (triple_bind _ _ _ (fun _ => I)); [by apply triple_gets|].
  intros toplevel.
  eapply (triple_bind _ _ _ (fun _ _ => False)); [apply triple_undefined|].
  by intros zoom_grid s [].
Qed.

Lemma add_frame_updatePrediction zoom_level tiles s0 roi_current :
  stable (add_frame zoom_level tiles s0) (updatePrediction zoom_level roi_current).
Proof.
  unfold updatePrediction. stable_steps; apply stable_modify;
    intros s (Huntouched & Hpred & Hprev); (split; [done|]); split; cbn;
    intros z Hz; rewrite ?lookup_insert_ne by done; auto.
Qed.

(** Every step of [add] that is defined keeps the frame. *)
Lemma stable_add zoom_level tiles roi_idx s0 :
  stable (add_frame zoom_level tiles s0) (add zoom_level tiles roi_idx).
Proof.
  destruct tiles as [|t0 tiles'] eqn:Htiles; [by intros s Hs|].
  rewrite <- Htiles. unfold add.
  apply stable_bind; [rewrite Htiles; apply stable_ret|]. intros t.
  apply stable_bind; [destruct (Tile.data t); stable_steps|]. intros d0. cbv zeta.
  apply stable_bind; [apply stable_gets|]. intros toplevel.
  apply stable_bind; [apply stable_gets|]. intros has_init.
  apply stable_bind.
  { destruct (negb has_init); stable_steps;
      [by apply stable_createDirectories|by apply stable_modify]. }
  intros []. apply stable_bind; [apply stable_gets|]. intros c.
  apply stable_bind; [apply stable_gets|]. intros timestamp.
  apply stable_bind; [|intros []; stable_steps;
                        [apply add_frame_updatePrediction|by apply stable_modify]].
  destruct (c !! zoom_level).
  - apply stable_mfor. intros t' Ht'. by apply add_frame_existing_zoom.
  - apply stable_bind; [by apply stable_createDirectories|]. intros [].
    unfold stable.
    eapply (triple_bind _ _ _ (fun _ _ => False)); [|by intros tile_grid s []].
    rewrite Htiles at 2. simpl.
    eapply (triple_bind _ _ _ (fun _ _ => False));
      [apply add_to_new_zoom_never_returns|by intros tile_grid s []].
Qed.

(** The frame of [add] holds in whatever state a call ends; a call ends
    in a state when it waits for a locked tile, and would when a previous
    request were recorded. *)
Lemma add_defined_steps_keep_frame zoom_level tiles roi_idx s s' :
  final_state (add zoom_level tiles roi_idx s) = Some s' ->
  add_frame zoom_level tiles s s'.
Proof.
  intros Hfinal. eapply stable_final_state; [apply stable_add| |exact Hfinal].
  by repeat split.
Qed.

Section add_never_returns.
Context (zoom_level : Z).

Lemma stable_add_to_existing_zoom z layer_names layer_meta timestamp t :
  stable (no_previous_request zoom_level)
    (add_to_existing_zoom z layer_names layer_meta timestamp t).
Proof.
  unfold add_to_existing_zoom, lock_tile. stable_steps;
    first [by apply stable_createDirectories | by apply stable_modify].
Qed.

Lemma stable_add_to_new_zoom z it_zoom layer_names layer_meta timestamp tile_grid t :
  stable (no_previous_request zoom_level)
    (add_to_new_zoom z it_zoom layer_names layer_meta timestamp tile_grid t).
Proof.
  unfold add_to_new_zoom, lock_tile. stable_steps; by apply stable_createDirectories.
Qed.

Lemma no_return_bind {A B} (m : M A) (f : A -> M B) :
  stable (no_previous_request zoom_level) m ->
  (forall a, triple (no_previous_request zoom_level) (f a) (fun _ _ => False) (fun _ => True)) ->
  triple (no_previous_request zoom_level) (bind m f) (fun _ _ => False) (fun _ => True).
Proof.
  intros Hm Hf. eapply triple_bind; [|exact Hf].
  eapply triple_conseq; [exact Hm|done|done|done].
Qed.

(** Read with the C++ standard, every call of [add] ends with the
    assignment through [it_roi_prev_request] in [updatePrediction].  No
    previous request is ever recorded, so the iterator is [end()]: whatever
    the zoom level and the store hold, the behaviour of the call is not
    defined. *)
Lemma add_never_returns tiles roi_idx s :
  no_previous_request zoom_level s ->
  forall s', add zoom_level tiles roi_idx s ≠ Return tt s'.
Proof.
  intros Hs s' Hrun.
  assert (triple (no_previous_request zoom_level) (add zoom_level tiles roi_idx)
            (fun _ _ => False) (fun _ => True)) as Hadd.
  { unfold add.
    apply no_return_bind; [destruct tiles; stable_steps|]. intros t0.
    apply no_return_bind; [destruct (Tile.data t0); stable_steps|]. intros d0. cbv zeta.
    apply no_return_bind; [stable_steps|]. intros toplevel.
    apply no_return_bind; [stable_steps|]. intros has_init.
    apply no_return_bind.
    { destruct (negb has_init); stable_steps;
        first [by apply stable_createDirectories | by apply stable_modify]. }
    intros []. apply no_return_bind; [stable_steps|]. intros c.
    apply no_return_bind; [stable_steps|]. intros timestamp.
    apply no_return_bind.
    { destruct (c !! zoom_level); stable_steps.
      - apply stable_add_to_existing_zoom.
      - by apply stable_createDirectories.
      - apply stable_mfold. intros. apply stable_add_to_new_zoom.
      - by apply stable_modify. }
    intros [] s1 Hs1. unfold bind.
    by rewrite (updatePrediction_without_previous _ _ _ Hs1). }
  specialize (Hadd s Hs). by rewrite Hrun in Hadd.
Qed.
End add_never_returns.

Lemma add_never_returns_witness :
  no_previous_request 5 populated_cache
  /\ forall s', add 5 [color_tile 5 0 0] (Rect.mk 0 0 1 1) populated_cache ≠ Return tt s'.
Proof. split; [reflexivity | apply add_never_returns; reflexivity]. Defined.

Example add_existing_zoom_level :
  add 5 [color_tile 5 0 0] (Rect.mk 0 0 1 1) populated_cache
  = Undefined end_iterator_dereference.
Proof. vm_compute. reflexivity. Qed.

Lemma createDirectories_then {A} toplevel layer_names tile_tree (f : unit -> M A) s :
  exists d, bind (createDirectories toplevel layer_names tile_tree) f s
            = f tt (set_directories d s).
Proof.
  destruct (createDirectories_run toplevel layer_names tile_tree s) as (d & Hrun).
  exists d. by rewrite (bind_run _ _ _ _ _ Hrun).
Qed.

(** Read with the C++ standard, [add] for a zoom level that the cache
    does not hold yet: in the branch for a new zoom level the body of the
    loop evaluates [it_zoom->second.find(t->x())] with
    [it_zoom == _cache.end()], before it stores the tile: the behaviour of
    the call is not defined, unless it waits for the lock of the first
    tile. *)
Lemma add_on_new_zoom_level zoom_level tiles roi_idx s :
  cache s !! zoom_level = None ->
  match add zoom_level tiles roi_idx s with
  | Undefined _ => True
  | Blocked _ => exists t0 rest, tiles = t0 :: rest /\ Tile.locked t0 = true
  | Return _ _ | Throw _ _ => False
  end.
Proof.
  intros Hnew. unfold add.
  destruct tiles as [|t0 rest]; [done|].
  unfold ret at 1. unfold bind at 1.
  destruct (Tile.data t0) as [d0|]; [|done].
  unfold ret at 1. unfold bind at 1. cbv zeta.
  unfold gets at 1 2. unfold bind at 1 2.
  assert (exists s1, cache s1 = cache s /\
            forall f : unit -> M unit,
              bind (if negb (has_init_directories s)
                    then createDirectories (dir_toplevel s +:+ "/")
                           (CvGridMap.getAllLayerNames d0) "" ;;;
                         modify (set_has_init_directories true)
                    else ret tt) f s = f tt s1) as (s1 & Hcache & ->).
  { destruct (negb (has_init_directories s)).
    - destruct (createDirectories_run (dir_toplevel s +:+ "/")
                  (CvGridMap.getAllLayerNames d0) "" s) as (d & Hrun).
      exists (set_has_init_directories true (set_directories d s)). split; [done|].
      intros f. unfold bind at 1 2. by rewrite Hrun.
    - by exists s. }
  unfold gets at 1 2. unfold bind at 1 2. rewrite Hcache, Hnew.
  unfold bind at 1.
  destruct (createDirectories_then (dir_toplevel s +:+ "/") (CvGridMap.getAllLayerNames d0)
              ("/" +:+ pretty zoom_level)
              (fun _ => tile_grid <- mfold (add_to_new_zoom zoom_level None
                           (CvGridMap.getAllLayerNames d0)
                           (omap (fun layer_name =>
                              (fun layer => LayerMetaData.mk layer_name
                                              (Mat.type (CvGridMap.data layer))
                                              (CvGridMap.interpolation layer))
                                <$> CvGridMap.getLayer d0 layer_name)
                              (CvGridMap.getAllLayerNames d0))
                           (now s1)) (t0 :: rest) ∅ ;;
                         modify (fun s => set_cache (<[zoom_level := tile_grid]> (cache s)) s))
              s1) as (d & ->).
  simpl. unfold add_to_new_zoom at 1, lock_tile. unfold bind at 1 2 3.
  destruct (Tile.locked t0) eqn:Hlocked; simpl; [by exists t0, rest|done].
Qed.

Lemma add_on_new_zoom_level_witness :
  cache fresh_cache !! 5 = None
  /\ match add 5 [color_tile 5 0 0] (Rect.mk 0 0 1 1) fresh_cache with
     | Undefined _ => True
     | Blocked _ => exists t0 rest, [color_tile 5 0 0] = t0 :: rest /\ Tile.locked t0 = true
     | Return _ _ | Throw _ _ => False
     end.
Proof. split; [reflexivity | apply add_on_new_zoom_level; reflexivity]. Defined.

Example add_new_zoom_level :
  add 5 [color_tile 5 0 0] (Rect.mk 0 0 1 1) fresh_cache = Undefined end_iterator_dereference.
Proof. reflexivity. Qed.

(** * The loops over the store *)

Lemma mfor_app {A} (l1 l2 : list A) (body : A -> M unit) s :
  mfor (l1 ++ l2) body s = (mfor l1 body ;;; mfor l2 body) s.
Proof.
  revert s. induction l1 as [|a l1 IH]; intros s; simpl; [done|].
  unfold bind. destruct (body a s) as [[] s1| | |]; [apply IH|done..].
Qed.

Lemma mfor_ext {A} (l : list A) (f g : A -> M unit) :
  (forall a s, f a s = g a s) -> forall s, mfor l f s = mfor l g s.
Proof.
  intros H. induction l as [|a l IH]; intros s; simpl; [done|].
  unfold bind. rewrite H. destruct (g a s); [apply IH|done..].
Qed.

Lemma mfor_list_bind {A B} (l : list A) (f : A -> list B) (body : B -> M unit) s :
  mfor (l ≫= f) body s = mfor l (fun a => mfor (f a) body) s.
Proof.
  revert s. induction l as [|a l IH]; intros s; [done|].
  rewrite bind_cons, mfor_app. simpl. unfold bind.
  destruct (mfor (f a) body s); [apply IH|done..].
Qed.

(** The three nested loops run the body on the keys of the store, one
    after the other. *)
Lemma for_each_element_all_keys c (body : key -> M unit) s :
  for_each_element c body s = mfor (all_keys c) body s.
Proof.
  unfold for_each_element, all_keys. rewrite mfor_list_bind.
  apply mfor_ext. intros z s1. rewrite mfor_list_bind.
  apply mfor_ext. intros x s2. rewrite mfor_list_bind.
  apply mfor_ext. intros y s3. simpl. unfold bind, ret.
  by destruct (body (z, x, y) s3) as [[] ?| | |].
Qed.

Lemma elem_of_all_keys k c : k ∈ all_keys c <-> is_Some (lookup_element k c).
Proof.
  destruct k as [[z x] y]. unfold all_keys, lookup_element.
  rewrite list_elem_of_bind. split.
  - intros (z' & Hin & Hz).
    apply list_elem_of_bind in Hin as (x' & Hin & Hx).
    apply list_elem_of_bind in Hin as (y' & Hin & Hy).
    apply list_elem_of_singleton in Hin. injection Hin as -> -> ->.
    apply elem_of_keys_ascending in Hz as [grid Hz]. rewrite Hz in Hx, Hy |- *. simpl in *.
    apply elem_of_keys_ascending in Hx as [column Hx]. rewrite Hx in Hy |- *. simpl in *.
    by apply elem_of_keys_ascending in Hy.
  - intros He. destruct (c !! z) as [grid|] eqn:Hz; [|by destruct He].
    destruct (grid !! x) as [column|] eqn:Hx; [|by destruct He].
    exists z. split; [|apply elem_of_keys_ascending; by eauto].
    apply list_elem_of_bind. exists x. rewrite Hz. simpl.
    split; [|apply elem_of_keys_ascending; by eauto].
    apply list_elem_of_bind. exists y. rewrite Hx. simpl.
    split; [by apply list_elem_of_singleton|]. by apply elem_of_keys_ascending.
Qed.

(** * The update request *)

Lemma set_do_update_false_id s : do_update s = false -> set_do_update false s = s.
Proof. destruct s. simpl. by intros ->. Qed.

Lemma process_returns_do_update s b s' : process s = Return b s' -> b = do_update s.
Proof.
  intros Hrun. unfold process in Hrun. unfold bind at 1 2, gets at 1, modify at 1 in Hrun.
  destruct (do_update s).
  - unfold bind, gets, ret in Hrun. destruct (mfor _ _ _) as [[] s1| | |]; by simplify_eq.
  - by injection Hrun as <- <-.
Qed.

(** X1: a cycle of the worker returns whether an update was requested, and
    takes the request: when [process] returns, [_do_update] is false, and a
    cycle that follows at once returns [false] and changes nothing. *)
Theorem process_consumes_update s b s' :
  process s = Return b s' ->
  b = do_update s /\ do_update s' = false /\ process s' = Return false s'.
Proof.
  intros Hrun.
  assert (b = do_update s /\ do_update s' = false) as [Hb Hclear].
  { unfold process in Hrun. unfold bind at 1 2, gets at 1, modify at 1 in Hrun.
    destruct (do_update s) eqn:Hdu.
    - split.
      + unfold bind, gets, ret in Hrun.
        destruct (mfor _ _ _) as [[] s1| | |]; by simplify_eq.
      + eapply (stable_final_state (fun s => do_update s = false));
          [| |by rewrite Hrun].
        * stable_steps. apply stable_process_zoom; [by intros x y s0 e e' Hs _ _|by split].
        * done.
    - injection Hrun as <- <-. done. }
  split; [exact Hb|]. split; [exact Hclear|].
  unfold process. unfold bind at 1 2, gets at 1, modify at 1. rewrite Hclear.
  unfold ret. by rewrite set_do_update_false_id.
Qed.

Lemma process_consumes_update_witness :
  let s := cache_with [((5, 0, 0), color_element 5 0 0 false)] (Rect.mk 3 3 1 1) in
  let s' := match process s with Return _ s' => s' | _ => s end in
  process s = Return true s'
  /\ true = do_update s /\ do_update s' = false /\ process s' = Return false s'.
Proof.
  intros s s'.
  assert (process s = Return true s') as H by (vm_compute; reflexivity).
  split; [exact H|]. exact (process_consumes_update s true s' H).
Defined.

(** * What the worker and the readers never change *)

Lemma same_element_refl e : same_element e e.
Proof. by repeat split. Qed.

Lemma same_element_worker_update e0 e e' :
  same_element e0 e -> worker_update e e' -> same_element e0 e'.
Proof.
  intros (Hts & Hmeta & Hcoords & Hw) (d & l & w & ->).
  split; [done|]. split; [done|]. split; [done|].
  intros H0. simpl. by rewrite (Hw H0).
Qed.

Lemma worker_frame_refl s : worker_frame s s.
Proof.
  repeat (split; [done|]). intros k. destruct (elem k s); constructor.
  apply same_element_refl.
Qed.

Lemma worker_frame_survives_update s0 k : survives_update k worker_update (worker_frame s0).
Proof.
  intros s e e' (? & ? & ? & ? & ? & ? & Hel) He Hupd.
  repeat (split; [done|]). intros k'. rewrite elem_store.
  case_decide as Hk; [|apply Hel]. subst k'.
  specialize (Hel k). rewrite He in Hel. inversion Hel as [e0 ? Hsame Heq0|]; subst.
  constructor. by eapply same_element_worker_update.
Qed.

Lemma worker_frame_survives_io s0 : survives_io (worker_frame s0).
Proof. by split. Qed.

(** The steps of the worker, for an invariant that does not look at the
    store, and that saving a file and recording an event keep. *)
Section disk_steps.
Context (I : state -> Prop).
Context (Hcache : forall s c, I s -> I (set_cache c s)).
Context (Hsave : forall s f d, I s -> I (set_files (<[f := d]> (files s)) s)).
Context (Hemit : forall s ev, I s -> I (set_trace (trace s ++ [ev]) s)).

Lemma disk_survives_update k F : survives_update k F I.
Proof. intros s e e' Hs _ _. by apply Hcache. Qed.

Lemma disk_write_layer k meta : stable I (write_layer k meta).
Proof.
  unfold write_layer. stable_steps.
  - apply stable_tile_data.
  - apply stable_modify. intros s1 Hs. by apply Hsave.
  - apply stable_modify. intros s1 Hs. by apply Hemit.
  - apply (stable_update_element _ _ (fun _ _ => True)); [apply disk_survives_update|done].
Qed.

Lemma disk_remove_layer k layer : stable I (remove_layer k layer).
Proof.
  unfold remove_layer. stable_steps.
  - apply stable_tile_data.
  - apply stable_modify. intros s1 Hs. by apply Hemit.
  - apply stable_set_tile_data, disk_survives_update.
Qed.

Lemma disk_write k : stable I (write k).
Proof. apply stable_write_from_layers, disk_write_layer. Qed.

Lemma disk_flush k : stable I (flush k).
Proof. apply stable_flush_from_layers; [apply disk_write_layer|apply disk_remove_layer]. Qed.

Lemma disk_process : (forall s, I s -> I (set_do_update false s)) -> stable I process.
Proof.
  intros Hdo. apply stable_process_from_elements; [|exact Hdo].
  intros roi k. apply stable_process_element_from_layers;
    [apply disk_survives_update|apply disk_write_layer|apply disk_remove_layer].
Qed.

Lemma disk_flushAll : stable I flushAll.
Proof.
  unfold flushAll, for_each_element. stable_steps.
  - apply stable_lock, disk_survives_update.
  - apply disk_write.
  - apply stable_set_tile_data, disk_survives_update.
  - apply stable_unlock, disk_survives_update.
Qed.
End disk_steps.

Lemma disk_grows_refl s : disk_grows s s.
Proof. split; [done|]. exists []. by rewrite app_nil_r. Qed.

Lemma operations_worker_frame o s s' :
  final_state_of o s = Some s' -> worker_frame s s'.
Proof.
  intros Hfinal.
  pose proof (worker_frame_survives_update s) as HI.
  pose proof (worker_frame_survives_io s) as Hio.
  assert (forall k, survives_update k payload_update (worker_frame s)) as HI'.
  { intros k. by apply survives_payload_update. }
  destruct o; simpl in Hfinal;
    (eapply (stable_final_state (worker_frame s));
     [|apply worker_frame_refl|exact Hfinal]).
  - by apply stable_write.
  - by apply stable_load.
  - by apply stable_flush.
  - by apply stable_process.
  - by apply stable_get.
  - by apply stable_flushAll.
  - by apply stable_loadAll.
Qed.

Lemma operations_disk_grows o s s' :
  final_state_of o s = Some s' -> disk_grows s s'.
Proof.
  intros Hfinal.
  assert (forall s1 c, disk_grows s s1 -> disk_grows s (set_cache c s1)) as Hcache by done.
  assert (forall s1 f d, disk_grows s s1 ->
            disk_grows s (set_files (<[f := d]> (files s1)) s1)) as Hsave.
  { intros s1 f d [Hfiles Htrace]. split; [|done].
    intros f' Hf'. cbn. apply lookup_insert_is_Some'. right. by apply Hfiles. }
  assert (forall s1 ev, disk_grows s s1 ->
            disk_grows s (set_trace (trace s1 ++ [ev]) s1)) as Hemit.
  { intros s1 ev [Hfiles [evs Htrace]]. split; [done|].
    exists (evs ++ [ev]). cbn. by rewrite Htrace, app_assoc. }
  assert (forall k, survives_update k payload_update (disk_grows s)) as HI.
  { intros k. by apply disk_survives_update. }
  destruct o; simpl in Hfinal;
    (eapply (stable_final_state (disk_grows s));
     [|apply disk_grows_refl|exact Hfinal]).
  - by apply disk_write.
  - by apply stable_load.
  - by apply disk_flush.
  - by apply disk_process.
  - by apply stable_get.
  - by apply disk_flushAll.
  - by apply stable_loadAll.
Qed.

(** The keys of the store are the same after any of these operations. *)
Lemma operations_keep_keys o s s' k :
  final_state_of o s = Some s' -> is_Some (elem k s') <-> is_Some (elem k s).
Proof.
  intros Hfinal. apply operations_worker_frame in Hfinal as (_ & _ & _ & _ & _ & _ & Hel).
  specialize (Hel k). inversion Hel; split; intros [? ?]; by eauto.
Qed.

(** X2: whichever way [write], [load], [flush], a cycle of the worker, [get],
    [flushAll] or [loadAll] ends: the store has the keys it had, every
    element has its timestamp, its metadata and the coordinates of its
    tile, and keeps [was_written] if it was set; the output directory, the
    ROI maps and the directories on disk are unchanged; no file has been
    deleted, and the trace has only grown. *)
Theorem operations_keep_the_store o s s' :
  final_state_of o s = Some s' -> worker_frame s s' /\ disk_grows s s'.
Proof.
  intros Hfinal. split; [by eapply operations_worker_frame|by eapply operations_disk_grows].
Qed.

Lemma operations_keep_the_store_witness :
  let s := cache_with [((5, 0, 0), color_element 5 0 0 false)] (Rect.mk 3 3 1 1) in
  let s' := match process s with Return _ s' => s' | _ => s end in
  final_state_of op_process s = Some s'
  /\ files s = ∅
  /\ is_Some (files s' !! "out/color/5/0/0.png")
  /\ worker_frame s s' /\ disk_grows s s'.
Proof.
  intros s s'.
  assert (final_state_of op_process s = Some s') as H by (vm_compute; reflexivity).
  split; [exact H|]. split; [reflexivity|]. split; [by eexists; vm_compute|].
  exact (operations_keep_the_store op_process s s' H).
Defined.

(** * The tile lock *)

Lemma locked_at_survives_keeps_lock k k' : survives_update k' keeps_lock (locked_at k).
Proof.
  intros s e e' (e0 & He0 & Hl) He Hupd. unfold locked_at. rewrite elem_store.
  case_decide as Hk; [|by exists e0]. subst k'.
  exists e'. split; [done|]. rewrite Hupd. congruence.
Qed.

Lemma locked_at_survives_other k k' F : k' ≠ k -> survives_update k' F (locked_at k).
Proof.
  intros Hne s e e' (e0 & He0 & Hl) _ _. exists e0. split; [|done].
  by rewrite elem_store_ne.
Qed.

Lemma locked_at_survives_io k : survives_io (locked_at k).
Proof. by split. Qed.

(** [load] does not release a lock. *)
Lemma locked_at_load k k' : stable (locked_at k) (load k').
Proof.
  unfold load, load_layer. stable_steps.
  - apply stable_tile_data.
  - unfold set_tile_data.
    apply (stable_update_element _ _ keeps_lock); [apply locked_at_survives_keeps_lock|].
    intros e0. unfold keeps_lock. by destruct e0 as [? ? [] ?].
Qed.

(** However [get] of a key of the store ends, the tile is locked. *)
Lemma get_ends_locked tx ty zoom_level s s' :
  is_Some (elem (zoom_level, tx, ty) s) ->
  final_state (get tx ty zoom_level s) = Some s' ->
  locked_at (zoom_level, tx, ty) s'.
Proof.
  intros [e He] Hfinal. set (k := (zoom_level, tx, ty)) in *.
  rewrite (get_present_eq _ _ _ _ _ He) in Hfinal. cbv zeta in Hfinal. fold k in Hfinal.
  destruct (Tile.locked (CacheElement.tile e)) eqn:Hl.
  - rewrite (bind_blocked _ _ _ _ (lock_blocked _ _ _ He Hl)) in Hfinal.
    injection Hfinal as <-. by exists e.
  - rewrite (bind_run _ _ _ _ _ (lock_run _ _ _ He Hl)) in Hfinal.
    eapply (stable_final_state (locked_at k)); [| |exact Hfinal].
    + stable_steps.
      * apply stable_isCached.
      * apply locked_at_load.
    + eexists. split; [apply elem_store_eq|done].
Qed.

(** C10 (amended): [get] leaves the keys of the cache, every element's
    [was_written], layer metadata and timestamp, the ROI prediction state
    and the disk as they are; every element but the addressed one is
    untouched; of the addressed element the tile's raster container may
    change, and only when it was empty; and the tile's lock changes: [get]
    takes it, and the tile is locked however [get] ends. *)
Theorem get_frame tx ty zoom_level s s' :
  final_state (get tx ty zoom_level s) = Some s' ->
  same_outside_store s s'
  /\ (forall k, is_Some (elem k s') <-> is_Some (elem k s))
  /\ (forall k e, elem k s = Some e ->
        exists e', elem k s' = Some e'
          /\ CacheElement.was_written e' = CacheElement.was_written e
          /\ CacheElement.layer_meta e' = CacheElement.layer_meta e
          /\ CacheElement.timestamp e' = CacheElement.timestamp e
          /\ Tile.zoom_level (CacheElement.tile e') = Tile.zoom_level (CacheElement.tile e)
          /\ Tile.x (CacheElement.tile e') = Tile.x (CacheElement.tile e)
          /\ Tile.y (CacheElement.tile e') = Tile.y (CacheElement.tile e)
          /\ (k ≠ (zoom_level, tx, ty) -> e' = e)
          /\ (k = (zoom_level, tx, ty) -> Tile.locked (CacheElement.tile e') = true)
          /\ (forall c, Tile.data (CacheElement.tile e) = Some c -> CvGridMap.empty c = false ->
                Tile.data (CacheElement.tile e') = Some c)).
Proof.
  intros Hfinal.
  assert (payload_frame (zoom_level, tx, ty) s s') as (Hout & Hother & Hk).
  { eapply stable_final_state; [|apply payload_frame_refl|exact Hfinal].
    apply stable_get, payload_frame_survives. }
  split; [exact Hout|]. split.
  - intros k. destruct (decide (k = (zoom_level, tx, ty))) as [->|Hne].
    + inversion Hk; split; intros [? ?]; by eauto.
    + by rewrite Hother.
  - intros k e He. destruct (decide (k = (zoom_level, tx, ty))) as [->|Hne].
    + pose proof (get_ends_locked tx ty zoom_level s s' (ex_intro _ e He) Hfinal)
        as (e1 & He1 & Hl1).
      rewrite He in Hk. inversion Hk as [e0 e' Hupd H0 Heq|]; subst e0.
      destruct Hupd as (d & l & ->). symmetry in Heq.
      exists (CacheElement.set_tile
                (Tile.set_locked l (Tile.set_data d (CacheElement.tile e))) e).
      split_and!; try done.
      * intros _. rewrite Heq in He1. by injection He1 as <-.
      * intros c Hd Hc. destruct (Tile.locked (CacheElement.tile e)) eqn:Hl.
        -- rewrite (get_locked _ _ _ _ _ He Hl) in Hfinal. simpl in Hfinal.
           injection Hfinal as <-. rewrite He in Heq. by injection Heq as <-.
        -- rewrite (get_cached _ _ _ _ _ _ He Hl Hd Hc) in Hfinal. simpl in Hfinal.
           injection Hfinal as <-. rewrite elem_store_eq in Heq. by injection Heq as <-.
    + exists e. rewrite Hother by done. by repeat split.
Qed.

Lemma get_frame_witness :
  let s' := match get 0 0 5 evicted_cache with Return _ s' => s' | _ => evicted_cache end in
  final_state (get 0 0 5 evicted_cache) = Some s'
  /\ same_outside_store evicted_cache s'
  /\ locked_at (5, 0, 0) s'.
Proof.
  intros s'.
  assert (final_state (get 0 0 5 evicted_cache) = Some s') as H by (vm_compute; reflexivity).
  split; [exact H|]. split; [exact (proj1 (get_frame 0 0 5 evicted_cache s' H))|].
  destruct (proj2 (proj2 (get_frame 0 0 5 evicted_cache s' H)) (5, 0, 0) evicted_element eq_refl)
    as (e' & He' & _ & _ & _ & _ & _ & _ & _ & Hl & _).
  exists e'. split; [exact He'|]. by apply Hl.
Defined.

(** C10, as stated, fails: the raster container is not the only state
    that [get] modifies.  On a tile that is in memory and unlocked [get]
    returns with the raster container as it was and the tile locked: the
    element of the store has changed. *)
Lemma get_takes_the_lock :
  let s := cache_with [((5, 0, 0), color_element 5 0 0 true)] (Rect.mk 0 0 1 1) in
  exists t s' e',
    get 0 0 5 s = Return (Some t) s'
    /\ elem (5, 0, 0) s = Some (color_element 5 0 0 true)
    /\ elem (5, 0, 0) s' = Some e'
    /\ e' ≠ color_element 5 0 0 true
    /\ Tile.data (CacheElement.tile e') = Tile.data (CacheElement.tile (color_element 5 0 0 true))
    /\ Tile.locked (CacheElement.tile (color_element 5 0 0 true)) = false
    /\ Tile.locked (CacheElement.tile e') = true.
Proof.
  intros s. do 3 eexists. split; [vm_compute; reflexivity|].
  split; [reflexivity|]. split; [vm_compute; reflexivity|].
  split; [discriminate|]. by repeat split.
Qed.

(** X3: [get] hands the tile out locked and does not unlock it, however it
    ends: when [get] of a key of the store ends in a state, the tile is
    locked in that state, a result that [get] returns is the tile of that
    state, and the next [get] of the same key waits for the lock. *)
Theorem get_keeps_the_lock tx ty zoom_level s s' :
  is_Some (elem (zoom_level, tx, ty) s) ->
  final_state (get tx ty zoom_level s) = Some s' ->
  locked_at (zoom_level, tx, ty) s'
  /\ (forall r, get tx ty zoom_level s = Return r s' ->
        exists e, elem (zoom_level, tx, ty) s' = Some e /\ r = Some (CacheElement.tile e))
  /\ get tx ty zoom_level s' = Blocked s'.
Proof.
  intros [e He] Hfinal. set (k := (zoom_level, tx, ty)) in *.
  assert (locked_at k s'
          /\ forall r, get tx ty zoom_level s = Return r s' ->
               exists e, elem k s' = Some e /\ r = Some (CacheElement.tile e))
    as [Hlocked Hresult].
  { rewrite (get_present_eq _ _ _ _ _ He) in Hfinal |- *. cbv zeta in Hfinal |- *. fold k in Hfinal |- *.
    destruct (Tile.locked (CacheElement.tile e)) eqn:Hl.
    - rewrite (bind_blocked _ _ _ _ (lock_blocked _ _ _ He Hl)) in Hfinal |- *.
      injection Hfinal as <-. split; [by exists e|]. by intros r ?.
    - rewrite (bind_run _ _ _ _ _ (lock_run _ _ _ He Hl)) in Hfinal |- *.
      set (s1 := set_cache _ s) in *.
      assert (locked_at k s1) as Hs1.
      { eexists. split; [apply elem_store_eq|done]. }
      assert (triple (locked_at k)
                (cached <- isCached k ;;
                 (if negb cached then load k else ret tt) ;;;
                 e0 <- element k ;; ret (Some (CacheElement.tile e0)))
                (fun r s2 => locked_at k s2
                             /\ exists e0, elem k s2 = Some e0
                                           /\ r = Some (CacheElement.tile e0))
                (locked_at k)) as Hrest.
      { eapply triple_bind; [apply stable_isCached|]. intros cached.
        eapply triple_bind.
        { destruct cached; cbn [negb]; [apply stable_ret|apply locked_at_load]. }
        intros []. eapply triple_bind.
        { apply (triple_element _ _ (fun e0 s2 => locked_at k s2 /\ elem k s2 = Some e0)).
          by intros e0 s2 ? ?. }
        intros e0. apply triple_ret. intros s2 [? ?]. split; [done|]. by exists e0. }
      specialize (Hrest s1 Hs1).
      destruct ((cached <- isCached k ;; _) s1) as [r s2|ex s2|s2|u] eqn:Hrun;
        simpl in Hfinal; simplify_eq; [|by split; [|intros ? ?]..].
      destruct Hrest as [Hl' He']. split; [done|]. intros r' Hr'. by simplify_eq. }
  split; [exact Hlocked|]. split; [exact Hresult|].
  destruct Hlocked as (e' & He' & Hl'). by apply (get_locked _ _ _ _ e').
Qed.

Lemma get_keeps_the_lock_witness :
  let s' := match get 0 0 5 evicted_cache with Return _ s' => s' | _ => evicted_cache end in
  is_Some (elem (5, 0, 0) evicted_cache)
  /\ final_state (get 0 0 5 evicted_cache) = Some s'
  /\ locked_at (5, 0, 0) s'
  /\ (forall r, get 0 0 5 evicted_cache = Return r s' ->
        exists e, elem (5, 0, 0) s' = Some e /\ r = Some (CacheElement.tile e))
  /\ get 0 0 5 s' = Blocked s'.
Proof.
  intros s'.
  assert (is_Some (elem (5, 0, 0) evicted_cache)) as He by (by eexists; vm_compute).
  assert (final_state (get 0 0 5 evicted_cache) = Some s') as H by (vm_compute; reflexivity).
  split; [exact He|]. split; [exact H|].
  exact (get_keeps_the_lock 0 0 5 evicted_cache s' He H).
Defined.

(** A loop does not return when the body does not return for one of its
    elements, and the precondition of that holds until then. *)
Lemma mfor_never_returns {A} `{EqDecision A} (I : state -> Prop) (l : list A)
    (body : A -> M unit) (a : A) :
  a ∈ l ->
  (forall a', a' ∈ l -> a' ≠ a -> stable I (body a')) ->
  triple I (body a) (fun _ _ => False) (fun _ => True) ->
  triple I (mfor l body) (fun _ _ => False) (fun _ => True).
Proof.
  intros Hin Hother Ha. induction l as [|a0 l IH]; [by apply elem_of_nil in Hin|].
  simpl. destruct (decide (a0 = a)) as [->|Hne].
  - eapply triple_bind; [exact Ha|]. by intros [] s [].
  - eapply (triple_bind _ _ _ (fun _ => I)).
    + eapply triple_conseq; [apply (Hother a0); [by left|done]|done|done|done].
    + intros []. apply IH.
      * apply elem_of_cons in Hin as [->|Hin]; done.
      * intros a' Ha' Hne'. apply Hother; [by right|done].
Qed.

Lemma lock_never_returns k : triple (locked_at k) (lock k) (fun _ _ => False) (fun _ => True).
Proof.
  intros s (e & He & Hl). by rewrite (lock_blocked _ _ _ He Hl).
Qed.

Lemma never_returns_bind {A B} (I : state -> Prop) (m : M A) (f : A -> M B) :
  triple I m (fun _ _ => False) (fun _ => True) ->
  triple I (bind m f) (fun _ _ => False) (fun _ => True).
Proof. intros Hm. eapply triple_bind; [exact Hm|]. by intros a s []. Qed.

Lemma locked_at_stalls_process_element k roi :
  triple (locked_at k) (process_element roi k) (fun _ _ => False) (fun _ => True).
Proof. apply never_returns_bind, lock_never_returns. Qed.

Lemma locked_at_process_element k roi k' :
  k' ≠ k -> stable (locked_at k) (process_element roi k').
Proof.
  intros Hne. apply stable_process_element;
    [by apply locked_at_survives_other|apply locked_at_survives_io].
Qed.

Lemma locked_at_stalls_process k s :
  locked_at k s -> do_update s = true -> forall b s', process s ≠ Return b s'.
Proof.
  intros Hlocked.
  intros Hdu b s' Hrun. unfold process in Hrun.
  unfold bind at 1 2 3, gets at 1 2, modify at 1 in Hrun. rewrite Hdu in Hrun.
  set (s1 := set_do_update false s) in *. change (cache s1) with (cache s) in Hrun.
  destruct k as [[z x] y].
  destruct Hlocked as (e & He & Hl). pose proof He as Hlookup.
  unfold elem, lookup_element in Hlookup.
  destruct (cache s !! z) as [grid|] eqn:Hz; [|done].
  destruct (grid !! x) as [column|] eqn:Hx; [|done].
  assert (triple (locked_at (z, x, y))
            (mfor (keys_ascending (cache s)) (process_zoom (cache s)))
            (fun _ _ => False) (fun _ => True)) as Hloop.
  { apply (mfor_never_returns _ _ _ z).
    - apply elem_of_keys_ascending. by eauto.
    - intros z' _ Hne. apply stable_process_zoom; [|apply locked_at_survives_io].
      intros x' y'. apply locked_at_survives_other. congruence.
    - unfold process_zoom. eapply triple_bind; [apply (triple_gets _ _ (fun _ => locked_at (z, x, y))); auto|].
      intros pred. eapply (triple_bind _ _ _ (fun _ => locked_at (z, x, y))).
      { destruct (pred !! z); [by apply triple_ret|by apply triple_throw]. }
      intros roi. rewrite Hz. simpl.
      apply (mfor_never_returns _ _ _ x).
      + apply elem_of_keys_ascending. by eauto.
      + intros x' _ Hne. apply stable_process_column; [|apply locked_at_survives_io].
        intros y'. apply locked_at_survives_other. congruence.
      + unfold process_column. rewrite Hz. simpl. rewrite Hx. simpl.
        apply (mfor_never_returns _ _ _ y).
        * apply elem_of_keys_ascending. by eauto.
        * intros y' _ Hne. apply locked_at_process_element. congruence.
        * apply locked_at_stalls_process_element. }
  assert (locked_at (z, x, y) s1) as Hs1 by (by exists e).
  specialize (Hloop s1 Hs1).
  unfold bind in Hrun.
  destruct (mfor _ _ s1) as [[] s2| | |]; [done|done..].
Qed.

(** X4: a tile that is locked stalls the worker and the bulk operations: as
    long as the tile of one element of the store is locked (as [get]
    leaves it), no cycle of the worker with a pending update, no
    [flushAll], no [loadAll] and no destruction of the cache returns. *)
Theorem locked_tile_stalls_the_cache k s :
  locked_at k s ->
  (do_update s = true -> forall b s', process s ≠ Return b s')
  /\ (forall s', flushAll s ≠ Return tt s')
  /\ (forall s', loadAll s ≠ Return tt s')
  /\ (forall s', TileCache_destructor s ≠ Return tt s').
Proof.
  intros Hlocked.
  assert (forall s1, cache s1 = cache s -> k ∈ all_keys (cache s1)) as Hkey.
  { intros s1 ->. apply elem_of_all_keys. destruct Hlocked as (e & He & _). by exists e. }
  assert (forall s', flushAll s ≠ Return tt s') as HflushAll.
  { intros s' Hrun. unfold flushAll in Hrun. unfold bind at 1, gets at 1 in Hrun.
    rewrite for_each_element_all_keys in Hrun.
    assert (triple (locked_at k)
              (mfor (all_keys (cache s)) (fun k =>
                 lock k ;;;
                 e <- element k ;;
                 (if negb (CacheElement.was_written e) then write k else ret tt) ;;;
                 set_tile_data k None ;;;
                 unlock k))
              (fun _ _ => False) (fun _ => True)) as Hloop.
    { apply (mfor_never_returns _ _ _ k); [by apply Hkey| |].
      - intros k' _ Hne.
        pose proof (locked_at_survives_other k k' worker_update Hne) as HI.
        pose proof (locked_at_survives_io k) as Hio.
        stable_steps.
        + apply stable_lock. by apply survives_payload_update.
        + by apply stable_write.
        + apply stable_set_tile_data. by apply survives_payload_update.
        + apply stable_unlock. by apply survives_payload_update.
      - apply never_returns_bind, lock_never_returns. }
    specialize (Hloop s Hlocked). by rewrite Hrun in Hloop. }
  split; [|split; [exact HflushAll|split; [|exact HflushAll]]].
  - by apply (locked_at_stalls_process k).
  - intros s' Hrun. unfold loadAll in Hrun. unfold bind at 1, gets at 1 in Hrun.
    rewrite for_each_element_all_keys in Hrun.
    assert (triple (locked_at k)
              (mfor (all_keys (cache s)) (fun k =>
                 lock k ;;;
                 cached <- isCached k ;;
                 (if negb cached then load k else ret tt) ;;;
                 unlock k))
              (fun _ _ => False) (fun _ => True)) as Hloop.
    { apply (mfor_never_returns _ _ _ k); [by apply Hkey| |].
      - intros k' _ Hne.
        pose proof (locked_at_survives_other k k' payload_update Hne) as HI.
        stable_steps.
        + by apply stable_lock.
        + by apply stable_isCached.
        + apply locked_at_load.
        + by apply stable_unlock.
      - apply never_returns_bind, lock_never_returns. }
    specialize (Hloop s Hlocked). by rewrite Hrun in Hloop.
Qed.

Lemma locked_tile_stalls_the_cache_witness :
  let s := match get 0 0 5 evicted_cache with Return _ s' => s' | _ => evicted_cache end in
  locked_at (5, 0, 0) s
  /\ do_update s = true
  /\ (forall b s', process s ≠ Return b s')
  /\ (forall s', flushAll s ≠ Return tt s')
  /\ (forall s', loadAll s ≠ Return tt s')
  /\ (forall s', TileCache_destructor s ≠ Return tt s').
Proof.
  intros s.
  assert (locked_at (5, 0, 0) s) as Hl by (eexists; split; vm_compute; reflexivity).
  split; [exact Hl|]. split; [reflexivity|].
  destruct (locked_tile_stalls_the_cache (5, 0, 0) s Hl) as (Hprocess & Hrest).
  split; [exact (Hprocess eq_refl)|exact Hrest].
Defined.

(** * The bulk operations: [flushAll] and [loadAll] *)

(** What the body of a loop over the keys establishes for its key holds
    for every key after the loop, when the bodies of the other keys keep it. *)
Lemma mfor_keys_post (P : key -> state -> Prop) (l : list key) (body : key -> M unit) :
  (forall k, triple (fun _ => True) (body k) (fun _ => P k) (fun _ => True)) ->
  (forall k k', k' ≠ k -> stable (P k) (body k')) ->
  triple (fun _ => True) (mfor l body) (fun _ s => forall k, k ∈ l -> P k s) (fun _ => True).
Proof.
  intros Hown Hother.
  eapply triple_conseq;
    [apply (triple_mfor (fun done s => forall k, k ∈ done -> P k s) (fun _ => True))
    | |done|done].
  - intros done a rest _ s Hdone.
    pose proof (Hown a s I) as Ha.
    destruct (body a s) as [[] s1| | |] eqn:Hrun; [|done..].
    intros k [Hk| ->%list_elem_of_singleton]%elem_of_app; [|done].
    destruct (decide (k = a)) as [->|Hne]; [done|].
    pose proof (Hother k a (not_eq_sym Hne) s (Hdone k Hk)) as Hkeep.
    by rewrite Hrun in Hkeep.
  - by intros s _ k ?%elem_of_nil.
Qed.

Lemma set_tile_data_run k d s e :
  elem k s = Some e ->
  set_tile_data k d s =
  Return tt (set_cache (store_element k
               (CacheElement.set_tile (Tile.set_data d (CacheElement.tile e)) e) (cache s)) s).
Proof. intros He. unfold set_tile_data. by rewrite (update_element_run _ _ _ _ He). Qed.

Lemma unlock_run k s e :
  elem k s = Some e ->
  unlock k s =
  Return tt (set_cache (store_element k
               (CacheElement.set_tile (Tile.set_locked false (CacheElement.tile e)) e) (cache s)) s).
Proof. intros He. unfold unlock. by rewrite (update_element_run _ _ _ _ He). Qed.

(** When [write] returns, the element is marked as written, unless it
    lists no layer. *)
Lemma write_sets_flag k s s' :
  write k s = Return tt s' ->
  metas k s' = metas k s /\ (metas k s ≠ [] -> written k s' = true).
Proof.
  intros Hrun. pose proof (write_spec s k s (cycle_inv_start s)) as Hspec.
  rewrite Hrun in Hspec. destruct Hspec as [(evs & _ & _ & Hmetas & _) Hw]. by split.
Qed.

(** The body of the loop of [flushAll] (lines 247-256). *)
Lemma flushAll_body_flushed k :
  triple (fun _ => True)
    (lock k ;;;
     e <- element k ;;
     (if negb (CacheElement.was_written e) then write k else ret tt) ;;;
     set_tile_data k None ;;;
     unlock k)
    (fun _ => flushed k) (fun _ => True).
Proof.
  intros s _. unfold bind at 1.
  destruct (lock k s) as [[] s1| | |]; [|done..].
  unfold bind at 1. destruct (element k s1) as [e1 s1'| | |] eqn:He1; [|done..].
  assert (s1' = s1 /\ elem k s1 = Some e1) as [-> Helem1].
  { unfold element in He1. unfold elem. destruct (lookup_element k (cache s1)); by simplify_eq. }
  unfold bind at 1.
  destruct ((if negb (CacheElement.was_written e1) then write k else ret tt) s1)
    as [[] s2| | |] eqn:Hwrite; [|done..].
  assert (exists e2, elem k s2 = Some e2
                     /\ (CacheElement.layer_meta e2 ≠ [] -> CacheElement.was_written e2 = true))
    as (e2 & Helem2 & Hflag).
  { destruct (CacheElement.was_written e1) eqn:Hw1; cbn [negb] in Hwrite.
    - injection Hwrite as <-. by exists e1.
    - destruct (write_sets_flag _ _ _ Hwrite) as [Hmetas Hw].
      pose proof (operations_keep_keys (op_write k) s1 s2 k) as Hkeys.
      simpl in Hkeys. rewrite Hwrite in Hkeys.
      destruct (proj2 (Hkeys eq_refl)) as [e2 Helem2]; [by eauto|].
      exists e2. split; [done|]. intros Hne.
      unfold metas, written in *. rewrite Helem1, Helem2 in *.
      apply Hw. by rewrite <- Hmetas. }
  rewrite (bind_run _ _ _ _ _ (set_tile_data_run _ _ _ _ Helem2)).
  erewrite unlock_run; [|apply elem_store_eq].
  intros e'. rewrite elem_store_eq. intros [= <-]. by repeat split.
Qed.

Lemma flushed_survives_other k k' F : k' ≠ k -> survives_update k' F (flushed k).
Proof. intros Hne s e e' Hs _ _ e0. rewrite elem_store_ne by done. apply Hs. Qed.

Lemma flushed_survives_io k : survives_io (flushed k).
Proof. by split. Qed.

Lemma flushAll_flushed s s' :
  flushAll s = Return tt s' -> forall k, flushed k s'.
Proof.
  intros Hrun k e' He'.
  assert (k ∈ all_keys (cache s)) as Hk.
  { apply elem_of_all_keys.
    apply (operations_keep_keys op_flushAll s s' k); [simpl; by rewrite Hrun|by eauto]. }
  unfold flushAll in Hrun. unfold bind at 1, gets at 1 in Hrun.
  rewrite for_each_element_all_keys in Hrun.
  pose proof (mfor_keys_post flushed (all_keys (cache s)) _ flushAll_body_flushed) as Hloop.
  assert (forall k0 k', k' ≠ k0 ->
            stable (flushed k0)
              (lock k' ;;;
               e <- element k' ;;
               (if negb (CacheElement.was_written e) then write k' else ret tt) ;;;
               set_tile_data k' None ;;;
               unlock k')) as Hother.
  { intros k0 k' Hne.
    pose proof (flushed_survives_other k0 k' worker_update Hne) as HI.
    pose proof (flushed_survives_io k0) as Hio.
    stable_steps.
    - apply stable_lock. by apply survives_payload_update.
    - by apply stable_write.
    - apply stable_set_tile_data. by apply survives_payload_update.
    - apply stable_unlock. by apply survives_payload_update. }
  specialize (Hloop Hother s I). rewrite Hrun in Hloop. by apply (Hloop k Hk e').
Qed.

(** X5: when [flushAll] returns, the tile of every element of the store has
    lost its raster container (the pointer is null) and is unlocked, and
    every element that lists a layer is marked as written. *)
Theorem flushAll_clears_the_store s s' k e :
  flushAll s = Return tt s' ->
  elem k s' = Some e ->
  Tile.data (CacheElement.tile e) = None
  /\ Tile.locked (CacheElement.tile e) = false
  /\ (CacheElement.layer_meta e ≠ [] -> CacheElement.was_written e = true).
Proof. intros Hrun He. by apply (flushAll_flushed s s' Hrun k). Qed.

Lemma flushAll_clears_the_store_witness :
  let s := cache_with [((5, 0, 0), color_element 5 0 0 false)] (Rect.mk 0 0 1 1) in
  let s' := match flushAll s with Return _ s' => s' | _ => s end in
  let e := CacheElement.mk 0 [LayerMetaData.mk "color" CV_8U 1] (Tile.mk 5 0 0 None false) true in
  flushAll s = Return tt s'
  /\ elem (5, 0, 0) s' = Some e
  /\ Tile.data (CacheElement.tile e) = None
  /\ Tile.locked (CacheElement.tile e) = false
  /\ (CacheElement.layer_meta e ≠ [] -> CacheElement.was_written e = true).
Proof.
  intros s s' e.
  assert (flushAll s = Return tt s') as H by (vm_compute; reflexivity).
  assert (elem (5, 0, 0) s' = Some e) as He by (vm_compute; reflexivity).
  split; [exact H|]. split; [exact He|].
  exact (flushAll_clears_the_store s s' (5, 0, 0) e H He).
Defined.

Lemma flushAll_cycle_spec s0 :
  triple (cycle_inv s0) flushAll (fun _ => cycle_inv s0) (cycle_exit s0).
Proof.
  unfold flushAll, for_each_element.
  eapply triple_bind; [apply stable_spec, stable_gets|].
  intros c. apply triple_mfor_inv. intros z _. apply triple_mfor_inv. intros x _.
  apply triple_mfor_inv. intros y _.
  eapply triple_bind; [apply stable_spec, stable_lock, cycle_inv_survives_update|].
  intros []. eapply triple_bind; [apply stable_spec, stable_element|].
  intros e. eapply (triple_bind _ _ _ (fun _ => cycle_inv s0)).
  { destruct (negb (CacheElement.was_written e)).
    - eapply triple_conseq; [apply write_spec|done| |done]. by intros _ s [? _].
    - by apply triple_ret. }
  intros []. eapply triple_bind;
    [apply stable_spec, stable_set_tile_data, cycle_inv_survives_update|].
  intros []. apply stable_spec, stable_unlock, cycle_inv_survives_update.
Qed.

Lemma saves_on_disk_flushAll s0 : stable (saves_on_disk s0) flushAll.
Proof.
  unfold flushAll, for_each_element. stable_steps.
  - apply stable_lock, saves_on_disk_survives_update.
  - apply stable_write_from_layers. intros meta. apply saves_on_disk_write_layer.
  - apply stable_set_tile_data, saves_on_disk_survives_update.
  - apply stable_unlock, saves_on_disk_survives_update.
Qed.

(** X6: destroying the cache persists what is not on disk yet: when the
    destructor (that is, [flushAll]) returns, every layer listed by an
    element that was not marked as written has its file on disk, at the
    path of the tile below the output directory. *)
Theorem destructor_persists_unwritten s s' k e meta :
  TileCache_destructor s = Return tt s' ->
  elem k s = Some e ->
  CacheElement.was_written e = false ->
  meta ∈ CacheElement.layer_meta e ->
  exists ext,
    is_Some (files s' !! (tile_path (dir_toplevel s) (LayerMetaData.name meta)
                                    (CacheElement.tile e) +:+ ext)).
Proof.
  unfold TileCache_destructor. intros Hrun He Hw Hmeta.
  assert (final_state (flushAll s) = Some s') as Hfinal by (by rewrite Hrun).
  pose proof (flushAll_cycle_spec s s (cycle_inv_start s)) as Hspec.
  rewrite Hrun in Hspec. destruct Hspec as (evs & Ht & _ & Hmetas & Hsaved).
  destruct (stable_final_state _ _ _ _ (saves_on_disk_flushAll s) (saves_on_disk_start s) Hfinal)
    as (_ & _ & evs' & Ht' & Hdisk).
  assert (evs' = evs) as -> by (rewrite Ht in Ht'; by apply app_inv_head in Ht').
  assert (written k s' = true) as Hw'.
  { destruct (proj2 (operations_keep_keys op_flushAll s s' k Hfinal)) as [e' He']; [by eauto|].
    destruct (flushAll_flushed s s' Hrun k e' He') as (_ & _ & Hflag).
    unfold written. rewrite He'. apply Hflag.
    specialize (Hmetas k). unfold metas in Hmetas. rewrite He, He' in Hmetas.
    rewrite Hmetas. intros Hnil. rewrite Hnil in Hmeta. by apply elem_of_nil in Hmeta. }
  destruct (Hsaved k Hw') as [Hbefore|Hall].
  { unfold written in Hbefore. rewrite He in Hbefore. congruence. }
  assert (meta ∈ metas k s) as Hin by (unfold metas; by rewrite He).
  destruct (Hdisk k _ (Hall meta Hin)) as (e0 & ext & He0 & Hfile).
  exists ext. by simplify_eq.
Qed.

Lemma destructor_persists_unwritten_witness :
  let s := cache_with [((5, 0, 0), color_element 5 0 0 false)] (Rect.mk 0 0 1 1) in
  let s' := match TileCache_destructor s with Return _ s' => s' | _ => s end in
  TileCache_destructor s = Return tt s'
  /\ files s = ∅
  /\ files s' !! "out/color/5/0/0.png" = Some (raster CV_8U)
  /\ exists ext,
       is_Some (files s' !! (tile_path (dir_toplevel s) "color" (color_tile 5 0 0) +:+ ext)).
Proof.
  intros s s'.
  assert (TileCache_destructor s = Return tt s') as H by (vm_compute; reflexivity).
  split; [exact H|]. split; [reflexivity|]. split; [vm_compute; reflexivity|].
  apply (destructor_persists_unwritten s s' (5, 0, 0) (color_element 5 0 0 false)
           (LayerMetaData.mk "color" CV_8U 1) H); [reflexivity|reflexivity|].
  apply list_elem_of_singleton. reflexivity.
Defined.

(** ** After [flushAll] *)

Lemma lock_isCached_null {A} k s e (f : bool -> M A) :
  elem k s = Some e ->
  Tile.locked (CacheElement.tile e) = false ->
  Tile.data (CacheElement.tile e) = None ->
  (lock k ;;; cached <- isCached k ;; f cached) s = Undefined null_pointer_dereference.
Proof.
  intros He Hl Hd. rewrite (bind_run _ _ _ _ _ (lock_run _ _ _ He Hl)).
  apply bind_undefined. unfold isCached. apply bind_undefined.
  eapply tile_data_null; [apply elem_store_eq|]. exact Hd.
Qed.

(** X7: [flushAll] leaves the store unusable: it sets the pointer to the
    raster container of every tile to null, and [isCached] dereferences
    it.  After [flushAll] has returned, [get] of any key of the store has
    undefined behaviour, and so has [loadAll] when the store is not
    empty. *)
Theorem get_after_flushAll s s' tx ty zoom_level :
  flushAll s = Return tt s' ->
  is_Some (elem (zoom_level, tx, ty) s') ->
  get tx ty zoom_level s' = Undefined null_pointer_dereference
  /\ loadAll s' = Undefined null_pointer_dereference.
Proof.
  intros Hrun [e He]. pose proof (flushAll_flushed s s' Hrun) as Hflushed. split.
  - rewrite (get_present_eq _ _ _ _ _ He). cbv zeta.
    destruct (Hflushed _ e He) as (Hd & Hl & _). by apply (lock_isCached_null _ _ e).
  - unfold loadAll. unfold bind at 1, gets at 1. rewrite for_each_element_all_keys.
    assert ((zoom_level, tx, ty) ∈ all_keys (cache s')) as Hin
      by (apply elem_of_all_keys; by exists e).
    destruct (all_keys (cache s')) as [|k0 rest] eqn:Hkeys; [by apply elem_of_nil in Hin|].
    assert (is_Some (elem k0 s')) as [e0 He0].
    { apply elem_of_all_keys. rewrite Hkeys. by left. }
    destruct (Hflushed _ e0 He0) as (Hd & Hl & _).
    simpl. apply bind_undefined. by apply (lock_isCached_null _ _ e0).
Qed.

Lemma get_after_flushAll_witness :
  let s := cache_with [((5, 0, 0), color_element 5 0 0 false)] (Rect.mk 0 0 1 1) in
  let s' := match flushAll s with Return _ s' => s' | _ => s end in
  flushAll s = Return tt s'
  /\ is_Some (elem (5, 0, 0) s')
  /\ get 0 0 5 s' = Undefined null_pointer_dereference
  /\ loadAll s' = Undefined null_pointer_dereference.
Proof.
  intros s s'.
  assert (flushAll s = Return tt s') as H by (vm_compute; reflexivity).
  assert (is_Some (elem (5, 0, 0) s')) as He by (by eexists; vm_compute).
  split; [exact H|]. split; [exact He|]. exact (get_after_flushAll s s' 0 0 5 H He).
Defined.

Lemma store_element_id k e c : lookup_element k c = Some e -> store_element k e c = c.
Proof.
  destruct k as [[z x] y]. unfold lookup_element, store_element. intros He.
  destruct (c !! z) as [grid|] eqn:Hz; [|done].
  destruct (grid !! x) as [column|] eqn:Hx; [|done]. simpl. rewrite Hx. simpl.
  rewrite (insert_id column) by done. rewrite (insert_id grid) by done. by apply insert_id.
Qed.

Lemma store_element_store k e e' c :
  store_element k e (store_element k e' c) = store_element k e c.
Proof.
  destruct k as [[z x] y]. unfold store_element.
  rewrite lookup_insert_eq. simpl. rewrite lookup_insert_eq. simpl.
  by rewrite !insert_insert_eq.
Qed.

Lemma set_cache_id s : set_cache (cache s) s = s.
Proof. by destruct s. Qed.

Lemma set_cache_set_cache c c' s : set_cache c (set_cache c' s) = set_cache c s.
Proof. done. Qed.

Lemma mfor_id {A} (l : list A) (body : A -> M unit) s :
  (forall a, a ∈ l -> body a s = Return tt s) -> mfor l body s = Return tt s.
Proof.
  induction l as [|a l IH]; intros H; [done|].
  simpl. rewrite (bind_run _ _ _ _ _ (H a ltac:(by left))). apply IH.
  intros a' Ha'. apply H. by right.
Qed.

Lemma flushAll_body_id k s e :
  elem k s = Some e ->
  Tile.data (CacheElement.tile e) = None ->
  Tile.locked (CacheElement.tile e) = false ->
  (CacheElement.layer_meta e ≠ [] -> CacheElement.was_written e = true) ->
  (lock k ;;;
   e <- element k ;;
   (if negb (CacheElement.was_written e) then write k else ret tt) ;;;
   set_tile_data k None ;;;
   unlock k) s = Return tt s.
Proof.
  intros He Hd Hl Hflag.
  rewrite (bind_run _ _ _ _ _ (lock_run _ _ _ He Hl)).
  set (e1 := CacheElement.set_tile (Tile.set_locked true (CacheElement.tile e)) e).
  set (s1 := set_cache (store_element k e1 (cache s)) s).
  assert (elem k s1 = Some e1) as He1 by apply elem_store_eq.
  rewrite (bind_run _ _ _ _ _ (element_run _ _ _ He1)).
  assert ((if negb (CacheElement.was_written e1) then write k else ret tt) s1 = Return tt s1)
    as Hwrite.
  { change (CacheElement.was_written e1) with (CacheElement.was_written e).
    destruct (CacheElement.was_written e) eqn:Hw; [done|]. cbn [negb].
    unfold write. rewrite (bind_run _ _ _ _ _ (element_run _ _ _ He1)).
    change (CacheElement.layer_meta e1) with (CacheElement.layer_meta e).
    destruct (CacheElement.layer_meta e); [done|]. by discriminate Hflag. }
  rewrite (bind_run _ _ _ _ _ Hwrite).
  rewrite (bind_run _ _ _ _ _ (set_tile_data_run _ _ _ _ He1)).
  erewrite unlock_run; [|apply elem_store_eq].
  f_equal. unfold s1. rewrite !set_cache_set_cache. cbn [cache set_cache].
  rewrite !store_element_store.
  transitivity (set_cache (cache s) s); [|apply set_cache_id]. f_equal.
  apply store_element_id. fold (elem k s). rewrite He. f_equal.
  destruct e as [? ? [] ?]. simpl in *. by subst.
Qed.

(** X8: a second [flushAll] changes nothing: after [flushAll] has returned,
    [flushAll] returns again, in the same state. *)
Theorem flushAll_twice s s' :
  flushAll s = Return tt s' -> flushAll s' = Return tt s'.
Proof.
  intros Hrun. pose proof (flushAll_flushed s s' Hrun) as Hflushed.
  unfold flushAll. unfold bind at 1, gets at 1. rewrite for_each_element_all_keys.
  apply mfor_id. intros k Hk. apply elem_of_all_keys in Hk as [e He].
  destruct (Hflushed k e He) as (Hd & Hl & Hflag). by apply (flushAll_body_id k s' e).
Qed.

Lemma flushAll_twice_witness :
  let s := cache_with [((5, 0, 0), color_element 5 0 0 false)] (Rect.mk 0 0 1 1) in
  let s' := match flushAll s with Return _ s' => s' | _ => s end in
  flushAll s = Return tt s' /\ s' ≠ s /\ flushAll s' = Return tt s'.
Proof.
  intros s s'.
  assert (flushAll s = Return tt s') as H by (vm_compute; reflexivity).
  split; [exact H|]. split; [|exact (flushAll_twice s s' H)].
  intros Heq. apply (f_equal trace) in Heq. vm_compute in Heq. discriminate Heq.
Defined.

(** ** [loadAll] *)

Lemma lock_return_inv k s s1 :
  lock k s = Return tt s1 ->
  exists e,
    elem k s = Some e
    /\ Tile.locked (CacheElement.tile e) = false
    /\ s1 = set_cache (store_element k
                         (CacheElement.set_tile (Tile.set_locked true (CacheElement.tile e)) e)
                         (cache s)) s.
Proof.
  intros Hrun. destruct (elem k s) as [e|] eqn:He.
  - destruct (Tile.locked (CacheElement.tile e)) eqn:Hl.
    + by rewrite (lock_blocked _ _ _ He Hl) in Hrun.
    + rewrite (lock_run _ _ _ He Hl) in Hrun. injection Hrun as <-. by exists e.
  - unfold lock in Hrun. by rewrite (bind_undefined _ _ _ _ (element_null _ _ He)) in Hrun.
Qed.

(** The body of the loop of [loadAll] (lines 269-273). *)
Lemma loadAll_body_loaded k :
  triple (fun _ => True)
    (lock k ;;;
     cached <- isCached k ;;
     (if negb cached then load k else ret tt) ;;;
     unlock k)
    (fun _ => loaded k) (fun _ => True).
Proof.
  intros s _. unfold bind at 1.
  destruct (lock k s) as [[] s1| | |] eqn:Hlock; [|done..].
  apply lock_return_inv in Hlock as (e & He & Hl & ->).
  set (e1 := CacheElement.set_tile (Tile.set_locked true (CacheElement.tile e)) e).
  set (s1 := set_cache (store_element k e1 (cache s)) s).
  assert (elem k s1 = Some e1) as He1 by apply elem_store_eq.
  destruct (Tile.data (CacheElement.tile e)) as [c|] eqn:Hd.
  2:{ unfold isCached. by rewrite (bind_undefined _ _ _ _
        (bind_undefined _ _ _ _ (tile_data_null _ _ _ He1 Hd))). }
  rewrite (bind_run _ _ _ _ _ (isCached_run _ _ _ c He1 Hd)).
  destruct (CvGridMap.empty c) eqn:Hc; cbn [negb].
  - unfold load. unfold bind at 1 2. rewrite (element_run _ _ _ He1).
    change (CacheElement.layer_meta e1) with (CacheElement.layer_meta e).
    destruct (forallb (loadable s1 (CacheElement.tile e1)) (CacheElement.layer_meta e))
      eqn:Hall.
    + destruct (load_layers_loadable k _ _ _ _ He1 Hd Hall)
        as (s' & c' & Hrun & He' & _ & _ & Hne).
      rewrite Hrun. rewrite (unlock_run _ _ _ He').
      intros e'. rewrite elem_store_eq. intros [= <-]. split; [done|].
      exists c'. split; [done|]. intros Hmeta. apply Hne. by left.
    + destruct (load_layers_not_loadable k _ _ _ _ He1 Hd Hall)
        as (before & meta & after & what & s' & _ & _ & _ & Hrun).
      by rewrite Hrun.
  - unfold ret at 1. unfold bind at 1. rewrite (unlock_run _ _ _ He1).
    intros e'. rewrite elem_store_eq. intros [= <-]. split; [done|].
    exists c. by split.
Qed.

Lemma loaded_survives_other k k' F : k' ≠ k -> survives_update k' F (loaded k).
Proof. intros Hne s e e' Hs _ _ e0. rewrite elem_store_ne by done. apply Hs. Qed.

(** X9: when [loadAll] returns, the tile of every element of the store is
    unlocked and has a raster container, which holds a layer unless the
    element lists none. *)
Theorem loadAll_loads_the_store s s' k e :
  loadAll s = Return tt s' ->
  elem k s' = Some e ->
  Tile.locked (CacheElement.tile e) = false
  /\ exists c, Tile.data (CacheElement.tile e) = Some c
               /\ (CacheElement.layer_meta e ≠ [] -> CvGridMap.empty c = false).
Proof.
  intros Hrun He.
  assert (k ∈ all_keys (cache s)) as Hk.
  { apply elem_of_all_keys.
    apply (operations_keep_keys op_loadAll s s' k); [simpl; by rewrite Hrun|by eauto]. }
  unfold loadAll in Hrun. unfold bind at 1, gets at 1 in Hrun.
  rewrite for_each_element_all_keys in Hrun.
  pose proof (mfor_keys_post loaded (all_keys (cache s)) _ loadAll_body_loaded) as Hloop.
  assert (forall k0 k', k' ≠ k0 ->
            stable (loaded k0)
              (lock k' ;;;
               cached <- isCached k' ;;
               (if negb cached then load k' else ret tt) ;;;
               unlock k')) as Hother.
  { intros k0 k' Hne.
    pose proof (loaded_survives_other k0 k' payload_update Hne) as HI.
    stable_steps.
    - by apply stable_lock.
    - by apply stable_isCached.
    - by apply stable_load.
    - by apply stable_unlock. }
  specialize (Hloop Hother s I). rewrite Hrun in Hloop. by apply (Hloop k Hk e).
Qed.

Lemma loadAll_loads_the_store_witness :
  let s' := match loadAll evicted_cache with Return _ s' => s' | _ => evicted_cache end in
  let e := CacheElement.mk 0 [LayerMetaData.mk "color" CV_8U 1]
             (Tile.mk 5 0 0 (Some [CvGridMap.mkLayer "color" (raster CV_8U) 1]) false) true in
  loadAll evicted_cache = Return tt s'
  /\ elem (5, 0, 0) s' = Some e
  /\ Tile.locked (CacheElement.tile e) = false
  /\ exists c, Tile.data (CacheElement.tile e) = Some c
               /\ (CacheElement.layer_meta e ≠ [] -> CvGridMap.empty c = false).
Proof.
  intros s' e.
  assert (loadAll evicted_cache = Return tt s') as H by (vm_compute; reflexivity).
  assert (elem (5, 0, 0) s' = Some e) as He by (vm_compute; reflexivity).
  split; [exact H|]. split; [exact He|].
  exact (loadAll_loads_the_store evicted_cache s' (5, 0, 0) e H He).
Defined.

(** * An empty store: construction and [reset] *)

Lemma keys_ascending_empty {V} : keys_ascending (∅ : gmap Z V) = [].
Proof. unfold keys_ascending. by rewrite map_to_list_empty. Qed.

Lemma empty_store_idle s :
  cache s = ∅ ->
  (forall tx ty zoom_level, get tx ty zoom_level s = Return None s)
  /\ process s = Return (do_update s) (set_do_update false s)
  /\ flushAll s = Return tt s
  /\ loadAll s = Return tt s.
Proof.
  intros Hc. split; [|split; [|split]].
  - intros tx ty zoom_level. unfold get. unfold bind, gets. by rewrite Hc, lookup_empty.
  - unfold process. unfold bind, gets, modify.
    destruct (do_update s); [|done]. cbn [cache set_do_update].
    by rewrite Hc, keys_ascending_empty.
  - unfold flushAll, for_each_element. unfold bind at 1, gets at 1.
    by rewrite Hc, keys_ascending_empty.
  - unfold loadAll, for_each_element. unfold bind at 1, gets at 1.
    by rewrite Hc, keys_ascending_empty.
Qed.

(** X10: a cache that has just been constructed is empty and idle: every
    [get] is a miss, a cycle of the worker returns [false], and
    [flushAll], [loadAll] and the destructor return; none of them changes
    the state, so that nothing is written to the disk. *)
Theorem new_cache_is_idle output_directory fs ds t :
  let s := TileCache output_directory fs ds t in
  (forall tx ty zoom_level, get tx ty zoom_level s = Return None s)
  /\ process s = Return false s
  /\ flushAll s = Return tt s
  /\ loadAll s = Return tt s
  /\ TileCache_destructor s = Return tt s.
Proof.
  intros s. destruct (empty_store_idle s eq_refl) as (Hget & Hprocess & HflushAll & HloadAll).
  by repeat split.
Qed.

(** X11: [reset] drops every element of the store and writes nothing: it
    returns with the disk, the ROI maps and the update request as they
    were, a [get] of any key is then a miss, and a later [flushAll] or
    cycle of the worker finds nothing to write.  The rasters of the
    elements that were not written yet are lost. *)
Theorem reset_drops_the_store s :
  exists s',
    reset s = Return tt s'
    /\ files s' = files s
    /\ trace s' = trace s
    /\ roi_prediction s' = roi_prediction s
    /\ roi_prev_request s' = roi_prev_request s
    /\ do_update s' = do_update s
    /\ (forall k, elem k s' = None)
    /\ (forall tx ty zoom_level, get tx ty zoom_level s' = Return None s')
    /\ flushAll s' = Return tt s'
    /\ process s' = Return (do_update s) (set_do_update false s').
Proof.
  exists (set_cache ∅ s).
  destruct (empty_store_idle (set_cache ∅ s) eq_refl) as (Hget & Hprocess & HflushAll & _).
  repeat (split; [done|]). split; [|done].
  intros [[z x] y]. unfold elem, lookup_element. cbn [cache set_cache]. by rewrite lookup_empty.
Qed.

(** * The loop of [add] on a zoom level of the store *)

Lemma string_app_assoc (a b c : string) : (a +:+ b) +:+ c = a +:+ b +:+ c.
Proof.
  induction a as [|ch a IH]; [done|].
  change (String ch ((a +:+ b) +:+ c) = String ch (a +:+ b +:+ c)). by rewrite IH.
Qed.

Lemma createDirectories_directories toplevel layer_names tile_tree s :
  exists ds,
    createDirectories toplevel layer_names tile_tree s = Return tt (set_directories ds s)
    /\ forall d, d ∈ ds <->
                 d ∈ directories s
                 \/ exists n, n ∈ layer_names /\ d = toplevel +:+ n +:+ tile_tree.
Proof.
  unfold createDirectories. revert s.
  induction layer_names as [|n l IH]; intros s; simpl.
  - exists (directories s). split; [by destruct s|].
    intros d. split; [by left|]. intros [?|(n & Hn & _)]; [done|by apply elem_of_nil in Hn].
  - unfold bind, createDir at 1, modify.
    destruct (IH (set_directories ({[toplevel +:+ n +:+ tile_tree]} ∪ directories s) s))
      as (ds & -> & Hds).
    exists ds. split; [done|]. intros d. rewrite Hds. cbn [directories set_directories].
    rewrite elem_of_union, elem_of_singleton. split.
    + intros [[->|?]|(n' & Hn' & ->)]; [right; exists n; split; [by left|done]|by left|].
      right. exists n'. split; [by right|done].
    + intros [?|(n' & [->|Hn']%elem_of_cons & ->)]; [by left; right|by left; left|].
      right. by exists n'.
Qed.

(** X12: [add] creates the directory of a new column: when the loop of [add]
    stores a tile in a column that the zoom level does not have yet, it
    creates, for every layer, the directory
    [<toplevel>/<layer>/<zoom>/<x>], which is the directory of the file
    that [write] saves for that layer when the tile is one of the zoom
    level; for a column that exists no directory is created.  No
    directory is ever removed. *)
Theorem add_creates_the_column_directories zoom_level layer_names layer_meta timestamp t s :
  Tile.locked t = false ->
  exists s',
    add_to_existing_zoom zoom_level layer_names layer_meta timestamp t s = Return tt s'
    /\ (forall d, d ∈ directories s -> d ∈ directories s')
    /\ (default ∅ (cache s !! zoom_level) !! Tile.x t = None ->
        forall n, n ∈ layer_names ->
          let d := dir_toplevel s +:+ "/" +:+ n +:+ "/" +:+ pretty zoom_level
                     +:+ "/" +:+ pretty (Tile.x t) in
          d ∈ directories s'
          /\ (Tile.zoom_level t = zoom_level ->
              tile_path (dir_toplevel s) n t = d +:+ "/" +:+ pretty (Tile.y t)))
    /\ (is_Some (default ∅ (cache s !! zoom_level) !! Tile.x t) ->
        directories s' = directories s).
Proof.
  intros Hl. unfold add_to_existing_zoom, lock_tile. rewrite Hl.
  unfold ret at 1, gets at 1 2. unfold bind at 1 2 3.
  destruct (default ∅ (cache s !! zoom_level) !! Tile.x t) as [column|] eqn:Hcolumn.
  - eexists. split; [by destruct (column !! Tile.y t)|].
    split; [by destruct (column !! Tile.y t)|]. split; [done|].
    intros _. by destruct (column !! Tile.y t).
  - destruct (createDirectories_directories (dir_toplevel s +:+ "/") layer_names
                ("/" +:+ pretty zoom_level +:+ "/" +:+ pretty (Tile.x t)) s)
      as (ds & Hrun & Hds).
    rewrite (bind_run _ _ _ _ _ Hrun). eexists. split; [reflexivity|].
    cbn [directories set_cache set_directories].
    split; [intros d Hd; apply Hds; by left|]. split; [|by intros [? ?]].
    intros _ n Hn. cbv zeta. split.
    + apply Hds. right. exists n. split; [done|]. by rewrite !string_app_assoc.
    + intros <-. unfold tile_path. by rewrite !string_app_assoc.
Qed.

Lemma add_creates_the_column_directories_witness :
  let s := cache_with [((5, 1, 1), color_element 5 1 1 true)] (Rect.mk 0 0 2 2) in
  let t := color_tile 5 0 0 in
  Tile.locked t = false
  /\ directories s = ∅
  /\ exists s',
       add_to_existing_zoom 5 ["color"] [LayerMetaData.mk "color" CV_8U 1] 0 t s = Return tt s'
       /\ "out/color/5/0" ∈ directories s'
       /\ tile_path (dir_toplevel s) "color" t = "out/color/5/0" +:+ "/" +:+ "0".
Proof.
  intros s t. split; [reflexivity|]. split; [reflexivity|].
  destruct (add_creates_the_column_directories 5 ["color"] [LayerMetaData.mk "color" CV_8U 1]
              0 t s eq_refl) as (s' & Hrun & _ & Hnew & _).
  exists s'. split; [exact Hrun|].
  destruct (Hnew eq_refl "color") as [Hdir Hpath]; [by apply list_elem_of_singleton|].
  split; [exact Hdir|reflexivity].
Defined.

Lemma add_loop_run zoom_level layer_names layer_meta timestamp tiles : forall s,
  Forall (fun t => Tile.locked t = false) tiles ->
  exists s',
    mfor tiles (add_to_existing_zoom zoom_level layer_names layer_meta timestamp) s
    = Return tt s'
    /\ (forall before t after,
          tiles = before ++ t :: after ->
          (forall t', t' ∈ after -> (Tile.x t', Tile.y t') ≠ (Tile.x t, Tile.y t)) ->
          elem (zoom_level, Tile.x t, Tile.y t) s'
          = Some (CacheElement.mk timestamp layer_meta t false))
    /\ (forall k, outside_add zoom_level tiles k -> elem k s' = elem k s)
    /\ files s' = files s
    /\ trace s' = trace s.
Proof.
  induction tiles as [|t tiles IH]; intros s Hunlocked.
  - exists s. split; [done|]. split; [by intros [] ? ? ?|]. done.
  - apply Forall_cons in Hunlocked as [Hl Hunlocked].
    destruct (add_to_existing_zoom_run zoom_level layer_names layer_meta timestamp t s Hl)
      as (d & Hrun).
    set (k := (zoom_level, Tile.x t, Tile.y t)) in *.
    set (e := CacheElement.mk timestamp layer_meta t false) in *.
    set (s1 := set_cache (store_element k e (cache s)) (set_directories d s)) in *.
    assert (forall k', elem k' s1 = if decide (k = k') then Some e else elem k' s) as Hs1.
    { intros k'. unfold elem, s1. cbn [cache set_cache]. apply lookup_store_element. }
    destruct (IH s1 Hunlocked) as (s' & Hloop & Hstored & Hframe & Hfiles & Htrace).
    exists s'. split; [simpl; by rewrite (bind_run _ _ _ _ _ Hrun)|].
    split; [|split; [|done]].
    + intros before t0 after Hsplit Hlast. destruct before as [|t1 before]; simpl in Hsplit.
      * injection Hsplit as <- <-. rewrite Hframe.
        -- rewrite Hs1. by rewrite decide_True.
        -- right. intros t' Ht'. simpl. apply not_eq_sym. by apply Hlast.
      * injection Hsplit as <- ->. by apply (Hstored before t0 after).
    + intros k' Hk'. rewrite Hframe.
      * rewrite Hs1. rewrite decide_False; [done|]. intros <-.
        destruct Hk' as [Hz|Hxy]; [done|]. apply (Hxy t); [by left|done].
      * destruct Hk' as [Hz|Hxy]; [by left|right].
        intros t' Ht'. apply Hxy. by right.
Qed.

(** X13: the loop of [add] on a zoom level of the store (lines 143-171),
    run on tiles that are not locked: it returns; every tile is then stored
    under its key, with the timestamp and the metadata of the call and
    [was_written] cleared, the last one winning when two tiles have the
    same coordinates; an element that was stored under such a key is
    replaced and not written; the other elements are untouched; and a
    tile whose raster container holds a layer is what [get] returns for
    its key, locked. *)
Theorem add_loop_stores_the_tiles zoom_level layer_names layer_meta timestamp tiles s :
  is_Some (cache s !! zoom_level) ->
  Forall (fun t => Tile.locked t = false) tiles ->
  exists s',
    mfor tiles (add_to_existing_zoom zoom_level layer_names layer_meta timestamp) s
    = Return tt s'
    /\ (forall before t after,
          tiles = before ++ t :: after ->
          (forall t', t' ∈ after -> (Tile.x t', Tile.y t') ≠ (Tile.x t, Tile.y t)) ->
          elem (zoom_level, Tile.x t, Tile.y t) s'
          = Some (CacheElement.mk timestamp layer_meta t false)
          /\ forall c, Tile.data t = Some c -> CvGridMap.empty c = false ->
               exists s'',
                 get (Tile.x t) (Tile.y t) zoom_level s'
                 = Return (Some (Tile.set_locked true t)) s'')
    /\ (forall k, outside_add zoom_level tiles k -> elem k s' = elem k s)
    /\ files s' = files s
    /\ trace s' = trace s.
Proof.
  intros _ Hunlocked.
  destruct (add_loop_run zoom_level layer_names layer_meta timestamp tiles s Hunlocked)
    as (s' & Hrun & Hstored & Hframe & Hfiles & Htrace).
  exists s'. split; [exact Hrun|]. split; [|done].
  intros before t after Hsplit Hlast.
  pose proof (Hstored before t after Hsplit Hlast) as He. split; [exact He|].
  intros c Hd Hc. eexists.
  apply (get_cached _ _ _ _ _ c He); [|done..].
  simpl. rewrite Forall_forall in Hunlocked. apply Hunlocked. rewrite Hsplit.
  apply elem_of_app. right. by left.
Qed.

Lemma add_loop_stores_the_tiles_witness :
  let s := cache_with [((5, 1, 1), color_element 5 1 1 false)] (Rect.mk 0 0 2 2) in
  let metas := [LayerMetaData.mk "color" CV_8U 1] in
  let tiles := [color_tile 5 1 1; color_tile 5 0 0] in
  is_Some (cache s !! 5)
  /\ exists s',
       mfor tiles (add_to_existing_zoom 5 ["color"] metas 7) s = Return tt s'
       /\ elem (5, 1, 1) s' = Some (CacheElement.mk 7 metas (color_tile 5 1 1) false)
       /\ elem (5, 0, 0) s' = Some (CacheElement.mk 7 metas (color_tile 5 0 0) false)
       /\ (exists s'', get 0 0 5 s' = Return (Some (Tile.set_locked true (color_tile 5 0 0))) s'')
       /\ files s' = files s.
Proof.
  intros s metas tiles.
  assert (is_Some (cache s !! 5)) as Hzoom by (by eexists; vm_compute).
  assert (Forall (fun t => Tile.locked t = false) tiles) as Hunlocked
    by (repeat constructor).
  split; [exact Hzoom|].
  destruct (add_loop_stores_the_tiles 5 ["color"] metas 7 tiles s Hzoom Hunlocked)
    as (s' & Hrun & Hstored & _ & Hfiles & _).
  exists s'. split; [exact Hrun|].
  destruct (Hstored [] (color_tile 5 1 1) [color_tile 5 0 0] eq_refl) as [H11 _].
  { intros t' ->%list_elem_of_singleton. simpl. congruence. }
  destruct (Hstored [color_tile 5 1 1] (color_tile 5 0 0) [] eq_refl) as [H00 Hget].
  { by intros t' ?%elem_of_nil. }
  split; [exact H11|]. split; [exact H00|]. split; [|exact Hfiles].
  by apply (Hget [CvGridMap.mkLayer "color" (raster CV_8U) 1]).
Defined.

(** * Tiles inside the predicted ROI *)

Lemma stable_and {A} (I J : state -> Prop) (m : M A) :
  stable I m -> stable J m -> stable (fun s => I s /\ J s) m.
Proof.
  intros HI HJ s [Hi Hj]. specialize (HI s Hi). specialize (HJ s Hj).
  by destruct (m s).
Qed.

Section raster_kept.
Context (k : key) (d : option CvGridMap.t) (tx ty : Z).

Lemma holds_raster_survives_keeps : survives_update k keeps_raster (holds_raster k d tx ty).
Proof.
  intros s e e' (e0 & He0 & Hd & Hx & Hy) He (Hd' & Hx' & Hy').
  exists e'. rewrite elem_store_eq. split; [done|]. simplify_eq. by rewrite Hd', Hx', Hy'.
Qed.

Lemma holds_raster_survives_other k' F :
  k' ≠ k -> survives_update k' F (holds_raster k d tx ty).
Proof.
  intros Hne s e e' (e0 & He0 & Hrest) _ _. exists e0. by rewrite elem_store_ne.
Qed.

Lemma holds_raster_survives_io : survives_io (holds_raster k d tx ty).
Proof. by split. Qed.

Lemma holds_raster_lock : stable (holds_raster k d tx ty) (lock k).
Proof.
  unfold lock. stable_steps.
  apply (stable_update_element _ _ keeps_raster); [apply holds_raster_survives_keeps|].
  intros e. by destruct e as [? ? [] ?].
Qed.

Lemma holds_raster_unlock : stable (holds_raster k d tx ty) (unlock k).
Proof.
  unfold unlock.
  apply (stable_update_element _ _ keeps_raster); [apply holds_raster_survives_keeps|].
  intros e. by destruct e as [? ? [] ?].
Qed.

Lemma holds_raster_write : stable (holds_raster k d tx ty) (write k).
Proof.
  apply stable_write_from_layers. intros meta. unfold write_layer. stable_steps.
  - apply stable_tile_data.
  - by apply stable_modify.
  - by apply stable_modify.
  - apply (stable_update_element _ _ keeps_raster); [apply holds_raster_survives_keeps|].
    intros e. by destruct e as [? ? [] ?].
Qed.

(** The step of the worker on an element whose tile passes the test of
    lines 88-89 leaves the raster container of the tile as it is. *)
Lemma holds_raster_process_element roi :
  outside_prediction roi tx ty = false ->
  stable (holds_raster k d tx ty) (process_element roi k).
Proof.
  intros Hout. unfold process_element.
  apply stable_bind; [apply holds_raster_lock|]. intros [].
  apply stable_bind; [apply stable_element|]. intros e0.
  apply stable_bind.
  { destruct (negb (CacheElement.was_written e0)); [apply holds_raster_write|apply stable_ret]. }
  intros []. apply stable_bind; [apply stable_isCached|]. intros cached.
  apply stable_bind; [|intros []; apply holds_raster_unlock].
  destruct cached; [|apply stable_ret].
  intros s Hs. pose proof Hs as (e1 & He1 & Hd & Hx & Hy).
  rewrite (bind_run _ _ _ _ _ (element_run _ _ _ He1)). cbv zeta.
  rewrite Hx, Hy, Hout. exact Hs.
Qed.

Lemma holds_raster_process_element_other roi k' :
  k' ≠ k -> stable (holds_raster k d tx ty) (process_element roi k').
Proof.
  intros Hne. apply stable_process_element;
    [by apply holds_raster_survives_other|apply holds_raster_survives_io].
Qed.
End raster_kept.

Lemma roi_prediction_process_element p roi k :
  stable (fun s => roi_prediction s = p) (process_element roi k).
Proof.
  apply stable_process_element;
    [apply roi_prediction_survives_update|apply roi_prediction_survives_io].
Qed.

(** X14: the worker never evicts a tile inside the predicted ROI: whichever
    way a cycle ends, an element whose tile lies in the rectangle that is
    predicted for its zoom level has the raster container it had. *)
Theorem process_keeps_tiles_inside_roi s s' zoom_level x y e roi :
  elem (zoom_level, x, y) s = Some e ->
  roi_prediction s !! zoom_level = Some roi ->
  Rect.contains roi (Tile.x (CacheElement.tile e)) (Tile.y (CacheElement.tile e)) = true ->
  int_range (Rect.x roi + Rect.width roi) ->
  int_range (Rect.y roi + Rect.height roi) ->
  final_state (process s) = Some s' ->
  exists e',
    elem (zoom_level, x, y) s' = Some e'
    /\ Tile.data (CacheElement.tile e') = Tile.data (CacheElement.tile e).
Proof.
  intros He Hroi Hin Hrx Hry Hfinal.
  set (k := (zoom_level, x, y)) in *.
  set (tx := Tile.x (CacheElement.tile e)) in *.
  set (ty := Tile.y (CacheElement.tile e)) in *.
  set (d := Tile.data (CacheElement.tile e)) in *.
  assert (outside_prediction roi tx ty = false) as Hout.
  { unfold Rect.contains in Hin. apply andb_true_iff in Hin as [Hin Hy2].
    apply andb_true_iff in Hin as [Hin Hy1]. apply andb_true_iff in Hin as [Hx1 Hx2].
    rewrite outside_prediction_contains; [|done|done|lia|lia].
    unfold Rect.contains. by rewrite Hx1, Hx2, Hy1, Hy2. }
  set (J := fun s1 => holds_raster k d tx ty s1 /\ roi_prediction s1 = roi_prediction s).
  assert (stable J process) as Hstable.
  { unfold process. apply stable_bind; [apply stable_gets|]. intros du.
    apply stable_bind; [by apply stable_modify|]. intros [].
    destruct du; [|apply stable_ret].
    apply stable_bind; [apply stable_gets|]. intros c.
    apply stable_bind; [|intros; apply stable_ret].
    apply stable_mfor. intros z _. unfold process_zoom.
    eapply triple_bind.
    { apply (triple_gets _ _ (fun pred s1 => J s1 /\ pred = roi_prediction s)).
      intros s1 [? Hp]. by repeat split. }
    intros pred. eapply (triple_bind _ _ _ (fun r s1 => J s1 /\ pred !! z = Some r
                                                       /\ pred = roi_prediction s)).
    { destruct (pred !! z) as [r|] eqn:Hr.
      - apply triple_ret. by intros s1 [? ?].
      - apply triple_throw. by intros s1 [? ?]. }
    intros r. intros s1 (HJ & Hr & ->). revert s1 HJ.
    change (stable J (mfor (keys_ascending (default ∅ (c !! z))) (process_column c r z))).
    apply stable_mfor. intros x' _. unfold process_column.
    apply stable_mfor. intros y' _.
    apply stable_and; [|apply roi_prediction_process_element].
    destruct (decide ((z, x', y') = k)) as [Hk|Hk].
    - rewrite Hk. injection Hk as -> -> ->. rewrite Hroi in Hr. injection Hr as <-.
      by apply holds_raster_process_element.
    - by apply holds_raster_process_element_other. }
  assert (J s) as Hs by (split; [by exists e|done]).
  destruct (stable_final_state _ _ _ _ Hstable Hs Hfinal) as [(e' & He' & Hd & _) _].
  by exists e'.
Qed.

Lemma process_keeps_tiles_inside_roi_witness :
  let roi := Rect.mk 0 0 2 2 in
  let s := cache_with [((5, 1, 1), color_element 5 1 1 false);
                       ((5, 4, 4), color_element 5 4 4 false)] roi in
  let s' := match process s with Return _ s' => s' | _ => s end in
  final_state (process s) = Some s'
  /\ elem (5, 4, 4) s'
     = Some (CacheElement.mk 0 [LayerMetaData.mk "color" CV_8U 1]
               (Tile.mk 5 4 4 (Some []) false) true)
  /\ exists e',
       elem (5, 1, 1) s' = Some e'
       /\ Tile.data (CacheElement.tile e')
          = Tile.data (CacheElement.tile (color_element 5 1 1 false)).
Proof.
  intros roi s s'.
  assert (final_state (process s) = Some s') as H by (vm_compute; reflexivity).
  split; [exact H|]. split; [vm_compute; reflexivity|].
  apply (process_keeps_tiles_inside_roi s s' 5 1 1 (color_element 5 1 1 false) roi);
    [reflexivity|reflexivity|reflexivity|unfold int_range; simpl; lia
    |unfold int_range; simpl; lia|exact H].
Defined.

(** * From memory to disk and back *)

(** ** One file per layer *)

Lemma string_length_app (a b : string) :
  String.length (a +:+ b) = (String.length a + String.length b)%nat.
Proof.
  induction a as [|ch a IH]; [done|].
  change (S (String.length (a +:+ b)) = S (String.length a + String.length b)).
  by rewrite IH.
Qed.

Lemma string_app_inj_r (a c b d : string) :
  String.length b = String.length d -> a +:+ b = c +:+ d -> a = c.
Proof.
  intros Hlen Heq.
  assert (String.length a = String.length c) as Hac.
  { apply (f_equal String.length) in Heq. rewrite !string_length_app in Heq. lia. }
  revert c Heq Hac. induction a as [|ch a IH]; intros [|ch' c] Heq Hac; try done.
  change (String ch (a +:+ b) = String ch' (c +:+ d)) in Heq.
  injection Heq as -> Heq. f_equal. apply IH; [done|]. by injection Hac.
Qed.

Lemma extension_length depth ext : extension depth = Some ext -> String.length ext = 4%nat.
Proof.
  unfold extension. repeat case_match; intros [= <-]; reflexivity.
Qed.

(** Two layers of a tile are saved to the same file only when they have
    the same name, and then they are the same raster. *)
Lemma saved_file_inj toplevel tl c meta1 meta2 p d1 d2 :
  saved_file toplevel tl c meta1 = Some (p, d1) ->
  saved_file toplevel tl c meta2 = Some (p, d2) ->
  LayerMetaData.name meta1 = LayerMetaData.name meta2 /\ d1 = d2.
Proof.
  unfold saved_file. intros H1 H2.
  destruct (CvGridMap.get c (LayerMetaData.name meta1)) as [r1|] eqn:Hget1; [|done].
  destruct (extension (Z.land (Mat.type r1) CV_MAT_DEPTH_MASK)) as [ext1|] eqn:Hext1; [|done].
  destruct (CvGridMap.get c (LayerMetaData.name meta2)) as [r2|] eqn:Hget2; [|done].
  destruct (extension (Z.land (Mat.type r2) CV_MAT_DEPTH_MASK)) as [ext2|] eqn:Hext2; [|done].
  injection H1 as <- <-. injection H2 as Hp <-.
  assert (LayerMetaData.name meta1 = LayerMetaData.name meta2) as Hname.
  { unfold tile_path in Hp. rewrite !string_app_assoc in Hp.
    apply (inj (String.append toplevel)) in Hp. apply (inj (String.append "/")) in Hp.
    symmetry. eapply string_app_inj_r; [|exact Hp].
    rewrite !string_length_app.
    by rewrite (extension_length _ _ Hext1), (extension_length _ _ Hext2). }
  split; [done|]. rewrite Hname in Hget1. congruence.
Qed.

(** ** [write] *)

Lemma write_layers_content k metas : forall s e c,
  elem k s = Some e ->
  Tile.data (CacheElement.tile e) = Some c ->
  (forall meta, meta ∈ metas ->
     is_Some (saved_file (dir_toplevel s) (CacheElement.tile e) c meta)) ->
  exists s',
    mfor metas (write_layer k) s = Return tt s'
    /\ elem k s' = Some (if decide (metas = []) then e else CacheElement.set_was_written true e)
    /\ (forall k', k' ≠ k -> elem k' s' = elem k' s)
    /\ dir_toplevel s' = dir_toplevel s
    /\ trace s' = trace s ++ map (fun meta => EvSave k (LayerMetaData.name meta)) metas
    /\ (forall meta p d, meta ∈ metas ->
          saved_file (dir_toplevel s) (CacheElement.tile e) c meta = Some (p, d) ->
          files s' !! p = Some d)
    /\ (forall p, (forall meta d, meta ∈ metas ->
                     saved_file (dir_toplevel s) (CacheElement.tile e) c meta ≠ Some (p, d)) ->
          files s' !! p = files s !! p).
Proof.
  induction metas as [|meta metas IH]; intros s e c He Hd Hok.
  - exists s. split; [done|]. split; [done|]. split; [done|]. split; [done|].
    split; [by rewrite app_nil_r|]. split; [|done]. by intros ? ? ? ?%elem_of_nil.
  - destruct (Hok meta ltac:(by left)) as [[p0 d0] Hsaved].
    pose proof Hsaved as Hsaved'. unfold saved_file in Hsaved'.
    destruct (CvGridMap.get c (LayerMetaData.name meta)) as [r|] eqn:Hget; [|done].
    destruct (extension (Z.land (Mat.type r) CV_MAT_DEPTH_MASK)) as [ext|] eqn:Hext; [|done].
    injection Hsaved' as <- <-.
    pose proof (write_layer_run k meta s e c r ext He Hd Hget Hext) as Hrun.
    set (e1 := CacheElement.set_was_written true e) in *.
    set (p0 := tile_path (dir_toplevel s) (LayerMetaData.name meta) (CacheElement.tile e)
               +:+ ext) in *.
    set (s1 := set_cache (store_element k e1 (cache s)) _) in Hrun.
    assert (forall k', elem k' s1 = if decide (k = k') then Some e1 else elem k' s) as Hs1.
    { intros k'. unfold elem, s1. cbn [cache set_cache]. apply lookup_store_element. }
    assert (elem k s1 = Some e1) as He1 by (rewrite Hs1; by rewrite decide_True).
    destruct (IH s1 e1 c He1 Hd) as (s' & Hloop & He' & Hother & Hdir & Htrace & Hfiles & Hrest).
    { intros m Hm. apply (Hok m). by right. }
    exists s'. split; [simpl; by rewrite (bind_run _ _ _ _ _ Hrun)|].
    split; [rewrite He'; by destruct (decide (metas = []))|].
    split; [intros k' Hne; rewrite Hother by done; rewrite Hs1; by rewrite decide_False|].
    split; [done|].
    split; [rewrite Htrace; cbn; by rewrite <- app_assoc|].
    split.
    + intros m p d [->|Hm]%elem_of_cons Hm_saved; [|by apply (Hfiles m)].
      rewrite Hsaved in Hm_saved. injection Hm_saved as <- <-.
      destruct (decide (Exists (fun m' => fst <$> saved_file (dir_toplevel s)
                                  (CacheElement.tile e) c m' = Some p0) metas))
        as [Hex|Hnone].
      * apply Exists_exists in Hex as (m' & Hm' & Hp).
        destruct (saved_file (dir_toplevel s) (CacheElement.tile e) c m')
          as [[p' d']|] eqn:Hsaved'; [|done].
        injection Hp as ->.
        destruct (saved_file_inj _ _ _ _ _ _ _ _ Hsaved Hsaved') as [_ ->].
        by apply (Hfiles m').
      * rewrite Hrest; [unfold s1; cbn; by rewrite lookup_insert_eq|].
        intros m' d' Hm' Hsaved'. apply Hnone. apply Exists_exists. exists m'.
        split; [done|]. change (dir_toplevel s1) with (dir_toplevel s) in Hsaved'.
        change (CacheElement.tile e1) with (CacheElement.tile e) in Hsaved'.
        by rewrite Hsaved'.
    + intros p Hp. rewrite Hrest.
      * unfold s1. cbn. rewrite lookup_insert_ne; [done|].
        intros <-. by apply (Hp meta r); [left|].
      * intros m' d' Hm'. apply Hp. by right.
Qed.

(** ** [flush] *)

Lemma remove_layers_run k metas : forall s e c,
  elem k s = Some e ->
  Tile.data (CacheElement.tile e) = Some c ->
  exists s',
    mfor metas (fun meta => remove_layer k (LayerMetaData.name meta)) s = Return tt s'
    /\ elem k s'
       = Some (CacheElement.set_tile
                 (Tile.set_data
                    (Some (foldl CvGridMap.remove c (map LayerMetaData.name metas)))
                    (CacheElement.tile e)) e)
    /\ (forall k', k' ≠ k -> elem k' s' = elem k' s)
    /\ dir_toplevel s' = dir_toplevel s
    /\ files s' = files s
    /\ trace s' = trace s ++ map (fun meta => EvRemove k (LayerMetaData.name meta)
                                                (CacheElement.was_written e)) metas.
Proof.
  induction metas as [|meta metas IH]; intros s e c He Hd.
  - exists s. split; [done|]. split.
    { rewrite He. f_equal. destruct e as [? ? [] ?]. simpl in *. by subst. }
    split; [done|]. split; [done|]. split; [done|]. by rewrite app_nil_r.
  - set (e1 := CacheElement.set_tile
                 (Tile.set_data (Some (CvGridMap.remove c (LayerMetaData.name meta)))
                    (CacheElement.tile e)) e).
    set (s0 := set_trace (trace s ++ [EvRemove k (LayerMetaData.name meta)
                                        (CacheElement.was_written e)]) s).
    set (s1 := set_cache (store_element k e1 (cache s0)) s0).
    assert (remove_layer k (LayerMetaData.name meta) s = Return tt s1) as Hrun.
    { unfold remove_layer.
      rewrite (bind_run _ _ _ _ _ (element_run _ _ _ He)).
      rewrite (bind_run _ _ _ _ _ (tile_data_run _ _ _ _ He Hd)).
      unfold emit, modify. unfold bind at 1. fold s0.
      by rewrite (set_tile_data_run _ _ _ e). }
    assert (forall k', elem k' s1 = if decide (k = k') then Some e1 else elem k' s) as Hs1.
    { intros k'. unfold elem, s1. cbn [cache set_cache]. apply lookup_store_element. }
    assert (elem k s1 = Some e1) as He1 by (rewrite Hs1; by rewrite decide_True).
    destruct (IH s1 e1 _ He1 eq_refl) as (s' & Hloop & He' & Hother & Hdir & Hfiles & Htrace).
    exists s'. split; [simpl; by rewrite (bind_run _ _ _ _ _ Hrun)|].
    split; [rewrite He'; by destruct e as [? ? [] ?]|].
    split; [intros k' Hne; rewrite Hother by done; rewrite Hs1; by rewrite decide_False|].
    split; [done|]. split; [done|].
    rewrite Htrace. cbn. by rewrite <- app_assoc.
Qed.

(** X15: [write] on an element whose listed layers are all in the raster
    container, with pixel types that [write] knows: it returns; the raster
    of every listed layer is then the content of its file, and no other
    file has changed; the element is marked as written, unless it lists
    no layer, and is otherwise as it was; no other element has changed. *)
Theorem write_saves_every_layer k s e c :
  elem k s = Some e ->
  Tile.data (CacheElement.tile e) = Some c ->
  (forall meta, meta ∈ CacheElement.layer_meta e ->
     is_Some (saved_file (dir_toplevel s) (CacheElement.tile e) c meta)) ->
  exists s',
    write k s = Return tt s'
    /\ elem k s' = Some (if decide (CacheElement.layer_meta e = []) then e
                         else CacheElement.set_was_written true e)
    /\ (forall k', k' ≠ k -> elem k' s' = elem k' s)
    /\ (forall meta p d, meta ∈ CacheElement.layer_meta e ->
          saved_file (dir_toplevel s) (CacheElement.tile e) c meta = Some (p, d) ->
          files s' !! p = Some d)
    /\ (forall p, (forall meta d, meta ∈ CacheElement.layer_meta e ->
                     saved_file (dir_toplevel s) (CacheElement.tile e) c meta ≠ Some (p, d)) ->
          files s' !! p = files s !! p).
Proof.
  intros He Hd Hok.
  destruct (write_layers_content k _ s e c He Hd Hok)
    as (s' & Hrun & He' & Hother & _ & _ & Hfiles & Hrest).
  exists s'. split; [|done].
  unfold write. by rewrite (bind_run _ _ _ _ _ (element_run _ _ _ He)).
Qed.

Lemma write_saves_every_layer_witness :
  let s := cache_with [((5, 0, 0), color_element 5 0 0 false)] (Rect.mk 0 0 1 1) in
  exists s',
    write (5, 0, 0) s = Return tt s'
    /\ elem (5, 0, 0) s' = Some (color_element 5 0 0 true)
    /\ files s' !! "out/color/5/0/0.png" = Some (raster CV_8U)
    /\ files s' !! "out/color/5/0/1.png" = None.
Proof.
  intros s.
  destruct (write_saves_every_layer (5, 0, 0) s (color_element 5 0 0 false)
              [CvGridMap.mkLayer "color" (raster CV_8U) 1] eq_refl eq_refl)
    as (s' & Hrun & He & _ & Hfiles & Hrest).
  { intros meta ->%list_elem_of_singleton. by eexists. }
  exists s'. split; [exact Hrun|]. split; [exact He|]. split.
  - apply (Hfiles (LayerMetaData.mk "color" CV_8U 1)); [by apply list_elem_of_singleton|].
    reflexivity.
  - rewrite Hrest; [reflexivity|].
    intros meta d ->%list_elem_of_singleton. vm_compute. congruence.
Defined.

Lemma persistable_saved toplevel tl c meta :
  persistable c meta ->
  exists d ext,
    CvGridMap.get c (LayerMetaData.name meta) = Some d
    /\ extension (Z.land (LayerMetaData.type meta) CV_MAT_DEPTH_MASK) = Some ext
    /\ saved_file toplevel tl c meta
       = Some (tile_path toplevel (LayerMetaData.name meta) tl +:+ ext, d).
Proof.
  intros (d & Hget & [ext Hext] & Hdepth). exists d, ext.
  split; [done|]. split; [by rewrite Hdepth|].
  unfold saved_file. by rewrite Hget, Hext.
Qed.

(** Where [load] finds what [write] has saved: after the layers of the
    element have been saved, the file that [load] reads for a layer that
    can go to disk and come back holds the raster of that layer. *)
Lemma backing_file_saved s s' tl tl' c (metas : list LayerMetaData.t) meta :
  (forall m p d, m ∈ metas -> saved_file (dir_toplevel s) tl c m = Some (p, d) ->
                 files s' !! p = Some d) ->
  dir_toplevel s' = dir_toplevel s ->
  tile_coords tl' = tile_coords tl ->
  meta ∈ metas ->
  persistable c meta ->
  backing_file s' tl' meta = CvGridMap.get c (LayerMetaData.name meta).
Proof.
  intros Hfiles Hdir Hcoords Hmeta Hpers.
  destruct (persistable_saved (dir_toplevel s) tl c meta Hpers) as (d & ext & Hget & Hext & Hsaved).
  unfold backing_file. rewrite Hext, Hdir, (tile_path_coords _ _ tl' tl Hcoords).
  rewrite Hget. by apply (Hfiles meta).
Qed.

(** X16: a tile that is flushed for the first time comes back from the disk as
    it was: for an element that is not marked as written and whose listed
    layers can all go to disk and come back, [flush] returns, the [load]
    that follows returns, and the raster container then holds, for every
    listed layer, the raster it held before the flush. *)
Theorem flush_then_load_restores k s e c :
  elem k s = Some e ->
  CacheElement.was_written e = false ->
  Tile.data (CacheElement.tile e) = Some c ->
  (forall meta, meta ∈ CacheElement.layer_meta e -> persistable c meta) ->
  exists s1 s2 e2 c2,
    flush k s = Return tt s1
    /\ load k s1 = Return tt s2
    /\ elem k s2 = Some e2
    /\ Tile.data (CacheElement.tile e2) = Some c2
    /\ forall meta, meta ∈ CacheElement.layer_meta e ->
         CvGridMap.get c2 (LayerMetaData.name meta)
         = CvGridMap.get c (LayerMetaData.name meta).
Proof.
  intros He Hw Hd Hpers.
  destruct (write_layers_content k (CacheElement.layer_meta e) s e c He Hd)
    as (sw & Hwrite & Hew & _ & Hdirw & _ & Hfilesw & _).
  { intros meta Hmeta.
    destruct (persistable_saved (dir_toplevel s) (CacheElement.tile e) c meta (Hpers _ Hmeta))
      as (d & ext & _ & _ & ->). by eexists. }
  set (ew := if decide (CacheElement.layer_meta e = []) then e
             else CacheElement.set_was_written true e) in *.
  assert (CacheElement.layer_meta ew = CacheElement.layer_meta e
          /\ CacheElement.tile ew = CacheElement.tile e) as [Hmetaw Htilew].
  { unfold ew. by destruct (decide _). }
  assert (Tile.data (CacheElement.tile ew) = Some c) as Hdw by (by rewrite Htilew).
  destruct (remove_layers_run k (CacheElement.layer_meta e) sw ew c Hew Hdw)
    as (s1 & Hremove & He1 & _ & Hdir1 & Hfiles1 & _).
  set (c1 := foldl CvGridMap.remove c (map LayerMetaData.name (CacheElement.layer_meta e))) in *.
  set (e1 := CacheElement.set_tile (Tile.set_data (Some c1) (CacheElement.tile ew)) ew) in *.
  assert (tile_coords (CacheElement.tile e1) = tile_coords (CacheElement.tile e)) as Hcoords.
  { unfold e1. simpl. by rewrite Htilew. }
  assert (forall meta, meta ∈ CacheElement.layer_meta e ->
            backing_file s1 (CacheElement.tile e1) meta
            = CvGridMap.get c (LayerMetaData.name meta)) as Hbacking.
  { intros meta Hmeta.
    apply (backing_file_saved s s1 (CacheElement.tile e) _ c (CacheElement.layer_meta e));
      [|congruence|done|done|by apply Hpers].
    intros m p d Hm Hsaved. rewrite Hfiles1. by apply (Hfilesw m). }
  destruct (load_layers_content k (CacheElement.layer_meta e) s1 e1 c1 He1 eq_refl)
    as (s2 & c2 & Hload & He2 & _ & _ & _ & Hin & _).
  { intros meta Hmeta. rewrite (Hbacking _ Hmeta).
    destruct (Hpers _ Hmeta) as (d & -> & _). by eexists. }
  exists s1, s2, (CacheElement.set_tile (Tile.set_data (Some c2) (CacheElement.tile e1)) e1), c2.
  split; [|split; [|split; [done|split; [done|]]]].
  - unfold flush. rewrite (bind_run _ _ _ _ _ (element_run _ _ _ He)). rewrite Hw. cbn [negb].
    unfold write. unfold bind at 1 2. rewrite (element_run _ _ _ He), Hwrite.
    by rewrite <- Hremove.
  - unfold load. rewrite (bind_run _ _ _ _ _ (element_run _ _ _ He1)).
    change (CacheElement.layer_meta e1) with (CacheElement.layer_meta ew).
    by rewrite Hmetaw.
  - intros meta Hmeta. destruct (Hpers _ Hmeta) as (d & Hget & _). rewrite Hget.
    apply Hin; [by exists meta|].
    intros m Hm Hname. rewrite (Hbacking _ Hm). by rewrite Hname.
Qed.

Lemma flush_then_load_restores_witness :
  let s := cache_with [((5, 0, 0), color_element 5 0 0 false)] (Rect.mk 0 0 1 1) in
  exists s1 s2 e2 c2,
    flush (5, 0, 0) s = Return tt s1
    /\ elem (5, 0, 0) s1
       = Some (CacheElement.mk 0 [LayerMetaData.mk "color" CV_8U 1]
                 (Tile.mk 5 0 0 (Some []) false) true)
    /\ load (5, 0, 0) s1 = Return tt s2
    /\ elem (5, 0, 0) s2 = Some e2
    /\ Tile.data (CacheElement.tile e2) = Some c2
    /\ CvGridMap.get c2 "color" = Some (raster CV_8U).
Proof.
  intros s.
  destruct (flush_then_load_restores (5, 0, 0) s (color_element 5 0 0 false)
              [CvGridMap.mkLayer "color" (raster CV_8U) 1] eq_refl eq_refl eq_refl)
    as (s1 & s2 & e2 & c2 & Hflush & Hload & He2 & Hd2 & Hsame).
  { intros meta ->%list_elem_of_singleton. exists (raster CV_8U).
    split; [reflexivity|]. split; [by eexists|reflexivity]. }
  exists s1, s2, e2, c2. split; [exact Hflush|]. split.
  { assert (flush (5, 0, 0) s
            = Return tt (match flush (5, 0, 0) s with Return _ s' => s' | _ => s end)) as Hrun
      by (vm_compute; reflexivity).
    rewrite Hrun in Hflush. injection Hflush as <-. vm_compute. reflexivity. }
  split; [exact Hload|]. split; [exact He2|]. split; [exact Hd2|].
  apply (Hsame (LayerMetaData.mk "color" CV_8U 1)). by apply list_elem_of_singleton.
Defined.

(** ** Eviction and reload *)

Lemma remove_all_names c : forall names,
  names = CvGridMap.getAllLayerNames c -> foldl CvGridMap.remove c names = [].
Proof.
  induction c as [|l c IH]; intros names ->; [done|].
  simpl. rewrite bool_decide_true by done. by apply IH.
Qed.

(** The step of the worker on an unlocked element that is in memory, not
    yet written, and whose tile fails the test of lines 88-89: the
    layers are written, the element is marked, and the listed layers are
    removed from the raster container. *)
Lemma process_element_evicts roi k s e c :
  elem k s = Some e ->
  Tile.locked (CacheElement.tile e) = false ->
  CacheElement.was_written e = false ->
  Tile.data (CacheElement.tile e) = Some c ->
  CvGridMap.empty c = false ->
  CacheElement.layer_meta e ≠ [] ->
  (forall meta, meta ∈ CacheElement.layer_meta e -> persistable c meta) ->
  outside_prediction roi (Tile.x (CacheElement.tile e)) (Tile.y (CacheElement.tile e)) = true ->
  exists s1,
    process_element roi k s = Return tt s1
    /\ elem k s1
       = Some (CacheElement.set_was_written true
                 (CacheElement.set_tile
                    (Tile.set_data
                       (Some (foldl CvGridMap.remove c
                                (map LayerMetaData.name (CacheElement.layer_meta e))))
                       (CacheElement.tile e)) e))
    /\ (forall k', k' ≠ k -> elem k' s1 = elem k' s)
    /\ dir_toplevel s1 = dir_toplevel s
    /\ (forall meta p d, meta ∈ CacheElement.layer_meta e ->
          saved_file (dir_toplevel s) (CacheElement.tile e) c meta = Some (p, d) ->
          files s1 !! p = Some d).
Proof.
  intros He Hl Hw Hd Hc Hmetas Hpers Hout.
  set (el := CacheElement.set_tile (Tile.set_locked true (CacheElement.tile e)) e).
  set (sl := set_cache (store_element k el (cache s)) s).
  assert (elem k sl = Some el) as Hel by apply elem_store_eq.
  destruct (write_layers_content k (CacheElement.layer_meta e) sl el c Hel Hd)
    as (sw & Hwrite & Hew & Hotherw & Hdirw & _ & Hfilesw & _).
  { intros meta Hmeta.
    destruct (persistable_saved (dir_toplevel sl) (CacheElement.tile el) c meta (Hpers _ Hmeta))
      as (d & ext & _ & _ & ->). by eexists. }
  rewrite decide_False in Hew by done.
  set (ew := CacheElement.set_was_written true el) in *.
  destruct (remove_layers_run k (CacheElement.layer_meta e) sw ew c Hew Hd)
    as (sr & Hremove & Her & Hotherr & Hdirr & Hfilesr & _).
  set (c1 := foldl CvGridMap.remove c (map LayerMetaData.name (CacheElement.layer_meta e))) in *.
  set (er := CacheElement.set_tile (Tile.set_data (Some c1) (CacheElement.tile ew)) ew) in *.
  eexists. split; [|split; [|split; [|split]]].
  - unfold process_element.
    rewrite (bind_run _ _ _ _ _ (lock_run _ _ _ He Hl)). fold el sl.
    rewrite (bind_run _ _ _ _ _ (element_run _ _ _ Hel)).
    change (CacheElement.was_written el) with (CacheElement.was_written e).
    rewrite Hw. cbn [negb].
    rewrite (bind_run _ _ sl tt sw).
    2:{ unfold write. by rewrite (bind_run _ _ _ _ _ (element_run _ _ _ Hel)). }
    rewrite (bind_run _ _ _ _ _ (isCached_run _ _ _ c Hew Hd)). rewrite Hc. cbn [negb].
    rewrite (bind_run _ _ sw tt sr).
    2:{ rewrite (bind_run _ _ _ _ _ (element_run _ _ _ Hew)). cbv zeta.
        change (Tile.x (CacheElement.tile ew)) with (Tile.x (CacheElement.tile e)).
        change (Tile.y (CacheElement.tile ew)) with (Tile.y (CacheElement.tile e)).
        rewrite Hout. unfold flush.
        rewrite (bind_run _ _ _ _ _ (element_run _ _ _ Hew)). cbn [negb CacheElement.was_written ew CacheElement.set_was_written].
        unfold ret at 1. unfold bind at 1. exact Hremove. }
    apply (unlock_run _ _ _ Her).
  - rewrite elem_store_eq. f_equal. unfold er, ew, el.
    destruct e as [? ? [] ?]. simpl in *. by subst.
  - intros k' Hne. rewrite elem_store_ne by done. rewrite Hotherr, Hotherw by done.
    by apply elem_store_ne.
  - cbn [dir_toplevel set_cache]. by rewrite Hdirr, Hdirw.
  - intros meta p d Hmeta Hsaved. cbn [files set_cache]. rewrite Hfilesr.
    by apply (Hfilesw meta).
Qed.

(** X17: a tile that the worker evicts comes back through [get] as it was.
    Take an unlocked element that is not yet written, whose raster
    container holds the layers that its metadata lists, with pixel types
    that [write] knows and of the recorded depth, and whose tile fails the
    test of the worker.  The step of the worker writes and empties it, and
    the [get] that follows loads it and returns the tile, locked, with the
    raster that every layer had before the eviction. *)
Theorem evicted_tile_comes_back roi zoom_level x y s e c :
  elem (zoom_level, x, y) s = Some e ->
  Tile.locked (CacheElement.tile e) = false ->
  CacheElement.was_written e = false ->
  Tile.data (CacheElement.tile e) = Some c ->
  CvGridMap.empty c = false ->
  map LayerMetaData.name (CacheElement.layer_meta e) = CvGridMap.getAllLayerNames c ->
  (forall meta, meta ∈ CacheElement.layer_meta e -> persistable c meta) ->
  outside_prediction roi (Tile.x (CacheElement.tile e)) (Tile.y (CacheElement.tile e)) = true ->
  exists s1 s2 e1 t c2,
    process_element roi (zoom_level, x, y) s = Return tt s1
    /\ elem (zoom_level, x, y) s1 = Some e1
    /\ Tile.data (CacheElement.tile e1) = Some []
    /\ CacheElement.was_written e1 = true
    /\ get x y zoom_level s1 = Return (Some t) s2
    /\ Tile.locked t = true
    /\ Tile.data t = Some c2
    /\ forall meta, meta ∈ CacheElement.layer_meta e ->
         CvGridMap.get c2 (LayerMetaData.name meta)
         = CvGridMap.get c (LayerMetaData.name meta).
Proof.
  intros He Hl Hw Hd Hc Hnames Hpers Hout. set (k := (zoom_level, x, y)) in *.
  assert (CacheElement.layer_meta e ≠ []) as Hmetas.
  { intros Hnil. rewrite Hnil in Hnames. by destruct c. }
  destruct (process_element_evicts roi k s e c He Hl Hw Hd Hc Hmetas Hpers Hout)
    as (s1 & Hrun & He1 & _ & Hdir1 & Hfiles1).
  rewrite (remove_all_names c _ Hnames) in He1.
  set (e1 := CacheElement.set_was_written true
               (CacheElement.set_tile (Tile.set_data (Some []) (CacheElement.tile e)) e)) in *.
  set (el := CacheElement.set_tile (Tile.set_locked true (CacheElement.tile e1)) e1).
  set (sl := set_cache (store_element k el (cache s1)) s1).
  assert (elem k sl = Some el) as Hel by apply elem_store_eq.
  assert (forall meta, meta ∈ CacheElement.layer_meta e ->
            backing_file sl (CacheElement.tile el) meta
            = CvGridMap.get c (LayerMetaData.name meta)) as Hbacking.
  { intros meta Hmeta.
    apply (backing_file_saved s sl (CacheElement.tile e) _ c (CacheElement.layer_meta e));
      [|done|done|done|by apply Hpers].
    intros m p d Hm Hsaved. by apply (Hfiles1 m). }
  destruct (load_layers_content k (CacheElement.layer_meta e) sl el [] Hel eq_refl)
    as (s2 & c2 & Hload & He2 & _ & _ & _ & Hin & _).
  { intros meta Hmeta. rewrite (Hbacking _ Hmeta).
    destruct (Hpers _ Hmeta) as (d & -> & _). by eexists. }
  exists s1, s2, e1, (Tile.set_data (Some c2) (CacheElement.tile el)), c2.
  split; [exact Hrun|]. split; [exact He1|]. split; [done|]. split; [done|].
  split; [|split; [done|split; [done|]]].
  - rewrite (get_present_eq _ _ _ _ _ He1). cbv zeta. fold k.
    rewrite (bind_run _ _ _ _ _ (lock_run _ _ _ He1 Hl)). fold el sl.
    rewrite (bind_run _ _ _ _ _ (isCached_run _ _ _ [] Hel eq_refl)). cbn [negb CvGridMap.empty].
    rewrite (bind_run _ _ sl tt s2).
    2:{ unfold load. by rewrite (bind_run _ _ _ _ _ (element_run _ _ _ Hel)). }
    by rewrite (bind_run _ _ _ _ _ (element_run _ _ _ He2)).
  - intros meta Hmeta. destruct (Hpers _ Hmeta) as (d & Hget & _). rewrite Hget.
    apply Hin; [by exists meta|].
    intros m Hm Hname. rewrite (Hbacking _ Hm). by rewrite Hname.
Qed.

Lemma evicted_tile_comes_back_witness :
  let s := cache_with [((5, 4, 4), color_element 5 4 4 false)] (Rect.mk 0 0 2 2) in
  exists s1 s2 e1 t c2,
    process_element (Rect.mk 0 0 2 2) (5, 4, 4) s = Return tt s1
    /\ elem (5, 4, 4) s1 = Some e1
    /\ Tile.data (CacheElement.tile e1) = Some []
    /\ get 4 4 5 s1 = Return (Some t) s2
    /\ Tile.data t = Some c2
    /\ CvGridMap.get c2 "color" = Some (raster CV_8U).
Proof.
  intros s.
  destruct (evicted_tile_comes_back (Rect.mk 0 0 2 2) 5 4 4 s (color_element 5 4 4 false)
              [CvGridMap.mkLayer "color" (raster CV_8U) 1]
              eq_refl eq_refl eq_refl eq_refl eq_refl eq_refl)
    as (s1 & s2 & e1 & t & c2 & Hrun & He1 & Hd1 & _ & Hget & _ & Hd2 & Hsame).
  { intros meta ->%list_elem_of_singleton. exists (raster CV_8U).
    split; [reflexivity|]. split; [by eexists|reflexivity]. }
  { reflexivity. }
  exists s1, s2, e1, t, c2. split; [exact Hrun|]. split; [exact He1|]. split; [exact Hd1|].
  split; [exact Hget|]. split; [exact Hd2|].
  apply (Hsame (LayerMetaData.mk "color" CV_8U 1)). by apply list_elem_of_singleton.
Defined.

(** * Write once *)

Lemma element_inv k s :
  (exists e, elem k s = Some e /\ element k s = Return e s)
  \/ element k s = Undefined null_pointer_dereference.
Proof.
  destruct (elem k s) as [e|] eqn:He.
  - left. exists e. split; [done|]. by apply element_run.
  - right. by apply element_null.
Qed.

Section write_once.
(** The state in which the operation starts. *)
Context (s0 : state).

Lemma unwritten_disk_survives_update k : survives_update k worker_update (unwritten_disk s0).
Proof.
  intros s e e' [Hfiles Hall] He (d & l & w & ->). split; [done|].
  intros k' e0. rewrite elem_store. case_decide as Hk; [|apply Hall].
  intros [= <-]. simpl. by rewrite (Hall k e He).
Qed.

Lemma unwritten_disk_survives_payload k : survives_update k payload_update (unwritten_disk s0).
Proof.
  intros s e e' Hs He Hupd.
  eapply unwritten_disk_survives_update; eauto using payload_worker_update.
Qed.

(** An element that is marked as written is not written again. *)
Lemma unwritten_disk_skip_write {A} k (rest : M A) :
  stable (unwritten_disk s0) rest ->
  stable (unwritten_disk s0)
    (e <- element k ;;
     (if negb (CacheElement.was_written e) then write k else ret tt) ;;;
     rest).
Proof.
  intros Hrest s Hs.
  destruct (element_inv k s) as [(e & Helem & He)|He];
    [|by rewrite (bind_undefined _ _ _ _ He)].
  rewrite (bind_run _ _ _ _ _ He).
  rewrite (proj2 Hs k e Helem). cbn [negb].
  unfold ret at 1. unfold bind at 1. by apply Hrest.
Qed.

Lemma unwritten_disk_remove_layer k layer : stable (unwritten_disk s0) (remove_layer k layer).
Proof.
  unfold remove_layer. stable_steps.
  - apply stable_tile_data.
  - by apply stable_modify.
  - apply stable_set_tile_data, unwritten_disk_survives_payload.
Qed.

Lemma unwritten_disk_flush k : stable (unwritten_disk s0) (flush k).
Proof.
  intros s Hs. unfold flush.
  destruct (element_inv k s) as [(e & Helem & He)|He];
    [|by rewrite (bind_undefined _ _ _ _ He)].
  rewrite (bind_run _ _ _ _ _ He).
  rewrite (proj2 Hs k e Helem). cbn [negb]. unfold ret at 1. unfold bind at 1.
  assert (stable (unwritten_disk s0)
            (mfor (CacheElement.layer_meta e)
                  (fun meta => remove_layer k (LayerMetaData.name meta)))) as Hloop.
  { apply stable_mfor. intros meta _. apply unwritten_disk_remove_layer. }
  exact (Hloop s Hs).
Qed.

Lemma unwritten_disk_process_element roi k : stable (unwritten_disk s0) (process_element roi k).
Proof.
  unfold process_element.
  apply stable_bind; [apply stable_lock, unwritten_disk_survives_payload|]. intros [].
  apply unwritten_disk_skip_write.
  apply stable_bind; [apply stable_isCached|]. intros cached.
  apply stable_bind; [|intros []; apply stable_unlock, unwritten_disk_survives_payload].
  destruct cached; [|apply stable_ret].
  apply stable_bind; [apply stable_element|]. intros e. cbv zeta.
  destruct (outside_prediction _ _ _); [apply unwritten_disk_flush|apply stable_ret].
Qed.

Lemma unwritten_disk_process : stable (unwritten_disk s0) process.
Proof.
  apply stable_process_from_elements; [apply unwritten_disk_process_element|done].
Qed.

Lemma unwritten_disk_flushAll : stable (unwritten_disk s0) flushAll.
Proof.
  unfold flushAll, for_each_element.
  apply stable_bind; [apply stable_gets|]. intros c.
  apply stable_mfor. intros z _. apply stable_mfor. intros x _. apply stable_mfor. intros y _.
  apply stable_bind; [apply stable_lock, unwritten_disk_survives_payload|]. intros [].
  apply unwritten_disk_skip_write.
  apply stable_bind; [apply stable_set_tile_data, unwritten_disk_survives_payload|].
  intros []. apply stable_unlock, unwritten_disk_survives_payload.
Qed.

Lemma unwritten_disk_final {A} (m : M A) s' :
  stable (unwritten_disk s0) m -> all_written s0 -> final_state (m s0) = Some s' ->
  files s' = files s0.
Proof.
  intros Hm Hall Hfinal.
  by destruct (stable_final_state (unwritten_disk s0) m s0 s' Hm (conj eq_refl Hall) Hfinal).
Qed.
End write_once.

(** X18: an element is written once: when every element of the store is
    marked as written, a cycle of the worker, [flushAll] and the destructor
    leave the disk as it is, whichever way they end, also where they
    evict.  What has changed in a raster since it was written is not
    saved. *)
Theorem written_elements_are_not_rewritten s s' :
  all_written s ->
  final_state (process s) = Some s'
  \/ final_state (flushAll s) = Some s'
  \/ final_state (TileCache_destructor s) = Some s' ->
  files s' = files s.
Proof.
  intros Hall [Hfinal|[Hfinal|Hfinal]].
  - by apply (unwritten_disk_final s process s' (unwritten_disk_process s)).
  - by apply (unwritten_disk_final s flushAll s' (unwritten_disk_flushAll s)).
  - by apply (unwritten_disk_final s flushAll s' (unwritten_disk_flushAll s)).
Qed.

Lemma written_elements_are_not_rewritten_witness :
  let s := cache_with [((5, 4, 4), color_element 5 4 4 true)] (Rect.mk 0 0 2 2) in
  let s' := match process s with Return _ s' => s' | _ => s end in
  all_written s
  /\ final_state (process s) = Some s'
  /\ trace s' = [EvRemove (5, 4, 4) "color" true]
  /\ files s = ∅
  /\ files s' = files s.
Proof.
  intros s s'.
  assert (all_written s) as Hall.
  { intros k e He. destruct (decide (k = (5, 4, 4))) as [->|Hne].
    - vm_compute in He. by injection He as <-.
    - unfold s, cache_with in He. simpl in He. unfold elem in He. cbn [cache set_cache set_do_update set_roi_prediction] in He.
      rewrite lookup_store_element_ne in He by done. destruct k as [[z x] y]. by vm_compute in He. }
  assert (final_state (process s) = Some s') as H by (vm_compute; reflexivity).
  split; [exact Hall|]. split; [exact H|]. split; [vm_compute; reflexivity|].
  split; [reflexivity|].
  exact (written_elements_are_not_rewritten s s' Hall (or_introl H)).
Defined.

(** * Locks that are released, and locks that are not *)

Lemma triple_true {A} (m : M A) :
  triple (fun _ => True) m (fun _ _ => True) (fun _ => True).
Proof. intros s _. by destruct (m s). Qed.

Lemma triple_conj {A} (P P' : state -> Prop) (m : M A) (Q Q' : A -> state -> Prop)
    (E E' : state -> Prop) :
  triple P m Q E -> triple P' m Q' E' ->
  triple (fun s => P s /\ P' s) m (fun a s => Q a s /\ Q' a s) (fun s => E s /\ E' s).
Proof.
  intros H H' s [Hs Hs']. specialize (H s Hs). specialize (H' s Hs').
  by destruct (m s).
Qed.

Lemma unlock_unlocks k :
  triple (fun _ => True) (unlock k)
         (fun _ s => forall e, elem k s = Some e -> Tile.locked (CacheElement.tile e) = false)
         (fun _ => True).
Proof.
  intros s _. destruct (elem k s) as [e|] eqn:He.
  - rewrite (unlock_run _ _ _ He). intros e'. rewrite elem_store_eq. by intros [= <-].
  - unfold unlock, update_element. by rewrite (bind_undefined _ _ _ _ (element_null _ _ He)).
Qed.

Lemma unlocked_survives_other k k' F :
  k' ≠ k ->
  survives_update k' F
    (fun s => forall e, elem k s = Some e -> Tile.locked (CacheElement.tile e) = false).
Proof. intros Hne s e e' Hs _ _ e0. rewrite elem_store_ne by done. apply Hs. Qed.

(** The step of the worker on one element releases the lock it takes, and
    touches no other lock. *)
Lemma process_element_all_unlocked roi k :
  triple all_unlocked (process_element roi k) (fun _ => all_unlocked) (fun _ => True).
Proof.
  intros s Hs.
  assert (triple (fun _ => True) (process_element roi k)
            (fun _ s => forall e, elem k s = Some e -> Tile.locked (CacheElement.tile e) = false)
            (fun _ => True)) as Hown.
  { unfold process_element.
    eapply triple_bind; [apply triple_true|]. intros [].
    eapply triple_bind; [apply triple_true|]. intros e.
    eapply triple_bind; [apply triple_true|]. intros [].
    eapply triple_bind; [apply triple_true|]. intros cached.
    eapply triple_bind; [apply triple_true|]. intros []. apply unlock_unlocks. }
  specialize (Hown s I).
  destruct (process_element roi k s) as [[] s1| | |] eqn:Hrun; [|done..].
  intros k' e'. destruct (decide (k' = k)) as [->|Hne]; [apply Hown|].
  pose proof (stable_process_element _ k (unlocked_survives_other k' k worker_update
                                            (not_eq_sym Hne))) as Hother.
  specialize (Hother ltac:(by split) roi s (Hs k')). rewrite Hrun in Hother. apply Hother.
Qed.

(** X19: a cycle of the worker that returns with work done has found every
    tile of the store unlocked, and leaves every tile unlocked. *)
Theorem process_releases_every_lock s s' :
  process s = Return true s' -> all_unlocked s /\ all_unlocked s'.
Proof.
  intros Hrun.
  assert (do_update s = true) as Hdu by (by rewrite <- (process_returns_do_update s true s' Hrun)).
  assert (all_unlocked s) as Hs.
  { intros k e He. destruct (Tile.locked (CacheElement.tile e)) eqn:Hl; [|done].
    destruct (locked_at_stalls_process k s (ex_intro _ e (conj He Hl)) Hdu true s' Hrun). }
  split; [exact Hs|].
  assert (triple all_unlocked process (fun _ => all_unlocked) (fun _ => True)) as Hprocess.
  { unfold process.
    eapply triple_bind; [apply (triple_gets _ _ (fun _ => all_unlocked)); auto|]. intros du.
    eapply triple_bind; [apply (triple_modify _ _ (fun _ => all_unlocked)); auto|]. intros [].
    destruct du; [|by apply triple_ret].
    eapply triple_bind; [apply (triple_gets _ _ (fun _ => all_unlocked)); auto|]. intros c.
    eapply (triple_bind _ _ _ (fun _ => all_unlocked)); [|intros []; by apply triple_ret].
    apply triple_mfor_inv. intros z _. unfold process_zoom.
    eapply triple_bind; [apply (triple_gets _ _ (fun _ => all_unlocked)); auto|]. intros pred.
    eapply (triple_bind _ _ _ (fun _ => all_unlocked)).
    { destruct (pred !! z); [by apply triple_ret|by apply triple_throw]. }
    intros roi. apply triple_mfor_inv. intros x _. unfold process_column.
    apply triple_mfor_inv. intros y _. apply process_element_all_unlocked. }
  specialize (Hprocess s Hs). by rewrite Hrun in Hprocess.
Qed.

Lemma process_releases_every_lock_witness :
  let s := cache_with [((5, 1, 1), color_element 5 1 1 false);
                       ((5, 4, 4), color_element 5 4 4 false)] (Rect.mk 0 0 2 2) in
  let s' := match process s with Return _ s' => s' | _ => s end in
  process s = Return true s' /\ all_unlocked s /\ all_unlocked s'.
Proof.
  intros s s'.
  assert (process s = Return true s') as H by (vm_compute; reflexivity).
  split; [exact H|]. exact (process_releases_every_lock s s' H).
Defined.

(** ** A step that fails *)

Lemma lock_locks k :
  triple (fun _ => True) (lock k) (fun _ => locked_at k) (locked_at k).
Proof.
  intros s _. destruct (elem k s) as [e|] eqn:He.
  - destruct (Tile.locked (CacheElement.tile e)) eqn:Hl.
    + rewrite (lock_blocked _ _ _ He Hl). by exists e.
    + rewrite (lock_run _ _ _ He Hl). eexists. split; [apply elem_store_eq|done].
  - unfold lock. by rewrite (bind_undefined _ _ _ _ (element_null _ _ He)).
Qed.

Lemma locked_at_write k : stable (locked_at k) (write k).
Proof.
  apply stable_write_from_layers. intros meta. unfold write_layer. stable_steps.
  - apply stable_tile_data.
  - by apply stable_modify.
  - by apply stable_modify.
  - apply (stable_update_element _ _ keeps_lock); [apply locked_at_survives_keeps_lock|].
    intros e. by destruct e as [? ? [] ?].
Qed.

Lemma locked_at_set_tile_data k d : stable (locked_at k) (set_tile_data k d).
Proof.
  unfold set_tile_data.
  apply (stable_update_element _ _ keeps_lock); [apply locked_at_survives_keeps_lock|].
  intros e. by destruct e as [? ? [] ?].
Qed.

Lemma locked_at_flush k : stable (locked_at k) (flush k).
Proof.
  unfold flush. stable_steps.
  - apply locked_at_write.
  - unfold remove_layer. stable_steps.
    + apply stable_tile_data.
    + by apply stable_modify.
    + apply locked_at_set_tile_data.
Qed.

Lemma unlock_never_fails k :
  triple (locked_at k) (unlock k) (fun _ _ => True) (locked_at k).
Proof.
  intros s (e & He & _). by rewrite (unlock_run _ _ _ He).
Qed.

(** A step of the worker, of [flushAll] or of [loadAll] that does not
    return leaves the tile of its element locked. *)
Lemma process_element_fails_locked roi k :
  triple (fun _ => True) (process_element roi k) (fun _ _ => True) (locked_at k).
Proof.
  unfold process_element.
  eapply triple_bind; [apply lock_locks|]. intros [].
  eapply triple_bind; [apply stable_element|]. intros e.
  eapply (triple_bind _ _ _ (fun _ => locked_at k)).
  { destruct (negb (CacheElement.was_written e)); [apply locked_at_write|apply stable_ret]. }
  intros []. eapply triple_bind; [apply stable_isCached|]. intros cached.
  eapply (triple_bind _ _ _ (fun _ => locked_at k)).
  { destruct cached; [|apply stable_ret].
    eapply triple_bind; [apply stable_element|]. intros e'. cbv zeta.
    destruct (outside_prediction _ _ _); [apply locked_at_flush|apply stable_ret]. }
  intros []. apply unlock_never_fails.
Qed.

Lemma flushAll_body_fails_locked k :
  triple (fun _ => True)
    (lock k ;;;
     e <- element k ;;
     (if negb (CacheElement.was_written e) then write k else ret tt) ;;;
     set_tile_data k None ;;;
     unlock k)
    (fun _ _ => True) (locked_at k).
Proof.
  eapply triple_bind; [apply lock_locks|]. intros [].
  eapply triple_bind; [apply stable_element|]. intros e.
  eapply (triple_bind _ _ _ (fun _ => locked_at k)).
  { destruct (negb (CacheElement.was_written e)); [apply locked_at_write|apply stable_ret]. }
  intros []. eapply triple_bind; [apply locked_at_set_tile_data|].
  intros []. apply unlock_never_fails.
Qed.

Lemma loadAll_body_fails_locked k :
  triple (fun _ => True)
    (lock k ;;;
     cached <- isCached k ;;
     (if negb cached then load k else ret tt) ;;;
     unlock k)
    (fun _ _ => True) (locked_at k).
Proof.
  eapply triple_bind; [apply lock_locks|]. intros [].
  eapply triple_bind; [apply stable_isCached|]. intros cached.
  eapply (triple_bind _ _ _ (fun _ => locked_at k)).
  { destruct (negb cached); [apply locked_at_load|apply stable_ret]. }
  intros []. apply unlock_never_fails.
Qed.

Lemma mfor_fails_locked {A} (l : list A) (body : A -> M unit) (key_of : A -> key) :
  (forall a, triple (fun _ => True) (body a) (fun _ _ => True) (locked_at (key_of a))) ->
  triple (fun _ => True) (mfor l body) (fun _ _ => True) (fun s => exists k, locked_at k s).
Proof.
  intros Hbody. apply triple_mfor_inv. intros a _.
  eapply triple_conseq; [apply (Hbody a)|done|done|]. intros s Hs. by exists (key_of a).
Qed.

(** X20: an exception leaves a tile locked.  No function of the cache catches
    an exception or unlocks a tile on the way out: when a cycle of the
    worker (on a store whose zoom levels all have a predicted ROI),
    [flushAll] or [loadAll] ends with an exception, or waits for a lock,
    the tile of some element is locked in the state in which it ends. *)
Theorem failure_leaves_a_tile_locked s :
  (all_predicted s ->
   match process s with
   | Throw _ s' | Blocked s' => exists k, locked_at k s'
   | Return _ _ | Undefined _ => True
   end)
  /\ match flushAll s with
     | Throw _ s' | Blocked s' => exists k, locked_at k s'
     | Return _ _ | Undefined _ => True
     end
  /\ match loadAll s with
     | Throw _ s' | Blocked s' => exists k, locked_at k s'
     | Return _ _ | Undefined _ => True
     end.
Proof.
  split; [|split].
  - intros Hpred.
    assert (triple (fun s1 => roi_prediction s1 = roi_prediction s)
              (mfor (keys_ascending (cache s)) (process_zoom (cache s)))
              (fun _ s1 => roi_prediction s1 = roi_prediction s)
              (fun s1 => exists k, locked_at k s1)) as Hloop.
    { apply triple_mfor_inv. intros z Hz. apply elem_of_keys_ascending in Hz.
      destruct (Hpred z Hz) as [roi Hroi].
      intros s1 Hs1. unfold process_zoom. unfold bind at 1 2, gets at 1.
      rewrite Hs1, Hroi. unfold ret at 1.
      revert s1 Hs1.
      change (triple (fun s1 => roi_prediction s1 = roi_prediction s)
                (mfor (keys_ascending (default ∅ (cache s !! z)))
                      (process_column (cache s) roi z))
                (fun _ s1 => roi_prediction s1 = roi_prediction s)
                (fun s1 => exists k, locked_at k s1)).
      apply triple_mfor_inv. intros x _. unfold process_column.
      apply triple_mfor_inv. intros y _.
      eapply triple_conseq;
        [apply (triple_conj _ _ _ _ _ _ _
                  (roi_prediction_process_element (roi_prediction s) roi (z, x, y))
                  (process_element_fails_locked roi (z, x, y)))| | |].
      - by intros s1 ?.
      - by intros [] s1 [? _].
      - intros s1 [_ ?]. by exists (z, x, y). }
    unfold process. unfold bind at 1 2, gets at 1, modify at 1.
    destruct (do_update s); [|done].
    unfold bind at 1, gets at 1. cbn [cache set_do_update].
    specialize (Hloop (set_do_update false s) eq_refl). unfold bind.
    by destruct (mfor _ _ (set_do_update false s)) as [[] s1|ex s1|s1|u].
  - unfold flushAll. unfold bind at 1, gets at 1. rewrite for_each_element_all_keys.
    pose proof (mfor_fails_locked (all_keys (cache s)) _ id flushAll_body_fails_locked s I)
      as Hloop.
    by destruct (mfor _ _ s) as [[] s1|ex s1|s1|u].
  - unfold loadAll. unfold bind at 1, gets at 1. rewrite for_each_element_all_keys.
    pose proof (mfor_fails_locked (all_keys (cache s)) _ id loadAll_body_fails_locked s I)
      as Hloop.
    by destruct (mfor _ _ s) as [[] s1|ex s1|s1|u].
Qed.

Lemma failure_leaves_a_tile_locked_witness :
  all_predicted cache_with_unknown_type
  /\ (exists s', process cache_with_unknown_type
                  = Throw (invalid_argument "Error writing tile: data type unknown!") s'
                  /\ exists k, locked_at k s').
Proof.
  assert (all_predicted cache_with_unknown_type) as Hpred.
  { intros z [grid Hz]. destruct (decide (z = 5)) as [->|Hne]; [by eexists|].
    exfalso. revert Hz. unfold cache_with_unknown_type, cache_with. cbn.
    unfold store_element. rewrite !lookup_insert_ne by done. by rewrite lookup_empty. }
  split; [exact Hpred|].
  pose proof (proj1 (failure_leaves_a_tile_locked cache_with_unknown_type) Hpred) as Hends.
  assert (process cache_with_unknown_type
          = Throw (invalid_argument "Error writing tile: data type unknown!")
              (match process cache_with_unknown_type with
               | Throw _ s' => s' | _ => cache_with_unknown_type end)) as Hrun
    by (vm_compute; reflexivity).
  rewrite Hrun in Hends. eexists. split; [exact Hrun|exact Hends].
Defined.


(** * Changing the output directory *)

(** X21: [setOutputFolder] changes where the cache looks, not where the files
    are: the disk is as it was, and the [get] of an evicted tile fails
    with "Error loading tile." when the file of its first layer does not
    exist below the new directory, wherever the tile was written. *)
Theorem setOutputFolder_does_not_move_files dir tx ty zoom_level s e c meta rest ext :
  elem (zoom_level, tx, ty) s = Some e ->
  Tile.locked (CacheElement.tile e) = false ->
  Tile.data (CacheElement.tile e) = Some c ->
  CvGridMap.empty c = true ->
  CacheElement.layer_meta e = meta :: rest ->
  extension (Z.land (LayerMetaData.type meta) CV_MAT_DEPTH_MASK) = Some ext ->
  files s !! (tile_path dir (LayerMetaData.name meta) (CacheElement.tile e) +:+ ext) = None ->
  exists s1 s2,
    setOutputFolder dir s = Return tt s1
    /\ dir_toplevel s1 = dir
    /\ files s1 = files s
    /\ get tx ty zoom_level s1 = Throw (invalid_argument "Error loading tile.") s2.
Proof.
  intros He Hl Hd Hc Hmeta Hext Hfile.
  set (k := (zoom_level, tx, ty)) in *.
  set (s1 := set_dir_toplevel dir s).
  assert (elem k s1 = Some e) as He1 by done.
  set (el := CacheElement.set_tile (Tile.set_locked true (CacheElement.tile e)) e).
  set (sl := set_cache (store_element k el (cache s1)) s1).
  assert (elem k sl = Some el) as Hel by apply elem_store_eq.
  exists s1, sl. split; [done|]. split; [done|]. split; [done|].
  rewrite (get_present_eq _ _ _ _ _ He1). cbv zeta. fold k.
  rewrite (bind_run _ _ _ _ _ (lock_run _ _ _ He1 Hl)). fold el sl.
  rewrite (bind_run _ _ _ _ _ (isCached_run _ _ _ c Hel Hd)). rewrite Hc. cbn [negb].
  apply bind_throw. unfold load. rewrite (bind_run _ _ _ _ _ (element_run _ _ _ Hel)).
  change (CacheElement.layer_meta el) with (CacheElement.layer_meta e). rewrite Hmeta.
  simpl. apply bind_throw. unfold load_layer.
  rewrite (bind_run _ _ _ _ _ (element_run _ _ _ Hel)).
  unfold gets at 1. unfold bind at 1. rewrite Hext.
  unfold gets at 1. unfold bind at 1.
  change (files sl) with (files s). change (dir_toplevel sl) with dir.
  change (tile_path dir (LayerMetaData.name meta) (CacheElement.tile el))
    with (tile_path dir (LayerMetaData.name meta) (CacheElement.tile e)).
  by rewrite Hfile.
Qed.

Lemma setOutputFolder_does_not_move_files_witness :
  (exists t s', get 0 0 5 evicted_cache = Return (Some t) s')
  /\ exists s1 s2,
       setOutputFolder "elsewhere" evicted_cache = Return tt s1
       /\ dir_toplevel s1 = "elsewhere"
       /\ files s1 = files evicted_cache
       /\ get 0 0 5 s1 = Throw (invalid_argument "Error loading tile.") s2.
Proof.
  split; [do 2 eexists; vm_compute; reflexivity|].
  apply (setOutputFolder_does_not_move_files "elsewhere" 0 0 5 evicted_cache evicted_element []
           (LayerMetaData.mk "color" CV_8U 1) [] ".png"); reflexivity.
Defined.

(** * The cycle ends at the first exception *)

Lemma mfor_throw_iff {A} (body : A -> M unit) l s ex s' :
  mfor l body s = Throw ex s' <->
  exists done a rest s_mid,
    l = done ++ a :: rest
    /\ mfor done body s = Return tt s_mid
    /\ body a s_mid = Throw ex s'.
Proof.
  split; [apply mfor_throw_inv|].
  intros (done & a & rest & s_mid & -> & Hdone & Ha).
  rewrite mfor_app, (bind_run _ _ _ _ _ Hdone). simpl. by apply bind_throw.
Qed.

(** Two loops with bodies that agree on the states of an invariant. *)
Lemma mfor_ext_inv {A} (I : state -> Prop) (l : list A) (f g : A -> M unit) :
  (forall a s, a ∈ l -> I s -> f a s = g a s) ->
  (forall a, a ∈ l -> triple I (g a) (fun _ => I) (fun _ => True)) ->
  forall s, I s -> mfor l f s = mfor l g s.
Proof.
  induction l as [|a l IH]; intros Hfg Hg s Hs; [done|].
  simpl. unfold bind. rewrite (Hfg a s) by (done || by left).
  pose proof (Hg a ltac:(by left) s Hs) as Ha.
  destruct (g a s) as [[] s1| | |]; [|done..].
  apply IH; [|intros a' Ha'; apply Hg; by right|done].
  intros a' s2 Ha' Hs2. apply Hfg; [by right|done].
Qed.

(** The keys of a zoom level, in the order of the two inner loops. *)
Lemma all_keys_zoom c :
  all_keys c =
  keys_ascending c ≫= fun z =>
    keys_ascending (default ∅ (c !! z)) ≫= fun x =>
    keys_ascending (default ∅ (default ∅ (c !! z) !! x)) ≫= fun y => [(z, x, y)].
Proof. reflexivity. Qed.

Lemma cycle_step_roi_prediction pred k :
  stable (fun s => roi_prediction s = pred) (cycle_step pred k).
Proof.
  unfold cycle_step. destruct (pred !! k.1.1); [|by apply stable_throw].
  apply roi_prediction_process_element.
Qed.

(** The loop of [process] over one zoom level runs the steps of the
    elements of the zoom level. *)
Lemma process_zoom_steps c z grid pred s :
  c !! z = Some grid ->
  roi_prediction s = pred ->
  (is_Some (pred !! z)
   \/ exists x column y e, grid !! x = Some column /\ column !! y = Some e) ->
  process_zoom c z s =
  mfor (keys_ascending grid ≫= fun x =>
          keys_ascending (default ∅ (grid !! x)) ≫= fun y => [(z, x, y)])
       (cycle_step pred) s.
Proof.
  intros Hz Hpred Hready. unfold process_zoom. unfold bind at 1, gets at 1.
  rewrite Hpred, Hz. cbn [default].
  destruct (pred !! z) as [roi|] eqn:Hroi.
  - unfold ret at 1. unfold bind at 1. rewrite mfor_list_bind.
    apply mfor_ext. intros x s1. unfold process_column. rewrite Hz. cbn [default].
    rewrite mfor_list_bind. apply mfor_ext. intros y s2.
    simpl. unfold cycle_step. cbn [fst]. rewrite Hroi. unfold bind, ret.
    by destruct (process_element roi (z, x, y) s2) as [[] ?| | |].
  - unfold throw at 1. unfold bind at 1.
    destruct Hready as [[? ?]|(x & column & y & e & Hx & Hy)]; [done|].
    assert ((z, x, y) ∈ (keys_ascending grid ≫= fun x =>
              keys_ascending (default ∅ (grid !! x)) ≫= fun y => [(z, x, y)])) as Hin.
    { apply list_elem_of_bind. exists x. split; [|apply elem_of_keys_ascending; by eauto].
      apply list_elem_of_bind. exists y. rewrite Hx. cbn [default].
      split; [by apply list_elem_of_singleton|]. apply elem_of_keys_ascending. by eauto. }
    destruct (keys_ascending grid ≫= _) as [|k0 rest] eqn:Hkeys;
      [by apply elem_of_nil in Hin|].
    assert (k0.1.1 = z) as Hk0.
    { assert (k0 ∈ k0 :: rest) as Hk0 by (by left). rewrite <- Hkeys in Hk0.
      apply list_elem_of_bind in Hk0 as (x0 & Hk0 & _).
      apply list_elem_of_bind in Hk0 as (y0 & Hk0 & _).
      by apply list_elem_of_singleton in Hk0 as ->. }
    simpl. unfold cycle_step. rewrite Hk0, Hroi. done.
Qed.

(** A cycle with a pending update runs the steps of the elements of the
    store, in the order of its loops. *)
Lemma process_steps s :
  do_update s = true ->
  no_empty_zoom_level s ->
  process s =
  (mfor (all_keys (cache s)) (cycle_step (roi_prediction s)) ;;; ret true)
    (set_do_update false s).
Proof.
  intros Hdu Hready. unfold process. unfold bind at 1 2, gets at 1, modify at 1.
  rewrite Hdu. unfold bind at 1, gets at 1. cbn [cache set_do_update].
  set (s0 := set_do_update false s). set (c := cache s). set (pred := roi_prediction s).
  unfold bind. rewrite all_keys_zoom, mfor_list_bind.
  rewrite (mfor_ext_inv (fun s1 => roi_prediction s1 = pred) (keys_ascending c)
             (process_zoom c)
             (fun z => mfor (keys_ascending (default ∅ (c !! z)) ≫= fun x =>
                               keys_ascending (default ∅ (default ∅ (c !! z) !! x)) ≫= fun y =>
                               [(z, x, y)])
                            (cycle_step pred))); [done| | |done].
  - intros z s1 Hz Hs1. apply elem_of_keys_ascending in Hz as [grid Hz].
    rewrite (process_zoom_steps c z grid pred s1 Hz Hs1); [by rewrite Hz|].
    by apply (Hready z grid).
  - intros z _. eapply triple_conseq;
      [apply (stable_mfor (fun s1 => roi_prediction s1 = pred))|done|done|done].
    intros k _. apply cycle_step_roi_prediction.
Qed.

Lemma write_no_layers k s e :
  elem k s = Some e -> CacheElement.layer_meta e = [] -> write k s = Return tt s.
Proof.
  intros He Hmeta. unfold write. rewrite (bind_run _ _ _ _ _ (element_run _ _ _ He)).
  by rewrite Hmeta.
Qed.

(** After the write, the step of the worker on an element does not
    throw. *)
Lemma after_write_no_exception roi k s e ex s' :
  elem k s = Some e ->
  CacheElement.was_written e = true \/ CacheElement.layer_meta e = [] ->
  (cached <- isCached k ;;
   (if cached then
      e <- element k ;;
      let tx := Tile.x (CacheElement.tile e) in
      let ty := Tile.y (CacheElement.tile e) in
      if outside_prediction roi tx ty then flush k else ret tt
    else ret tt) ;;;
   unlock k) s ≠ Throw ex s'.
Proof.
  intros He Hdone.
  destruct (Tile.data (CacheElement.tile e)) as [c|] eqn:Hd.
  2:{ unfold isCached. by rewrite (bind_undefined _ _ _ _
        (bind_undefined _ _ _ _ (tile_data_null _ _ _ He Hd))). }
  rewrite (bind_run _ _ _ _ _ (isCached_run _ _ _ c He Hd)).
  destruct (negb (CvGridMap.empty c)).
  - unfold bind at 1. unfold bind at 1. rewrite (element_run _ _ _ He). cbv zeta.
    destruct (outside_prediction _ _ _).
    + unfold flush. unfold bind at 1. rewrite (element_run _ _ _ He).
      assert ((if negb (CacheElement.was_written e) then write k else ret tt) s = Return tt s)
        as Hskip.
      { destruct (CacheElement.was_written e) eqn:Hw; [done|]. cbn [negb].
        destruct Hdone as [|Hmeta]; [done|]. by apply write_no_layers with e. }
      rewrite (bind_run _ _ _ _ _ Hskip).
      destruct (remove_layers_run k (CacheElement.layer_meta e) s e c He Hd)
        as (s1 & -> & He1 & _).
      by rewrite (unlock_run _ _ _ He1).
    + unfold ret at 1. by rewrite (unlock_run _ _ _ He).
  - unfold ret at 1. unfold bind at 1. by rewrite (unlock_run _ _ _ He).
Qed.

(** The step of the worker on an element throws exactly when the element
    is unlocked and not yet written and its [write] throws: the exception
    of [write] leaves the step, and nothing else throws. *)
Lemma process_element_throws roi k s ex s' :
  process_element roi k s = Throw ex s' <->
  exists e,
    elem k s = Some e
    /\ Tile.locked (CacheElement.tile e) = false
    /\ CacheElement.was_written e = false
    /\ write k (locked_state k e s) = Throw ex s'.
Proof.
  split.
  - intros Hrun. unfold process_element in Hrun.
    destruct (elem k s) as [e|] eqn:He;
      [|unfold lock in Hrun;
        by rewrite (bind_undefined _ _ _ _
                      (bind_undefined _ _ _ _ (element_null _ _ He))) in Hrun].
    destruct (Tile.locked (CacheElement.tile e)) eqn:Hl;
      [by rewrite (bind_blocked _ _ _ _ (lock_blocked _ _ _ He Hl)) in Hrun|].
    rewrite (bind_run _ _ _ _ _ (lock_run _ _ _ He Hl)) in Hrun.
    fold (locked_state k e s) in Hrun.
    set (el := CacheElement.set_tile (Tile.set_locked true (CacheElement.tile e)) e) in *.
    assert (elem k (locked_state k e s) = Some el) as Hel by apply elem_store_eq.
    rewrite (bind_run _ _ _ _ _ (element_run _ _ _ Hel)) in Hrun.
    change (CacheElement.was_written el) with (CacheElement.was_written e) in Hrun.
    destruct (CacheElement.was_written e) eqn:Hw; cbn [negb] in Hrun.
    + unfold ret at 1 in Hrun. unfold bind at 1 in Hrun.
      by destruct (after_write_no_exception roi k _ el ex s' Hel (or_introl Hw)).
    + exists e. split; [done|]. split; [done|]. split; [done|].
      unfold bind at 1 in Hrun.
      destruct (write k (locked_state k e s)) as [[] sw|ex1 s1|s1|u] eqn:Hwrite;
        [|by injection Hrun as -> ->|done..].
      exfalso. destruct (write_sets_flag _ _ _ Hwrite) as [Hmetas Hflag].
      destruct (proj2 (operations_keep_keys (op_write k) _ sw k
                         ltac:(simpl; by rewrite Hwrite)) (ex_intro _ el Hel))
        as [ew Hew].
      apply (after_write_no_exception roi k sw ew ex s' Hew); [|exact Hrun].
      unfold metas, written in Hmetas, Hflag. rewrite Hel, Hew in *.
      destruct (CacheElement.layer_meta ew) as [|m l] eqn:Hmeta; [by right|left].
      apply Hflag. by rewrite <- Hmetas.
  - intros (e & He & Hl & Hw & Hwrite). unfold process_element.
    rewrite (bind_run _ _ _ _ _ (lock_run _ _ _ He Hl)). fold (locked_state k e s).
    set (el := CacheElement.set_tile (Tile.set_locked true (CacheElement.tile e)) e) in *.
    assert (elem k (locked_state k e s) = Some el) as Hel by apply elem_store_eq.
    rewrite (bind_run _ _ _ _ _ (element_run _ _ _ Hel)).
    change (CacheElement.was_written el) with (CacheElement.was_written e).
    rewrite Hw. cbn [negb]. by apply bind_throw.
Qed.

Lemma NoDup_keys_ascending {V} (m : gmap Z V) : NoDup (keys_ascending m).
Proof.
  unfold keys_ascending. rewrite merge_sort_Permutation. apply NoDup_fst_map_to_list.
Qed.

Lemma NoDup_all_keys c : NoDup (all_keys c).
Proof.
  unfold all_keys. apply NoDup_bind; [| |apply NoDup_keys_ascending].
  - intros z1 z2 k _ _ Hk1 Hk2.
    apply list_elem_of_bind in Hk1 as (x1 & Hk1 & _).
    apply list_elem_of_bind in Hk1 as (y1 & Hk1 & _).
    apply list_elem_of_bind in Hk2 as (x2 & Hk2 & _).
    apply list_elem_of_bind in Hk2 as (y2 & Hk2 & _).
    apply list_elem_of_singleton in Hk1, Hk2. congruence.
  - intros z _. apply NoDup_bind; [| |apply NoDup_keys_ascending].
    + intros x1 x2 k _ _ Hk1 Hk2.
      apply list_elem_of_bind in Hk1 as (y1 & Hk1 & _).
      apply list_elem_of_bind in Hk2 as (y2 & Hk2 & _).
      apply list_elem_of_singleton in Hk1, Hk2. congruence.
    + intros x _. apply NoDup_bind; [| |apply NoDup_keys_ascending].
      * intros y1 y2 k _ _ Hk1 Hk2.
        apply list_elem_of_singleton in Hk1, Hk2. congruence.
      * intros y _. apply NoDup_singleton.
Qed.

(** The steps of a cycle leave the elements under the other keys as they
    are. *)
Lemma cycle_steps_untouched pred (keys : list key) s s' k' :
  k' ∉ keys ->
  final_state (mfor keys (cycle_step pred) s) = Some s' ->
  elem k' s' = elem k' s.
Proof.
  intros Hk' Hfinal.
  assert (stable (untouched (fun k0 => k0 = k') s) (mfor keys (cycle_step pred))) as Hloop.
  { apply stable_mfor. intros k Hk. unfold cycle_step.
    destruct (pred !! k.1.1); [|apply stable_throw].
    apply stable_process_element; [|apply untouched_survives_io].
    apply untouched_survives_update. intros ->. done. }
  by apply (stable_final_state _ _ _ _ Hloop (fun k0 _ => eq_refl) Hfinal k').
Qed.



(** * [add] as an ordinary build runs it *)

Lemma updatePrediction_as_built_run zoom_level roi_current s :
  exists pred prev,
    updatePrediction_as_built zoom_level roi_current s
    = Return tt (set_roi_prev_request prev (set_roi_prediction pred s))
    /\ (forall z, z ≠ zoom_level -> pred !! z = roi_prediction s !! z)
    /\ (forall z, z ≠ zoom_level -> prev !! z = roi_prev_request s !! z).
Proof.
  unfold updatePrediction_as_built. unfold bind at 1 2, gets at 1.
  destruct (roi_prev_request s !! zoom_level) as [roi_prev|] eqn:Hprev.
  - unfold bind at 1, gets at 1. cbv zeta.
    destruct (roi_prediction s !! zoom_level) as [roi_pred|] eqn:Hpred.
    + eexists _, _. split; [reflexivity|].
      split; intros z Hz; cbn; by rewrite lookup_insert_ne.
    + exists (roi_prediction s), (<[zoom_level := roi_current]> (roi_prev_request s)).
      split; [by destruct s|]. split; intros z Hz; [done|by rewrite lookup_insert_ne].
  - exists (<[zoom_level := roi_current]> (roi_prediction s)), (roi_prev_request s).
    split; [by destruct s|]. split; intros z Hz; [by rewrite lookup_insert_ne|done].
Qed.

Lemma grid_put_lookup timestamp layer_meta g t x y :
  grid_lookup (grid_put timestamp layer_meta g t) x y
  = if decide ((Tile.x t, Tile.y t) = (x, y))
    then Some (CacheElement.mk timestamp layer_meta t false)
    else grid_lookup g x y.
Proof.
  unfold grid_lookup, grid_put.
  destruct (decide (Tile.x t = x)) as [<-|Hx].
  - rewrite lookup_insert_eq. destruct (decide (Tile.y t = y)) as [<-|Hy].
    + rewrite lookup_insert_eq. by rewrite decide_True.
    + rewrite lookup_insert_ne by done. rewrite decide_False by congruence.
      by destruct (g !! Tile.x t).
  - rewrite lookup_insert_ne by done. by rewrite decide_False by congruence.
Qed.

Lemma grid_put_other timestamp layer_meta tiles x y : forall g,
  (forall t, t ∈ tiles -> (Tile.x t, Tile.y t) ≠ (x, y)) ->
  grid_lookup (foldl (grid_put timestamp layer_meta) g tiles) x y = grid_lookup g x y.
Proof.
  induction tiles as [|t tiles IH]; intros g Hother; [done|].
  simpl. rewrite IH by (intros t' Ht'; apply Hother; by right).
  rewrite grid_put_lookup. rewrite decide_False; [done|]. apply Hother. by left.
Qed.

Lemma grid_put_last timestamp layer_meta before t after g :
  (forall t', t' ∈ after -> (Tile.x t', Tile.y t') ≠ (Tile.x t, Tile.y t)) ->
  grid_lookup (foldl (grid_put timestamp layer_meta) g (before ++ t :: after))
              (Tile.x t) (Tile.y t)
  = Some (CacheElement.mk timestamp layer_meta t false).
Proof.
  intros Hlast. rewrite foldl_app. simpl. rewrite grid_put_other by done.
  rewrite grid_put_lookup. by rewrite decide_True.
Qed.

(** The element under a key of a zoom level that has just been stored. *)
Lemma elem_new_zoom z g x y s :
  elem (z, x, y) (set_cache (<[z := g]> (cache s)) s) = grid_lookup g x y.
Proof.
  unfold elem, lookup_element, grid_lookup. cbn [cache set_cache].
  by rewrite lookup_insert_eq.
Qed.

Lemma elem_other_zoom z g k s :
  k.1.1 ≠ z -> elem k (set_cache (<[z := g]> (cache s)) s) = elem k s.
Proof.
  destruct k as [[kz kx] ky]. intros Hz. unfold elem, lookup_element.
  cbn [cache set_cache]. by rewrite lookup_insert_ne.
Qed.

Lemma elem_missing_zoom k s : cache s !! k.1.1 = None -> elem k s = None.
Proof. destruct k as [[kz kx] ky]. unfold elem, lookup_element. simpl. by intros ->. Qed.

Section as_built_steps.
Context (column_missing : state -> Tile.t -> bool).

(** The loop of [add] on a new zoom level (lines 179-190) fills the local
    grid and touches nothing of the cache object but the directories; it
    stops when it finds a tile locked. *)
Lemma new_zoom_loop zoom_level layer_names layer_meta timestamp tiles : forall g s,
  match mfold (add_to_new_zoom_as_built column_missing zoom_level layer_names layer_meta
                 timestamp) tiles g s with
  | Return g' s' =>
      g' = foldl (grid_put timestamp layer_meta) g tiles
      /\ Forall (fun t => Tile.locked t = false) tiles
      /\ exists d, s' = set_directories d s
  | Blocked s' => (exists d, s' = set_directories d s) /\ Exists (fun t => Tile.locked t = true) tiles
  | Throw _ _ | Undefined _ => False
  end.
Proof.
  induction tiles as [|t tiles IH]; intros g s.
  - simpl. split; [done|]. split; [done|]. exists (directories s). by destruct s.
  - simpl. unfold bind at 1. unfold add_to_new_zoom_as_built at 1, lock_tile.
    destruct (Tile.locked t) eqn:Hl.
    + simpl. split; [|by left]. exists (directories s). by destruct s.
    + unfold ret at 1, gets at 1 2. unfold bind at 1 2 3 4.
      assert (exists d, (if column_missing s t
                         then createDirectories (dir_toplevel s +:+ "/") layer_names
                                ("/" +:+ pretty zoom_level +:+ "/" +:+ pretty (Tile.x t))
                         else ret tt) s = Return tt (set_directories d s)) as (d & ->).
      { destruct (column_missing s t); [apply createDirectories_run|].
        exists (directories s). by destruct s. }
      unfold ret at 1. fold (grid_put timestamp layer_meta g t).
      specialize (IH (grid_put timestamp layer_meta g t) (set_directories d s)).
      destruct (mfold _ tiles _ _) as [g' s'|ex s'|s'|u]; [|done| |done].
      * destruct IH as (-> & Hunlocked & d' & ->). split; [done|].
        split; [by apply Forall_cons|]. by exists d'.
      * destruct IH as [(d' & ->) Hlocked]. split; [by exists d'|by right].
Qed.

(** Every step of [add] keeps the frame. *)
Lemma stable_add_as_built zoom_level tiles roi_idx s0 :
  stable (add_frame zoom_level tiles s0)
         (add_as_built column_missing zoom_level tiles roi_idx).
Proof.
  unfold add_as_built.
  apply stable_bind; [destruct tiles; stable_steps|]. intros t.
  apply stable_bind; [destruct (Tile.data t); stable_steps|]. intros d0. cbv zeta.
  set (layer_names := CvGridMap.getAllLayerNames d0).
  set (layer_meta := omap _ layer_names).
  apply stable_bind; [apply stable_gets|]. intros toplevel.
  apply stable_bind; [apply stable_gets|]. intros has_init.
  apply stable_bind.
  { destruct (negb has_init); stable_steps;
      [by apply stable_createDirectories|by apply stable_modify]. }
  intros [].
  eapply triple_bind;
    [apply (triple_gets _ _ (fun c s => add_frame zoom_level tiles s0 s /\ c = cache s)); auto|].
  intros c.
  eapply triple_bind;
    [apply (triple_gets _ _ (fun _ s => add_frame zoom_level tiles s0 s /\ c = cache s)); auto|].
  intros timestamp.
  eapply (triple_bind _ _ _ (fun _ => add_frame zoom_level tiles s0)).
  2:{ intros []. apply stable_bind; [|intros []; by apply stable_modify].
      intros s Hs.
      destruct (updatePrediction_as_built_run zoom_level roi_idx s)
        as (pred & prev & -> & Hpred & Hprev).
      destruct Hs as (Huntouched & Hpred0 & Hprev0). split; [done|].
      split; intros z Hz; cbn; [rewrite Hpred|rewrite Hprev]; auto. }
  destruct (c !! zoom_level) as [grid|] eqn:Hzoom.
  - eapply triple_conseq;
      [apply (stable_mfor (add_frame zoom_level tiles s0))|by intros s [Hs _]|done|done].
    intros t' Ht'. by apply add_frame_existing_zoom.
  - intros s [Hs ->].
    unfold bind at 1.
    destruct (createDirectories_run (toplevel +:+ "/") layer_names
                ("/" +:+ pretty zoom_level) s) as (d & ->).
    pose proof (new_zoom_loop zoom_level layer_names layer_meta
                  timestamp tiles ∅ (set_directories d s)) as Hloop.
    unfold bind at 1.
    destruct (mfold _ tiles ∅ _) as [g' s'|ex s'|s'|u]; [|done| |done].
    + destruct Hloop as (-> & _ & d' & ->). simpl.
      destruct Hs as (Huntouched & Hpred & Hprev). split; [|done].
      intros k Hk. destruct (decide (k.1.1 = zoom_level)) as [Hz|Hz].
      * destruct k as [[kz kx] ky]. simpl in Hz. subst kz.
        change (elem (zoom_level, kx, ky)
                  (set_cache (<[zoom_level := foldl (grid_put timestamp layer_meta) ∅ tiles]> (cache s)) s)
                = elem (zoom_level, kx, ky) s0).
        rewrite elem_new_zoom, grid_put_other.
        -- rewrite <- (Huntouched _ Hk). symmetry. by apply elem_missing_zoom.
        -- intros t' Ht'. destruct Hk as [Hk|Hk]; [done|]. apply not_eq_sym. by apply Hk.
      * rewrite <- (Huntouched _ Hk).
        apply (elem_other_zoom zoom_level _ k s Hz).
    + by destruct Hloop as [(d' & ->) _].
Qed.

(** A call of [add] with tiles that are not locked, the first of which
    has a raster container, returns; the tiles are then stored under their
    keys. *)
Lemma add_as_built_run zoom_level t0 rest d0 roi_idx s :
  Tile.data t0 = Some d0 ->
  Forall (fun t => Tile.locked t = false) (t0 :: rest) ->
  exists s' layer_meta,
    add_as_built column_missing zoom_level (t0 :: rest) roi_idx s = Return tt s'
    /\ forall before t after,
         t0 :: rest = before ++ t :: after ->
         (forall t', t' ∈ after -> (Tile.x t', Tile.y t') ≠ (Tile.x t, Tile.y t)) ->
         elem (zoom_level, Tile.x t, Tile.y t) s'
         = Some (CacheElement.mk (now s) layer_meta t false).
Proof.
  intros Hd0 Hunlocked. set (tiles := t0 :: rest) in *.
  unfold add_as_built. subst tiles.
  unfold ret at 1. unfold bind at 1. rewrite Hd0.
  unfold ret at 1. unfold bind at 1. cbv zeta.
  set (layer_names := CvGridMap.getAllLayerNames d0).
  set (layer_meta := omap _ layer_names).
  unfold gets at 1 2. unfold bind at 1 2.
  assert (exists s1, cache s1 = cache s /\ now s1 = now s /\
            forall f : unit -> M unit,
              bind (if negb (has_init_directories s)
                    then createDirectories (dir_toplevel s +:+ "/") layer_names "" ;;;
                         modify (set_has_init_directories true)
                    else ret tt) f s = f tt s1) as (s1 & Hcache & Hnow & ->).
  { destruct (negb (has_init_directories s)).
    - destruct (createDirectories_run (dir_toplevel s +:+ "/") layer_names "" s)
        as (d & Hrun).
      exists (set_has_init_directories true (set_directories d s)).
      split; [done|]. split; [done|].
      intros f. unfold bind at 1 2. by rewrite Hrun.
    - by exists s. }
  unfold gets at 1 2. unfold bind at 1 2. rewrite Hcache, Hnow.
  assert (exists s2,
            match cache s !! zoom_level with
            | Some _ =>
                mfor (t0 :: rest)
                     (add_to_existing_zoom zoom_level layer_names layer_meta (now s))
            | None =>
                createDirectories (dir_toplevel s +:+ "/") layer_names
                  ("/" +:+ pretty zoom_level) ;;;
                tile_grid <- mfold (add_to_new_zoom_as_built column_missing zoom_level
                                      layer_names layer_meta (now s)) (t0 :: rest) ∅ ;;
                modify (fun s => set_cache (<[zoom_level := tile_grid]> (cache s)) s)
            end s1 = Return tt s2
            /\ forall before t after,
                 t0 :: rest = before ++ t :: after ->
                 (forall t', t' ∈ after -> (Tile.x t', Tile.y t') ≠ (Tile.x t, Tile.y t)) ->
                 elem (zoom_level, Tile.x t, Tile.y t) s2
                 = Some (CacheElement.mk (now s) layer_meta t false))
    as (s2 & Hrun & Hstored).
  { destruct (cache s !! zoom_level) as [grid|] eqn:Hzoom.
    - destruct (add_loop_run zoom_level layer_names layer_meta (now s) (t0 :: rest) s1
                  Hunlocked) as (s2 & Hloop & Hstored & _).
      by exists s2.
    - unfold bind at 1.
      destruct (createDirectories_run (dir_toplevel s +:+ "/") layer_names
                  ("/" +:+ pretty zoom_level) s1) as (d & ->).
      pose proof (new_zoom_loop zoom_level layer_names layer_meta (now s) (t0 :: rest) ∅
                    (set_directories d s1)) as Hloop.
      unfold bind at 1.
      destruct (mfold _ (t0 :: rest) ∅ _) as [g' s'|ex s'|s'|u]; [|done| |done].
      + destruct Hloop as (-> & _ & d' & ->). eexists. split; [reflexivity|].
        intros before t after Hsplit Hlast.
        rewrite elem_new_zoom, Hsplit. by apply grid_put_last.
      + destruct Hloop as [_ Hlocked]. apply Exists_exists in Hlocked as (t & Ht & Hl).
        rewrite Forall_forall in Hunlocked. by rewrite (Hunlocked t Ht) in Hl. }
  destruct (updatePrediction_as_built_run zoom_level roi_idx s2) as (pred & prev & Hup & _).
  exists (set_do_update true (set_roi_prev_request prev (set_roi_prediction pred s2))),
         layer_meta.
  split; [|exact Hstored].
  rewrite (bind_run _ _ _ _ _ Hrun). by rewrite (bind_run _ _ _ _ _ Hup).
Qed.
End as_built_steps.

(** ** The two readings agree where the standard defines the call *)

Lemma refines_refl {A} (m : M A) : refines m m.
Proof. intros s. by destruct (m s). Qed.

Lemma refines_bind {A B} (m m' : M A) (f f' : A -> M B) :
  refines m m' -> (forall a, refines (f a) (f' a)) -> refines (bind m f) (bind m' f').
Proof.
  intros Hm Hf s. unfold bind. specialize (Hm s).
  destruct (m s) as [a s1|ex s1|s1|u]; [|by rewrite Hm..|done].
  rewrite Hm. apply Hf.
Qed.

Lemma refines_undefined {A B} u (f : A -> M B) (m' : M B) :
  refines (bind (undefined_behaviour u) f) m'.
Proof. by intros s. Qed.

Lemma refines_mfold {A B} (body body' : B -> A -> M B) (l : list A) : forall b,
  (forall b a, refines (body b a) (body' b a)) ->
  refines (mfold body l b) (mfold body' l b).
Proof.
  induction l as [|a l IH]; intros b Hbody; [apply refines_refl|].
  simpl. apply refines_bind; [apply Hbody|]. intros b'. by apply IH.
Qed.

Lemma updatePrediction_refines zoom_level roi_current :
  refines (updatePrediction zoom_level roi_current)
          (updatePrediction_as_built zoom_level roi_current).
Proof.
  intros s. unfold updatePrediction, updatePrediction_as_built.
  unfold bind at 1 2 5 6, gets at 1 3.
  destruct (roi_prev_request s !! zoom_level) as [roi_prev|]; [|done].
  unfold bind, gets. cbv zeta.
  by destruct (roi_prediction s !! zoom_level).
Qed.

(** Wherever the C++ standard defines what a call of [add] does, the
    ordinary build does the same. *)
Lemma add_as_built_refines column_missing zoom_level tiles roi_idx :
  refines (add zoom_level tiles roi_idx)
          (add_as_built column_missing zoom_level tiles roi_idx).
Proof.
  unfold add, add_as_built.
  apply refines_bind; [apply refines_refl|]. intros t0.
  apply refines_bind; [apply refines_refl|]. intros d0. cbv zeta.
  apply refines_bind; [apply refines_refl|]. intros toplevel.
  apply refines_bind; [apply refines_refl|]. intros has_init.
  apply refines_bind; [apply refines_refl|]. intros [].
  apply refines_bind; [apply refines_refl|]. intros c.
  apply refines_bind; [apply refines_refl|]. intros timestamp.
  apply refines_bind.
  2:{ intros []. apply refines_bind; [apply updatePrediction_refines|].
      intros []. apply refines_refl. }
  destruct (c !! zoom_level); [apply refines_refl|].
  apply refines_bind; [apply refines_refl|]. intros [].
  apply refines_bind; [|intros g; apply refines_refl].
  apply refines_mfold. intros g t.
  unfold add_to_new_zoom, add_to_new_zoom_as_built.
  apply refines_bind; [apply refines_refl|]. intros [].
  apply refines_bind; [apply refines_refl|]. intros toplevel'.
  apply refines_undefined.
Qed.



(** C9: the frame of [add].  In whatever state a call of [add] ends,
    because it returns or because it waits for a tile that is locked,
    every element stored under a key that is not the key of one of the
    tiles of the call is the element it was, with its flag, its raster
    container and its metadata, and the predicted ROI and the previous
    request of every other zoom level are what they were.  A call with
    tiles that are not locked, the first of which has a raster container,
    does return. *)
Theorem add_keeps_the_frame column_missing zoom_level tiles roi_idx s :
  (forall s',
     final_state (add_as_built column_missing zoom_level tiles roi_idx s) = Some s' ->
     add_frame zoom_level tiles s s')
  /\ ((exists t0 d0 rest, tiles = t0 :: rest /\ Tile.data t0 = Some d0) ->
      Forall (fun t => Tile.locked t = false) tiles ->
      exists s', add_as_built column_missing zoom_level tiles roi_idx s = Return tt s').
Proof.
  split.
  - intros s' Hfinal. eapply stable_final_state; [apply stable_add_as_built| |exact Hfinal].
    by repeat split.
  - intros (t0 & d0 & rest & -> & Hd0) Hunlocked.
    destruct (add_as_built_run column_missing zoom_level t0 rest d0 roi_idx s Hd0 Hunlocked)
      as (s' & _ & Hrun & _).
    by exists s'.
Qed.

Lemma add_keeps_the_frame_witness :
  exists s',
    add_as_built (fun _ _ => false) 5 [color_tile 5 0 0] (Rect.mk 0 0 1 1) populated_cache
    = Return tt s'
    /\ add_frame 5 [color_tile 5 0 0] populated_cache s'
    /\ elem (5, 1, 1) s' = Some (color_element 5 1 1 true)
    /\ elem (6, 2, 2) s' = Some (color_element 6 2 2 false)
    /\ roi_prediction s' !! 6 = Some (Rect.mk 0 0 4 4)
    /\ roi_prev_request s' !! 6 = None.
Proof.
  destruct (add_keeps_the_frame (fun _ _ => false) 5 [color_tile 5 0 0] (Rect.mk 0 0 1 1)
              populated_cache) as [Hframe Hreturns].
  destruct Hreturns as (s' & Hrun).
  - by exists (color_tile 5 0 0), [CvGridMap.mkLayer "color" (raster CV_8U) 1], [].
  - by repeat constructor.
  - assert (add_frame 5 [color_tile 5 0 0] populated_cache s') as Hs'.
    { apply Hframe. by rewrite Hrun. }
    exists s'. split; [exact Hrun|]. split; [exact Hs'|].
    destruct Hs' as (Huntouched & Hpred & Hprev).
    split; [rewrite Huntouched; [reflexivity|right; intros t ->%list_elem_of_singleton; done]|].
    split; [rewrite Huntouched; [reflexivity|by left]|].
    split; [by rewrite Hpred|by rewrite Hprev].
Defined.

(** * Durability of the elements that the worker evicts *)

(** ** The path of a file names its layer and its tile *)

Lemma string_app_cons c (a b : string) : String c a +:+ b = String c (a +:+ b).
Proof. reflexivity. Qed.

Lemma string_app_nil_l (a : string) : "" +:+ a = a.
Proof. reflexivity. Qed.

Lemma no_slash_app a b : no_slash (a +:+ b) = no_slash a && no_slash b.
Proof.
  induction a as [|c a IH]; [done|].
  rewrite string_app_cons. simpl. rewrite IH. by rewrite andb_assoc.
Qed.

Lemma no_slash_pretty_N_go x : forall s,
  no_slash s = true -> no_slash (pretty_N_go x s) = true.
Proof.
  induction (N.lt_wf_0 x) as [x _ IH]; intros s Hs.
  destruct (decide (x = 0)%N) as [->|Hx]; [by rewrite pretty_N_go_0|].
  rewrite pretty_N_go_step by lia. apply IH; [apply N.div_lt; lia|].
  simpl. rewrite Hs. unfold pretty_N_char. by repeat case_match.
Qed.

Lemma no_slash_pretty_positive (p : positive) : no_slash (pretty p) = true.
Proof.
  unfold pretty, pretty_positive, pretty, pretty_N.
  case_decide; [done|]. by apply no_slash_pretty_N_go.
Qed.

Lemma no_slash_pretty (z : Z) : no_slash (pretty z) = true.
Proof.
  unfold pretty, pretty_Z. destruct z as [|p|p]; [done| |].
  - apply no_slash_pretty_positive.
  - rewrite no_slash_app. by rewrite no_slash_pretty_positive.
Qed.

(** A string is cut at its last slash in one way only. *)
Lemma split_at_last_slash a : forall a' b b',
  no_slash b = true -> no_slash b' = true ->
  a +:+ "/" +:+ b = a' +:+ "/" +:+ b' -> a = a' /\ b = b'.
Proof.
  induction a as [|c a IH]; intros [|c' a'] b b' Hb Hb' Heq.
  - rewrite ?string_app_nil_l, ?string_app_cons, ?string_app_nil_l in Heq.
    by injection Heq.
  - rewrite ?string_app_nil_l, ?string_app_cons, ?string_app_nil_l in Heq.
    injection Heq as <- ->. rewrite !no_slash_app in Hb. simpl in Hb.
    by rewrite andb_false_r in Hb.
  - rewrite ?string_app_nil_l, ?string_app_cons, ?string_app_nil_l in Heq.
    injection Heq as -> <-. rewrite !no_slash_app in Hb'. simpl in Hb'.
    by rewrite andb_false_r in Hb'.
  - rewrite !string_app_cons in Heq. injection Heq as -> Heq.
    destruct (IH a' b b' Hb Hb' Heq) as [-> ->]. done.
Qed.

Lemma tile_path_inj toplevel layer1 layer2 t1 t2 ext1 ext2 :
  String.length ext1 = String.length ext2 ->
  tile_path toplevel layer1 t1 +:+ ext1 = tile_path toplevel layer2 t2 +:+ ext2 ->
  layer1 = layer2 /\ tile_coords t1 = tile_coords t2.
Proof.
  intros Hlen Heq. apply string_app_inj_r in Heq; [|done].
  unfold tile_path in Heq.
  apply (inj (String.append toplevel)) in Heq. apply (inj (String.append "/")) in Heq.
  assert (forall l z x y : string,
            l +:+ "/" +:+ z +:+ "/" +:+ x +:+ "/" +:+ y
            = (l +:+ "/" +:+ z +:+ "/" +:+ x) +:+ "/" +:+ y) as Hsplit_y.
  { intros. by rewrite !string_app_assoc. }
  assert (forall l z x : string,
            l +:+ "/" +:+ z +:+ "/" +:+ x = (l +:+ "/" +:+ z) +:+ "/" +:+ x) as Hsplit_x.
  { intros. by rewrite !string_app_assoc. }
  rewrite !Hsplit_y in Heq.
  apply split_at_last_slash in Heq as [Heq Hy]; [|apply no_slash_pretty..].
  rewrite !Hsplit_x in Heq.
  apply split_at_last_slash in Heq as [Heq Hx]; [|apply no_slash_pretty..].
  apply split_at_last_slash in Heq as [Hlayer Hz]; [|apply no_slash_pretty..].
  split; [done|]. unfold tile_coords.
  by rewrite (inj pretty _ _ Hx), (inj pretty _ _ Hy), (inj pretty _ _ Hz).
Qed.

Lemma payload_store k k' e s :
  payload k' (set_cache (store_element k e (cache s)) s) =
  if decide (k = k') then Some (Tile.data (CacheElement.tile e)) else payload k' s.
Proof. unfold payload. rewrite elem_store. by case_decide. Qed.

Section durable_saves.
(** The state in which the cycle starts. *)
Context (s0 : state) (Hdistinct : distinct_tiles s0).

Lemma saves_are_durable_start : saves_are_durable s0 s0.
Proof.
  split; [done|]. split; [done|]. split; [done|].
  exists []. split; [by rewrite app_nil_r|]. by intros k layer ?%elem_of_nil.
Qed.

Lemma saving_exit k s : saving s0 k s -> saves_are_durable s0 s.
Proof.
  intros (Hdir & Hcoords & Hothers & Hk & Hsaved).
  split; [done|]. split; [done|]. split; [|done].
  intros k' Hw. destruct (decide (k' = k)) as [->|Hne]; [done|by apply Hothers].
Qed.

(** Taking and releasing the lock of a tile. *)
Lemma saves_are_durable_set_locked k l :
  stable (saves_are_durable s0)
    (update_element k
       (fun e => CacheElement.set_tile (Tile.set_locked l (CacheElement.tile e)) e)).
Proof.
  intros s Hs. destruct (elem k s) as [e|] eqn:He.
  2:{ unfold update_element. by rewrite (bind_undefined _ _ _ _ (element_null _ _ He)). }
  rewrite (update_element_run _ _ _ _ He).
  destruct Hs as (Hdir & Hcoords & Hpayload & evs & Ht & Hsaved).
  split; [done|]. split; [|split; [|by exists evs]].
  - intros k'. rewrite <- Hcoords. apply (element_coords_store _ _ e); [done|].
    by destruct e as [? ? [] ?].
  - intros k'. rewrite written_store, payload_store. case_decide as Hk; [|apply Hpayload].
    subst k'. intros Hw. rewrite <- Hpayload by (unfold written; by rewrite He).
    unfold payload. rewrite He. by destruct e as [? ? [] ?].
Qed.

Lemma saves_are_durable_lock k : stable (saves_are_durable s0) (lock k).
Proof.
  unfold lock. apply stable_bind; [apply stable_element|]. intros e.
  destruct (Tile.locked (CacheElement.tile e));
    [apply stable_block|apply saves_are_durable_set_locked].
Qed.

(** A layer that [write] saves is durable, and the layers saved before
    stay so. *)
Lemma saving_write_layer k meta : stable (saving s0 k) (write_layer k meta).
Proof.
  intros s Hs. pose proof Hs as (Hdir & Hcoords & Hothers & Hk & evs & Ht & Hsaved).
  unfold write_layer.
  destruct (elem k s) as [e|] eqn:He;
    [|by rewrite (bind_undefined _ _ _ _ (element_null _ _ He))].
  rewrite (bind_run _ _ _ _ _ (element_run _ _ _ He)).
  destruct (Tile.data (CacheElement.tile e)) as [c|] eqn:Hdata;
    [|by rewrite (bind_undefined _ _ _ _ (tile_data_null _ _ _ He Hdata))].
  rewrite (bind_run _ _ _ _ _ (tile_data_run _ _ _ _ He Hdata)).
  destruct (CvGridMap.get c (LayerMetaData.name meta)) as [data|] eqn:Hget; [|exact Hs].
  unfold gets at 1. unfold bind at 1.
  destruct (extension _) as [ext|] eqn:Hext; [|exact Hs].
  unfold saveImage, emit, modify. unfold bind at 1 2.
  erewrite update_element_run; [|exact He].
  assert (exists e0, elem k s0 = Some e0
                     /\ tile_coords (CacheElement.tile e0) = tile_coords (CacheElement.tile e)
                     /\ Tile.data (CacheElement.tile e0) = Some c) as (e0 & He0 & Hc0 & Hd0).
  { pose proof (Hcoords k) as Hck. unfold element_coords in Hck. rewrite He in Hck.
    unfold payload in Hk. rewrite He in Hk.
    destruct (elem k s0) as [e0|]; [|done]. simpl in Hck, Hk.
    exists e0. split; [done|]. split; [congruence|]. rewrite <- Hdata. congruence. }
  match goal with |- context [set_cache _ ?s2] => set (s1 := s2) end.
  assert (elem k s1 = Some e) as He1 by exact He.
  split; [done|]. split; [|split; [|split]].
  - intros k'. rewrite <- Hcoords.
    exact (element_coords_store k k' e (CacheElement.set_was_written true e) s1 He1 eq_refl).
  - intros k' Hne. rewrite written_store, payload_store.
    rewrite !decide_False by done. by apply Hothers.
  - rewrite payload_store, decide_True by done. rewrite <- Hk. unfold payload.
    by rewrite He.
  - exists (evs ++ [EvSave k (LayerMetaData.name meta)]).
    split; [cbn; by rewrite Ht, app_assoc|].
    unfold s1. rewrite Hdir.
    intros k1 layer1 [Hin|Hnew%list_elem_of_singleton]%elem_of_app.
    + destruct (Hsaved k1 layer1 Hin) as (e1 & c1 & d1 & ext1 & Hk1 & Hc1 & Hg1 & Hx1 & Hf1).
      exists e1, c1, d1, ext1. split; [done|]. split; [done|]. split; [done|].
      split; [done|]. unfold durable. cbn [files set_cache set_trace set_files].
      destruct (decide (tile_path (dir_toplevel s0) (LayerMetaData.name meta)
                          (CacheElement.tile e) +:+ ext
                        = tile_path (dir_toplevel s0) layer1 (CacheElement.tile e1) +:+ ext1))
        as [Heq|Hne]; [|by rewrite lookup_insert_ne].
      rewrite Heq, lookup_insert_eq. f_equal.
      apply tile_path_inj in Heq as [Hlayer Htile];
        [|by rewrite (extension_length _ _ Hext), (extension_length _ _ Hx1)].
      assert (k1 = k) as ->.
      { apply (Hdistinct k1 k e1 e0 Hk1 He0). congruence. }
      rewrite He0 in Hk1. injection Hk1 as <-. rewrite Hd0 in Hc1. injection Hc1 as <-.
      rewrite Hlayer in Hget. congruence.
    + injection Hnew as -> ->. exists e0, c, data, ext.
      split; [done|]. split; [done|]. split; [done|]. split; [done|].
      cbn [files set_cache set_trace set_files].
      rewrite (tile_path_coords _ _ _ _ Hc0). apply lookup_insert_eq.
Qed.

Lemma durable_write k :
  triple (fun s => saves_are_durable s0 s /\ written k s = false) (write k)
         (fun _ => saves_are_durable s0) (saves_are_durable s0).
Proof.
  eapply triple_conseq;
    [apply (stable_write_from_layers (saving s0 k) k), saving_write_layer| | |].
  - intros s [(Hdir & Hcoords & Hpayload & Hsaved) Hw].
    split; [done|]. split; [done|]. split; [by intros k' _; apply Hpayload|].
    split; [by apply Hpayload|done].
  - intros [] s. apply saving_exit.
  - apply saving_exit.
Qed.

Lemma durable_remove_layer k layer :
  triple (fun s => saves_are_durable s0 s /\ written k s = true) (remove_layer k layer)
         (fun _ s => saves_are_durable s0 s /\ written k s = true) (saves_are_durable s0).
Proof.
  intros s [Hs Hwritten]. destruct Hs as (Hdir & Hcoords & Hpayload & evs & Ht & Hsaved).
  unfold remove_layer.
  destruct (elem k s) as [e|] eqn:He;
    [|by rewrite (bind_undefined _ _ _ _ (element_null _ _ He))].
  rewrite (bind_run _ _ _ _ _ (element_run _ _ _ He)).
  destruct (Tile.data (CacheElement.tile e)) as [c|] eqn:Hdata;
    [|by rewrite (bind_undefined _ _ _ _ (tile_data_null _ _ _ He Hdata))].
  rewrite (bind_run _ _ _ _ _ (tile_data_run _ _ _ _ He Hdata)).
  assert (CacheElement.was_written e = true) as Hw.
  { unfold written in Hwritten. by rewrite He in Hwritten. }
  unfold emit, modify. unfold bind at 1.
  unfold set_tile_data. erewrite update_element_run; [|exact He].
  match goal with |- context [set_cache _ ?s2] => set (s1 := s2) end.
  assert (elem k s1 = Some e) as He1 by exact He.
  split; [|rewrite written_store; by rewrite decide_True].
  split; [done|]. split; [|split].
  - intros k'. rewrite <- Hcoords. apply (element_coords_store k k' e _ s1 He1).
    by destruct e as [? ? [] ?].
  - intros k'. rewrite written_store, payload_store. case_decide as Hk; [|apply Hpayload].
    subst k'. intros Hw'. destruct e as [? ? [] ?]. simpl in *. congruence.
  - exists (evs ++ [EvRemove k layer (CacheElement.was_written e)]).
    split; [cbn; by rewrite Ht, app_assoc|].
    intros k1 layer1 [Hin|Hnew%list_elem_of_singleton]%elem_of_app; [|done].
    by apply Hsaved.
Qed.

Lemma durable_flush k :
  triple (saves_are_durable s0) (flush k) (fun _ => saves_are_durable s0)
         (saves_are_durable s0).
Proof.
  intros s Hs. unfold flush.
  destruct (elem k s) as [e|] eqn:He;
    [|by rewrite (bind_undefined _ _ _ _ (element_null _ _ He))].
  rewrite (bind_run _ _ _ _ _ (element_run _ _ _ He)).
  assert (triple (fun s1 => s1 = s)
            (if negb (CacheElement.was_written e) then write k else ret tt)
            (fun _ s1 => saves_are_durable s0 s1
                         /\ (CacheElement.layer_meta e ≠ [] -> written k s1 = true))
            (saves_are_durable s0)) as Hwrite.
  { intros s1 ->. destruct (CacheElement.was_written e) eqn:Hw; cbn [negb].
    - split; [done|]. intros _. unfold written. by rewrite He.
    - assert (written k s = false) as Hflag by (unfold written; by rewrite He).
      pose proof (durable_write k s (conj Hs Hflag)) as Hrun.
      destruct (write k s) as [[] s1| | |] eqn:Hwr; [|done..].
      split; [done|]. intros Hne. apply (write_sets_flag _ _ _ Hwr).
      unfold metas. by rewrite He. }
  eapply (triple_bind _ _ _ _ _ _ Hwrite); [|done].
  intros []. destruct (CacheElement.layer_meta e) as [|meta l] eqn:Hl.
  - apply triple_ret. by intros s1 [? _].
  - eapply triple_conseq;
      [apply (triple_mfor_inv (fun s1 => saves_are_durable s0 s1 /\ written k s1 = true)
                (saves_are_durable s0))| | |].
    + intros m _. apply durable_remove_layer.
    + intros s1 [? Hw]. split; [done|]. by apply Hw.
    + by intros _ s1 [? _].
    + done.
Qed.

Lemma durable_process_element roi k :
  stable (saves_are_durable s0) (process_element roi k).
Proof.
  unfold process_element.
  apply stable_bind; [apply saves_are_durable_lock|]. intros [].
  eapply triple_bind.
  { apply (triple_element _ _ (fun e s => saves_are_durable s0 s /\ elem k s = Some e)).
    auto. }
  intros e. eapply (triple_bind _ _ _ (fun _ => saves_are_durable s0)).
  { destruct (CacheElement.was_written e) eqn:Hw; cbn [negb].
    - apply triple_ret. by intros s [? _].
    - eapply triple_conseq; [apply (durable_write k)| |done|done].
      intros s [Hs He]. split; [done|]. unfold written. by rewrite He. }
  intros []. apply stable_bind; [apply stable_isCached|]. intros cached.
  apply stable_bind; [|intros []; apply saves_are_durable_set_locked].
  destruct cached; [|apply stable_ret].
  apply stable_bind; [apply stable_element|]. intros e'. cbv zeta.
  destruct (outside_prediction _ _ _); [apply durable_flush|apply stable_ret].
Qed.

Lemma durable_process : stable (saves_are_durable s0) process.
Proof.
  apply stable_process_from_elements; [apply durable_process_element|].
  intros s (Hdir & Hcoords & Hpayload & evs & Ht & Hsaved).
  split; [done|]. split; [done|]. split; [done|]. by exists evs.
Qed.
End durable_saves.



